(** * NumberGenerator: a shallow embedding of [main.go] and its properties

    The program joins forty hard-coded operator prefixes with user-supplied
    four-digit middle codes and the suffixes 0000..9999, and writes the
    resulting eleven-digit numbers to [phonedict.txt].  Middle codes come
    from [config.json] or from one line of console input.

    Part I embeds the program: first the pieces of the Go standard library
    that [main.go] calls ([unicode/utf8], [unicode], [strings], [regexp],
    [fmt], [os], [bufio], [encoding/json]), then the functions of [main.go]
    themselves.  Part II defines the words in which the properties of the
    specification are stated.  Part III proves them. *)

From Stdlib Require Import ZArith Lia List Ascii String Bool.
From stdpp Require Import base option list gmap strings.

(* ================================================================== *)
(** * Part I: the embedding                                            *)
(* ================================================================== *)

(** ** Go strings and byte slices

    A Go [string] is an immutable sequence of bytes: [String.string].
    A [[]byte] is a [list byte].  [len(s)] is the number of bytes. *)

Abbreviation bytes := (list Byte.byte).

Definition len (s : string) : nat := String.length s.

Definition to_bytes (s : string) : bytes := list_byte_of_string s.

Definition byte_val (a : ascii) : N := N_of_ascii a.

(** ** [unicode/utf8] and [unicode] *)

Module Utf8.

Definition RuneError : N := 65533%N.
Definition RuneSelf : N := 128%N.
Definition UTFMax : nat := 4.

Definition in_range (lo hi b : N) : bool := ((lo <=? b) && (b <=? hi))%N.

(** A continuation byte is [10xxxxxx]. *)
Definition is_cont (b : N) : bool := in_range 128 191 b.

(** [utf8.RuneStart]: any byte that is not a continuation byte. *)
Definition RuneStart (a : ascii) : bool := negb (is_cont (byte_val a)).

Definition low6 (b : N) : N := (b mod 64)%N.

(** [utf8.DecodeRuneInString]: the first rune of [s] and its width in
    bytes.  Ill-formed input (a stray continuation byte, an overlong or
    surrogate encoding, a truncated sequence) decodes as ([RuneError], 1);
    the empty string as ([RuneError], 0).  The second-byte ranges are those
    of the [acceptRanges] table of the package. *)
Definition DecodeRuneInString (s : string) : N * nat :=
  match s with
  | EmptyString => (RuneError, 0%nat)
  | String a0 r0 =>
    let b0 := byte_val a0 in
    if (b0 <? RuneSelf)%N then (b0, 1%nat)
    else if in_range 194 223 b0 then
      match r0 with
      | String a1 _ =>
        let b1 := byte_val a1 in
        if is_cont b1 then (((b0 mod 32) * 64 + low6 b1)%N, 2%nat)
        else (RuneError, 1%nat)
      | _ => (RuneError, 1%nat)
      end
    else if in_range 224 239 b0 then
      match r0 with
      | String a1 (String a2 _) =>
        let b1 := byte_val a1 in
        let b2 := byte_val a2 in
        let lo := if (b0 =? 224)%N then 160%N else 128%N in
        let hi := if (b0 =? 237)%N then 159%N else 191%N in
        if in_range lo hi b1 && is_cont b2
        then (((b0 mod 16) * 4096 + low6 b1 * 64 + low6 b2)%N, 3%nat)
        else (RuneError, 1%nat)
      | _ => (RuneError, 1%nat)
      end
    else if in_range 240 244 b0 then
      match r0 with
      | String a1 (String a2 (String a3 _)) =>
        let b1 := byte_val a1 in
        let b2 := byte_val a2 in
        let b3 := byte_val a3 in
        let lo := if (b0 =? 240)%N then 144%N else 128%N in
        let hi := if (b0 =? 244)%N then 143%N else 191%N in
        if in_range lo hi b1 && is_cont b2 && is_cont b3
        then (((b0 mod 8) * 262144 + low6 b1 * 4096 + low6 b2 * 64 + low6 b3)%N,
              4%nat)
        else (RuneError, 1%nat)
      | _ => (RuneError, 1%nat)
      end
    else (RuneError, 1%nat)
  end.

(** The bytes of [s] in reverse order. *)
Fixpoint rev_string (s acc : string) : string :=
  match s with
  | EmptyString => acc
  | String a r => rev_string r (String a acc)
  end.

(** Walk backwards from the byte before the last one, for at most
    [UTFMax - 1] bytes, until a rune start is found: [back] is the string
    read backwards, [acc] the bytes already passed, in forward order. *)
Fixpoint last_rune_bytes (n : nat) (back acc : string) : string :=
  match n, back with
  | S n', String a r =>
    if RuneStart a then String a acc else last_rune_bytes n' r (String a acc)
  | _, _ => acc
  end.

(** [utf8.DecodeLastRuneInString]: the last rune of [s] and its width. *)
Definition DecodeLastRuneInString (s : string) : N * nat :=
  match rev_string s EmptyString with
  | EmptyString => (RuneError, 0%nat)
  | String a back =>
    let b := byte_val a in
    if (b <? RuneSelf)%N then (b, 1%nat)
    else
      let tail := last_rune_bytes (UTFMax - 1) back (String a EmptyString) in
      let '(r, size) := DecodeRuneInString tail in
      if Nat.eqb size (len tail) then (r, size) else (RuneError, 1%nat)
  end.

End Utf8.

Module Unicode.

(** [unicode.IsSpace]: the Latin-1 spaces ['\t' '\n' '\v' '\f' '\r' ' '],
    U+0085, U+00A0, and beyond Latin-1 the [White_Space] table. *)
Definition IsSpace (r : N) : bool :=
  Utf8.in_range 9 13 r || (r =? 32)%N || (r =? 133)%N || (r =? 160)%N
  || (r =? 5760)%N || Utf8.in_range 8192 8202 r || Utf8.in_range 8232 8233 r
  || (r =? 8239)%N || (r =? 8287)%N || (r =? 12288)%N.

End Unicode.

(** ** [strings] *)

Module Strings.

Fixpoint drop (n : nat) (s : string) : string :=
  match n, s with
  | S n', String _ r => drop n' r
  | _, _ => s
  end.

Fixpoint take (n : nat) (s : string) : string :=
  match n, s with
  | S n', String a r => String a (take n' r)
  | _, _ => EmptyString
  end.

(** [strings.TrimLeftFunc(s, f)]: drop leading runes while [f] holds.
    Every round drops at least one byte, so [len s] rounds are enough. *)
Fixpoint TrimLeftFunc_loop (fuel : nat) (f : N -> bool) (s : string) : string :=
  match fuel with
  | O => s
  | S fuel' =>
    let '(r, size) := Utf8.DecodeRuneInString s in
    if Nat.eqb size 0 then s
    else if f r then TrimLeftFunc_loop fuel' f (drop size s) else s
  end.

Definition TrimLeftFunc (s : string) (f : N -> bool) : string :=
  TrimLeftFunc_loop (len s) f s.

(** [strings.TrimRightFunc(s, f)]: drop trailing runes while [f] holds. *)
Fixpoint TrimRightFunc_loop (fuel : nat) (f : N -> bool) (s : string) : string :=
  match fuel with
  | O => s
  | S fuel' =>
    let '(r, size) := Utf8.DecodeLastRuneInString s in
    if Nat.eqb size 0 then s
    else if f r then TrimRightFunc_loop fuel' f (take (len s - size) s) else s
  end.

Definition TrimRightFunc (s : string) (f : N -> bool) : string :=
  TrimRightFunc_loop (len s) f s.

(** [strings.TrimSpace(s)]: [s] without leading and trailing white space,
    as defined by Unicode.  (The library first runs an ASCII-only scan and
    falls back to [TrimFunc]/[TrimRightFunc] at the first non-ASCII byte;
    the result is that of trimming on the left, then on the right.) *)
Definition TrimSpace (s : string) : string :=
  TrimRightFunc (TrimLeftFunc s Unicode.IsSpace) Unicode.IsSpace.

(** [strings.Split(s, sep)] for a one-byte separator: the pieces of [s]
    between occurrences of [sep]; always at least one piece. *)
Fixpoint Split_go (sep : ascii) (s : string) (cur : string) : list string :=
  match s with
  | EmptyString => [Utf8.rev_string cur EmptyString]
  | String a r =>
    if Ascii.eqb a sep then Utf8.rev_string cur EmptyString :: Split_go sep r EmptyString
    else Split_go sep r (String a cur)
  end.

Definition Split (s : string) (sep : ascii) : list string :=
  Split_go sep s EmptyString.

End Strings.

(** ** [regexp]

    The program compiles one pattern, [^\d{4}$].  Regular expressions are
    given by their syntax tree and matched by derivatives, byte by byte
    (every byte accepted by the classes used here is ASCII). *)

Module Regexp.

Inductive re : Type :=
| NoMatch                      (* matches nothing *)
| EmptyMatch                   (* matches the empty string *)
| CharClass (p : ascii -> bool)
| Concat (r1 r2 : re)
| Alternate (r1 r2 : re)
| Star (r : re).

(** [x{n}]: [n] copies of [r]. *)
Fixpoint Repeat (n : nat) (r : re) : re :=
  match n with
  | O => EmptyMatch
  | S n' => Concat r (Repeat n' r)
  end.

(** The Perl class [\d]: the ASCII digits. *)
Definition perl_d (a : ascii) : bool := Utf8.in_range 48 57 (byte_val a).

Fixpoint nullable (r : re) : bool :=
  match r with
  | NoMatch => false
  | EmptyMatch => true
  | CharClass _ => false
  | Concat r1 r2 => nullable r1 && nullable r2
  | Alternate r1 r2 => nullable r1 || nullable r2
  | Star _ => true
  end.

Fixpoint deriv (a : ascii) (r : re) : re :=
  match r with
  | NoMatch => NoMatch
  | EmptyMatch => NoMatch
  | CharClass p => if p a then EmptyMatch else NoMatch
  | Concat r1 r2 =>
    if nullable r1
    then Alternate (Concat (deriv a r1) r2) (deriv a r2)
    else Concat (deriv a r1) r2
  | Alternate r1 r2 => Alternate (deriv a r1) (deriv a r2)
  | Star r1 => Concat (deriv a r1) (Star r1)
  end.

(** Does [r] match the whole of [s]? *)
Fixpoint full_match (r : re) (s : string) : bool :=
  match s with
  | EmptyString => nullable r
  | String a s' => full_match (deriv a r) s'
  end.

(** A compiled pattern of the shape [^body$] (no multi-line flag, so [^]
    and [$] are the two ends of the text). *)
Record Regexp := { anchored_body : re }.

(** [re.MatchString(s)]: with both anchors, a match is a match of the
    whole string. *)
Definition MatchString (r : Regexp) (s : string) : bool :=
  full_match (anchored_body r) s.

End Regexp.

(** ** [fmt] *)

Module Fmt.

(** The decimal digits of [u], written from the right as the package does:
    the last digit of [u] is put in front of [acc], and [u] is divided by
    ten, until one digit is left.  An [int] has no more than twenty
    digits. *)
Definition digit (u : Z) : ascii := ascii_of_N (48 + Z.to_N u).

Fixpoint digits_loop (fuel : nat) (u : Z) (acc : string) : string :=
  match fuel with
  | O => acc
  | S fuel' =>
    if (10 <=? u)%Z then digits_loop fuel' (u / 10) (String (digit (u mod 10)) acc)
    else String (digit u) acc
  end.

Definition digits (u : Z) : string := digits_loop 20 u EmptyString.

Definition sign (z : Z) : string := if (z <? 0)%Z then "-"%string else EmptyString.

(** The verb [%d] on an [int]. *)
Definition d (z : Z) : string := sign z +:+ digits (Z.abs z).

Fixpoint zeros (n : nat) : string :=
  match n with
  | O => EmptyString
  | S n' => String "0" (zeros n')
  end.

(** The verb [%04d]: width four, padded with zeros after the sign. *)
Definition d04 (z : Z) : string :=
  let ds := digits (Z.abs z) in
  sign z +:+ zeros (4 - len (sign z) - len ds) +:+ ds.

(** The verb [%v] on a [[]string]: the elements between brackets,
    separated by spaces. *)
Definition v_strings (l : list string) : string :=
  "[" +:+ String.concat " " l +:+ "]".

End Fmt.

(** ** Errors

    A Go [error] is modelled by the shape the program can observe: the
    errors of [os] are [*fs.PathError]s around a system error number; the
    errors of [bufio] and [encoding/json] are opaque values with a message;
    [fmt.Errorf] with the verb [%v] builds a new error whose message is the
    format's text followed by the message of its argument. *)

Inductive errno : Type :=
| ENOENT | EACCES | EISDIR | EMFILE | ENOSPC | EIO | EBADF.

Inductive error : Type :=
| PathError (op path : string) (e : errno)
| ErrShortWrite
| LibraryError (msg : string)
| ErrorString (msg : string)
| ErrorfV (text : string) (cause : error).

Definition errno_message (e : errno) : string :=
  match e with
  | ENOENT => "no such file or directory"
  | EACCES => "permission denied"
  | EISDIR => "is a directory"
  | EMFILE => "too many open files"
  | ENOSPC => "no space left on device"
  | EIO => "input/output error"
  | EBADF => "bad file descriptor"
  end.

(** The method [Error()]. *)
Fixpoint Error (e : error) : string :=
  match e with
  | PathError op path n => op +:+ " " +:+ path +:+ ": " +:+ errno_message n
  | ErrShortWrite => "short write"
  | LibraryError msg => msg
  | ErrorString msg => msg
  | ErrorfV text cause => text +:+ Error cause
  end.

(** [os.IsNotExist]. *)
Definition IsNotExist (e : error) : bool :=
  match e with
  | PathError _ _ ENOENT => true
  | _ => false
  end.

(** ** The world the program runs in

    The console is the list of lines that the scanner of standard input
    has still to deliver, the token it delivered last, and the list of
    texts printed so far; the file system maps a path to the contents of
    the file, and [open_files] lists the paths of the descriptors that are
    open.  Every system call may fail: an [oracle] says, for the
    [clock]-th call and its arguments, whether it succeeds or with which
    error (and, for a write, after how many bytes).  The clock ticks at
    each call, so an oracle can describe any sequence of failures. *)

Inductive syscall : Type :=
| SysStat (path : string)
| SysOpen (path : string)
| SysCreate (path : string)
| SysRead (path : string)
| SysWrite (path : string) (off n : nat)
| SysClose (path : string).

Record fault := { fault_errno : errno; fault_written : nat }.

Record World := {
  stdin : list string;
  token : string;
  stdout : list string;
  files : gmap string bytes;
  open_files : list string;
  clock : nat;
  oracle : nat -> syscall -> option fault;
}.

(** [emit s w]: the world after [s] is printed. *)
Definition emit (s : string) (w : World) : World :=
  {| stdin := stdin w; token := token w; stdout := stdout w ++ [s]; files := files w;
     open_files := open_files w; clock := clock w; oracle := oracle w |}.

(** [next_line w]: the world after the scanner has advanced: the next line
    is the token; at the end of the input the token is empty. *)
Definition next_line (w : World) : World :=
  {| stdin := tail (stdin w); token := hd EmptyString (stdin w); stdout := stdout w;
     files := files w; open_files := open_files w; clock := clock w; oracle := oracle w |}.

Definition set_files (f : gmap string bytes) (w : World) : World :=
  {| stdin := stdin w; token := token w; stdout := stdout w; files := f;
     open_files := open_files w; clock := clock w; oracle := oracle w |}.

Definition set_open_files (l : list string) (w : World) : World :=
  {| stdin := stdin w; token := token w; stdout := stdout w; files := files w;
     open_files := l; clock := clock w; oracle := oracle w |}.

Definition tick (w : World) : World :=
  {| stdin := stdin w; token := token w; stdout := stdout w; files := files w;
     open_files := open_files w; clock := S (clock w); oracle := oracle w |}.

(** The contents of the file at [path]; nothing when there is no file. *)
Definition contents (path : string) (w : World) : bytes :=
  default [] (files w !! path).

(** ** Computations

    A computation takes a world and gives a result and a new world.  It
    gives [None] only when a loop ran out of the rounds it was given. *)

Definition IO (A : Type) : Type := World -> option (A * World).

Definition ret {A} (a : A) : IO A := fun w => Some (a, w).

Definition bind {A B} (m : IO A) (k : A -> IO B) : IO B :=
  fun w => match m w with
           | Some (a, w') => k a w'
           | None => None
           end.

Definition out_of_fuel {A} : IO A := fun _ => None.

Notation "x <- m ;; k" := (bind m (fun x => k))
  (at level 100, m at next level, right associativity).
Notation "'let*' p := m 'in' k" := (bind m (fun x => match x with p => k end))
  (at level 100, p pattern, m at next level, right associativity).
Notation "m ;;; k" := (bind m (fun _ => k))
  (at level 100, right associativity).

(** One system call: ask the oracle, advance the clock. *)
Definition sys (s : syscall) : IO (option fault) :=
  fun w => Some (oracle w (clock w) s, tick w).

(** *** Console *)

(** [fmt.Print], [fmt.Printf], [fmt.Println] with their text already
    formatted. *)
Definition Print (s : string) : IO unit := fun w => Some (tt, emit s w).

Definition newline : string := String (ascii_of_nat 10) EmptyString.

Definition Println (s : string) : IO unit := Print (s +:+ newline).

(** [scanner.Scan()] on standard input, split in lines: the next line
    becomes the token; at the end of the input there is no token and
    [Scan] reports false. *)
Definition Scan : IO bool :=
  fun w => Some (match stdin w with [] => false | _ :: _ => true end, next_line w).

(** [scanner.Text()]. *)
Definition Text : IO string := fun w => Some (token w, w).

(** *** [os] *)

Module Os.

Record File := { Name : string }.

Definition path_error (op path : string) (f : fault) : error :=
  PathError op path (fault_errno f).

(** [os.Stat(path)], of which the program keeps only the error. *)
Definition Stat (path : string) : IO (option error) :=
  f <- sys (SysStat path) ;;
  fun w =>
    match f with
    | Some x => Some (Some (path_error "stat" path x), w)
    | None =>
      match files w !! path with
      | Some _ => Some (None, w)
      | None => Some (Some (PathError "stat" path ENOENT), w)
      end
    end.

(** [os.Open(path)]: open for reading. *)
Definition Open (path : string) : IO (File + error) :=
  f <- sys (SysOpen path) ;;
  fun w =>
    match f with
    | Some x => Some (inr (path_error "open" path x), w)
    | None =>
      match files w !! path with
      | Some _ => Some (inl {| Name := path |}, set_open_files (path :: open_files w) w)
      | None => Some (inr (PathError "open" path ENOENT), w)
      end
    end.

(** [os.Create(path)]: create the file, or truncate it when it exists. *)
Definition Create (path : string) : IO (File + error) :=
  f <- sys (SysCreate path) ;;
  fun w =>
    match f with
    | Some x => Some (inr (path_error "open" path x), w)
    | None =>
      Some (inl {| Name := path |},
            set_open_files (path :: open_files w) (set_files (<[path := []]> (files w)) w))
    end.

(** Remove one occurrence of [path] from the open files. *)
Fixpoint release (path : string) (l : list string) : list string :=
  match l with
  | [] => []
  | p :: l' => if String.eqb p path then l' else p :: release path l'
  end.

(** [file.Close()]: the descriptor is released even when the call reports
    an error. *)
Definition Close (file : File) : IO (option error) :=
  f <- sys (SysClose (Name file)) ;;
  fun w =>
    Some (path_error "close" (Name file) <$> f,
          set_open_files (release (Name file) (open_files w)) w).

(** [file.Write(p)] and [file.WriteString(s)] on a file that is written
    from its start: the bytes go to the end of the file.  A failing call
    reports how many bytes it wrote before the error. *)
Definition Write (file : File) (p : bytes) : IO (nat * option error) :=
  fun w =>
    let path := Name file in
    let old := contents path w in
    match oracle w (clock w) (SysWrite path (length old) (length p)) with
    | None => Some ((length p, None), set_files (<[path := old ++ p]> (files w)) (tick w))
    | Some x =>
      let n := Nat.min (fault_written x) (length p) in
      Some ((n, Some (path_error "write" path x)),
            set_files (<[path := old ++ take n p]> (files w)) (tick w))
    end.

(** Read a file that was opened to its end, as a reader of the whole file
    does. *)
Definition ReadAll (file : File) : IO (bytes + error) :=
  f <- sys (SysRead (Name file)) ;;
  fun w =>
    match f with
    | Some x => Some (inr (path_error "read" (Name file) x), w)
    | None => Some (inl (contents (Name file) w), w)
    end.

(** [os.WriteFile(path, data, perm)]: create or truncate, write, close. *)
Definition WriteFile (path : string) (data : bytes) : IO (option error) :=
  c <- Create path ;;
  match c with
  | inr err => ret (Some err)
  | inl f =>
    let* (_, err) := Write f data in
    err1 <- Close f ;;
    ret (match err with Some _ => err | None => err1 end)
  end.

End Os.

(** *** [bufio.Writer] *)

Module Bufio.

Definition defaultBufSize : nat := 4096.

(** The writer's buffer [buf[0:n]], its sticky error and the file below. *)
Record Writer := { buf : bytes; err : option error; wr : Os.File }.

Definition NewWriter (f : Os.File) : Writer :=
  {| buf := []; err := None; wr := f |}.

Definition Available (b : Writer) : nat := defaultBufSize - length (buf b).
Definition Buffered (b : Writer) : nat := length (buf b).

(** [b.Flush()]: once an error has occurred every later call returns it
    and writes nothing.  After a failed write the bytes that were not
    written stay in the buffer. *)
Definition Flush (b : Writer) : IO (option error * Writer) :=
  match err b with
  | Some e => ret (Some e, b)
  | None =>
    if Nat.eqb (Buffered b) 0 then ret (None, b)
    else
      let* (n, e) := Os.Write (wr b) (buf b) in
      let e := match e with
               | None => if (n <? Buffered b)%nat then Some ErrShortWrite else None
               | Some _ => e
               end in
      match e with
      | Some e' => ret (Some e', {| buf := drop n (buf b); err := Some e'; wr := wr b |})
      | None => ret (None, {| buf := []; err := None; wr := wr b |})
      end
  end.

(** The loop of [b.WriteString(s)]: while [s] does not fit in the room
    left and no error has occurred, either hand [s] to the file directly
    (the buffer is empty and [*os.File] is an [io.StringWriter]) or fill the
    buffer and flush it.  [nn] counts the bytes accepted. *)
Fixpoint WriteString_loop (fuel : nat) (b : Writer) (s : bytes) (nn : nat)
  : IO (Writer * bytes * nat) :=
  if (Available b <? length s)%nat && bool_decide (err b = None) then
    match fuel with
    | O => out_of_fuel
    | S fuel' =>
      if Nat.eqb (Buffered b) 0 then
        let* (n, e) := Os.Write (wr b) s in
        WriteString_loop fuel' {| buf := buf b; err := e; wr := wr b |} (drop n s) (nn + n)
      else
        let n := Nat.min (length s) (Available b) in
        let* (_, b') := Flush {| buf := buf b ++ take n s; err := err b; wr := wr b |} in
        WriteString_loop fuel' b' (drop n s) (nn + n)
    end
  else ret (b, s, nn).

(** [b.WriteString(s)].  The loop runs at most twice (after one flush the
    buffer is empty, and what is left of [s] then fits or goes to the file
    directly); it is given [len(s) + 2] rounds. *)
Definition WriteString (b : Writer) (s : string) : IO ((nat * option error) * Writer) :=
  let* (b', s', nn) := WriteString_loop (len s + 2) b (to_bytes s) 0 in
  match err b' with
  | Some e => ret ((nn, Some e), b')
  | None =>
    let n := Nat.min (length s') (Available b') in
    ret ((nn + n, None), {| buf := buf b' ++ take n s'; err := None; wr := wr b' |})
  end.

End Bufio.

(** *** [encoding/json]

    The program encodes and decodes one type, [Config].  The codec is a
    parameter of the embedding: [MarshalIndent] gives the bytes of the
    encoding or an error, [Decode] fills a zero [Config] from the bytes of
    a file and gives the error of the decoder, if any. *)

Record Config := { MiddleCodes : list string }.

Class JSON := {
  MarshalIndent : Config -> string -> string -> bytes + error;
  Decode : bytes -> Config * option error;
}.

(** [json.NewDecoder(file).Decode(&config)]: an error of the reader is the
    error of the decoder. *)
Definition Decoder_Decode `{JSON} (file : Os.File) (config : Config)
  : IO (Config * option error) :=
  r <- Os.ReadAll file ;;
  match r with
  | inr e => ret (config, Some e)
  | inl data => ret (Decode data)
  end.

(** *** The machine's [int]

    The build script compiles the program for targets whose [int] has 32
    bits ([arm], [386]) and for targets whose [int] has 64 ([arm64],
    [amd64]). *)

Inductive Arch : Type := Int32 | Int64.
Existing Class Arch.

Definition intSize `{a : Arch} : Z :=
  match a with Int32 => 32%Z | Int64 => 64%Z end.

(** Signed wrap-around at [intSize] bits. *)
Definition wrap `{Arch} (z : Z) : Z :=
  ((z + 2 ^ (intSize - 1)) mod 2 ^ intSize - 2 ^ (intSize - 1))%Z.

(** ** [main.go] *)

(** The package variables [crawledMobile], [crawledUnicom] and
    [crawledTelecom], as [initDefaultSegments] sets them.  [main] calls it
    once, before anything else, and nothing else assigns them. *)
Definition crawledMobile : list string :=
  ["134"; "135"; "136"; "137"; "138"; "139"; "147"; "150"; "151"; "152";
   "157"; "158"; "159"; "178"; "182"; "183"; "184"; "187"; "188"; "198"]%string.

Definition crawledUnicom : list string :=
  ["130"; "131"; "132"; "145"; "155"; "156"; "166"; "175"; "176"; "185"; "186"]%string.

Definition crawledTelecom : list string :=
  ["133"; "149"; "153"; "173"; "177"; "180"; "181"; "189"; "199"]%string.

(** [regexp.MustCompile(`^\d{4}$`)]. *)
Definition validRegex : Regexp.Regexp :=
  {| Regexp.anchored_body := Regexp.Repeat 4 (Regexp.CharClass Regexp.perl_d) |}.

Definition configPath : string := "config.json".

(** The loop of [loadConfig] over [config.MiddleCodes]: keep the codes
    that match, warn about the others. *)
Fixpoint loadConfig_filter (codes validCodes : list string) : IO (list string) :=
  match codes with
  | [] => ret validCodes
  | code :: rest =>
    if Regexp.MatchString validRegex code then
      loadConfig_filter rest (validCodes ++ [code])
    else
      Print ("Warning: Invalid middle code " +:+ code +:+ " in " +:+ configPath
             +:+ " (must be 4-digit number), skipped" +:+ newline) ;;;
      loadConfig_filter rest validCodes
  end.

Definition defaultConfig : Config :=
  {| MiddleCodes := ["0537"; "0100"; "0210"; "0755"]%string |}.

Definition loadConfig `{JSON} : IO (Config * option error) :=
  let config := {| MiddleCodes := [] |} in
  st <- Os.Stat configPath ;;
  match st with
  | Some err =>
    if IsNotExist err then
      Print (configPath +:+ " not found, creating automatically..." +:+ newline) ;;;
      match MarshalIndent defaultConfig "" "  " with
      | inr err => ret (config, Some (ErrorfV "failed to generate default config: " err))
      | inl jsonData =>
        e <- Os.WriteFile configPath jsonData ;;
        match e with
        | Some err =>
          ret (config, Some (ErrorfV ("failed to create " +:+ configPath +:+ ": ") err))
        | None =>
          Print ("✅ " +:+ configPath +:+ " created successfully, sample middle codes: "
                 +:+ Fmt.v_strings (MiddleCodes defaultConfig) +:+ newline) ;;;
          Println "Note: You can edit this file directly to modify the middleCodes list (must be 4-digit numbers)" ;;;
          ret (defaultConfig, None)
        end
      end
    else
      ret (config, Some (ErrorfV ("failed to check " +:+ configPath +:+ " status: ") err))
  | None =>
    o <- Os.Open configPath ;;
    match o with
    | inr err => ret (config, Some (ErrorfV ("failed to open " +:+ configPath +:+ ": ") err))
    | inl file =>
      (* defer file.Close() *)
      result <-
        (let* (config, e) := Decoder_Decode file config in
         match e with
         | Some err =>
           ret (config, Some (ErrorfV ("failed to parse " +:+ configPath
                                       +:+ " format (check commas and quotes): ") err))
         | None =>
           validCodes <- loadConfig_filter (MiddleCodes config) [] ;;
           ret ({| MiddleCodes := validCodes |}, None)
         end) ;;
      Os.Close file ;;;
      ret result
    end
  end.

(** The loop of [inputMiddleCodes] over [rawCodes]; [seen[code]] of a
    missing key is false. *)
Fixpoint inputMiddleCodes_loop (rawCodes validCodes : list string) (seen : gmap string bool)
  : list string * gmap string bool :=
  match rawCodes with
  | [] => (validCodes, seen)
  | code :: rest =>
    let code := Strings.TrimSpace code in
    if Regexp.MatchString validRegex code && negb (default false (seen !! code)) then
      inputMiddleCodes_loop rest (validCodes ++ [code]) (<[code := true]> seen)
    else
      inputMiddleCodes_loop rest validCodes seen
  end.

Definition inputMiddleCodes : IO (list string * option error) :=
  Print "Enter multiple 4-digit middle codes (separate with commas, e.g., 0537,0100,0210): " ;;;
  Scan ;;;
  t <- Text ;;
  let input := Strings.TrimSpace t in
  if String.eqb input "" then
    ret ([], Some (ErrorString "input cannot be empty"))
  else
    let rawCodes := Strings.Split input "," in
    let '(validCodes, _) := inputMiddleCodes_loop rawCodes [] ∅ in
    if Nat.eqb (length validCodes) 0 then
      ret ([], Some (ErrorString "no valid middle codes detected (must enter 4-digit numbers separated by commas)"))
    else
      ret (validCodes, None).

(** One round of the loop of [selectMiddleCodes]: either the function
    returns, or the loop goes round again. *)
Inductive round (A : Type) : Type :=
| Return (a : A)
| Again.
Arguments Return {A} a.
Arguments Again {A}.

Definition selectMiddleCodes_round `{JSON} : IO (round (list string * option error)) :=
  Print "Enter option (1/2): " ;;;
  Scan ;;;
  t <- Text ;;
  let choice := Strings.TrimSpace t in
  if String.eqb choice "1" then
    let* (config, e) := loadConfig in
    match e with
    | Some err =>
      Print ("Config file processing failed: " +:+ Error err +:+ newline) ;;;
      ret Again
    | None =>
      let middleCodes := MiddleCodes config in
      middleCodes <-
        (if Nat.eqb (length middleCodes) 0 then
           Println "Warning: middleCodes in config.json is empty, using default middle code [0537]" ;;;
           ret ["0537"%string]
         else ret middleCodes) ;;
      Print ("Successfully read " +:+ Fmt.d (Z.of_nat (length middleCodes))
             +:+ " 4-digit middle codes from config file: "
             +:+ Fmt.v_strings middleCodes +:+ newline) ;;;
      ret (Return (middleCodes, None))
    end
  else if String.eqb choice "2" then
    let* (middleCodes, e) := inputMiddleCodes in
    match e with
    | Some err =>
      Print ("Input error: " +:+ Error err +:+ newline) ;;;
      ret Again
    | None =>
      Print ("Manual input successful, total " +:+ Fmt.d (Z.of_nat (length middleCodes))
             +:+ " 4-digit middle codes: " +:+ Fmt.v_strings middleCodes +:+ newline) ;;;
      ret (Return (middleCodes, None))
    end
  else
    Println "Invalid option, please enter 1 or 2" ;;;
    ret Again.

(** The loop [for { ... }] of [selectMiddleCodes], for at most [fuel]
    rounds. *)
Fixpoint selectMiddleCodes_loop `{JSON} (fuel : nat) : IO (list string * option error) :=
  match fuel with
  | O => out_of_fuel
  | S fuel' =>
    r <- selectMiddleCodes_round ;;
    match r with
    | Return a => ret a
    | Again => selectMiddleCodes_loop fuel'
    end
  end.

Definition selectMiddleCodes `{JSON} (fuel : nat) : IO (list string * option error) :=
  Println (newline +:+ "Please select 4-digit middle code input method:") ;;;
  Println "1. Read from config.json (file will be auto-created if it doesn't exist)" ;;;
  Println "2. Manual input via command line (separate multiple codes with commas, e.g., 0537,0100,0210)" ;;;
  selectMiddleCodes_loop fuel.

Definition askToContinue_round : IO (round bool) :=
  Print (newline +:+ "Exit program? (y/n, 'n' to reselect middle code input method): ") ;;;
  Scan ;;;
  t <- Text ;;
  let quitChoice := Strings.TrimSpace t in
  if String.eqb quitChoice "y" || String.eqb quitChoice "Y" then ret (Return false)
  else if String.eqb quitChoice "n" || String.eqb quitChoice "N" then ret (Return true)
  else Println "Invalid input, please enter y or n" ;;; ret Again.

Fixpoint askToContinue (fuel : nat) : IO bool :=
  match fuel with
  | O => out_of_fuel
  | S fuel' =>
    r <- askToContinue_round ;;
    match r with
    | Return a => ret a
    | Again => askToContinue fuel'
    end
  end.

(** The local variables of [generatePhoneNumbers] that its loops change. *)
Record GenState := { writer : Bufio.Writer; generatedCount : Z }.

(** The body of the innermost loop once [phone] is built: write the line;
    on an error return it; count; every 10000 numbers flush (the result of
    this [Flush] is dropped) and report progress. *)
Definition write_number `{Arch} (totalNumbers : Z) (phone : string) (st : GenState)
  : IO (option error * GenState) :=
  let* (r, b) := Bufio.WriteString (writer st) (phone +:+ newline) in
  match snd r with
  | Some err =>
    ret (Some (ErrorfV "failed to write to file: " err),
         {| writer := b; generatedCount := generatedCount st |})
  | None =>
    let count := wrap (generatedCount st + 1) in
    if (Z.rem count 10000 =? 0)%Z then
      let* (_, b') := Bufio.Flush b in
      Print ("Generated: " +:+ Fmt.d count +:+ " / " +:+ Fmt.d totalNumbers +:+ newline) ;;;
      ret (None, {| writer := b'; generatedCount := count |})
    else
      ret (None, {| writer := b; generatedCount := count |})
  end.

(** [for suffix := 0; suffix < 10000; suffix++ { ... }], from [suffix]
    on, for at most [fuel] rounds. *)
Fixpoint suffix_loop `{Arch} (fuel : nat) (totalNumbers : Z) (seg middle : string)
    (suffix : Z) (st : GenState) : IO (option error * GenState) :=
  if (suffix <? 10000)%Z then
    match fuel with
    | O => out_of_fuel
    | S fuel' =>
      let suffixStr := Fmt.d04 suffix in
      let phone := seg +:+ middle +:+ suffixStr in
      let* (e, st') := write_number totalNumbers phone st in
      match e with
      | Some _ => ret (e, st')
      | None => suffix_loop fuel' totalNumbers seg middle (wrap (suffix + 1)) st'
      end
    end
  else ret (None, st).

(** [for _, middle := range middleCodes { ... }]. *)
Fixpoint middle_loop `{Arch} (totalNumbers : Z) (seg : string) (middleCodes : list string)
    (st : GenState) : IO (option error * GenState) :=
  match middleCodes with
  | [] => ret (None, st)
  | middle :: rest =>
    let* (e, st') := suffix_loop (Z.to_nat 10000) totalNumbers seg middle 0%Z st in
    match e with
    | Some _ => ret (e, st')
    | None => middle_loop totalNumbers seg rest st'
    end
  end.

(** [for _, seg := range allSegments { ... }]. *)
Fixpoint segment_loop `{Arch} (totalNumbers : Z) (allSegments middleCodes : list string)
    (st : GenState) : IO (option error * GenState) :=
  match allSegments with
  | [] => ret (None, st)
  | seg :: rest =>
    let* (e, st') := middle_loop totalNumbers seg middleCodes st in
    match e with
    | Some _ => ret (e, st')
    | None => segment_loop totalNumbers rest middleCodes st'
    end
  end.

Definition outputPath : string := "phonedict.txt".

(** The local variable [allSegments]:
    [append(append(crawledMobile, crawledUnicom...), crawledTelecom...)]. *)
Definition allSegments : list string := (crawledMobile ++ crawledUnicom) ++ crawledTelecom.

Definition generatePhoneNumbers `{Arch} (middleCodes : list string) : IO (option error) :=
  c <- Os.Create outputPath ;;
  match c with
  | inr err => ret (Some (ErrorfV "failed to create file: " err))
  | inl file =>
    (* defer file.Close() *)
    let writer0 := Bufio.NewWriter file in
    (* defer writer.Flush() *)
    let totalSegments := Z.of_nat (length allSegments) in
    let totalMiddle := Z.of_nat (length middleCodes) in
    let totalNumbers := wrap (wrap (totalSegments * totalMiddle) * 10000) in
    Print (newline +:+ "📱 Starting phone number generation:" +:+ newline) ;;;
    Print ("Total prefixes: " +:+ Fmt.d totalSegments +:+ " | Total middle codes: "
           +:+ Fmt.d totalMiddle +:+ " | Suffix range per combination: 0000-9999" +:+ newline) ;;;
    Print ("Estimated total numbers to generate: " +:+ Fmt.d totalNumbers +:+ newline) ;;;
    let* (e, st) := segment_loop totalNumbers allSegments middleCodes
                      {| writer := writer0; generatedCount := 0 |} in
    result <-
      match e with
      | Some _ => ret e
      | None =>
        Print ("✅ Generation completed! Actual total numbers generated: "
               +:+ Fmt.d (generatedCount st) +:+ newline) ;;;
        ret None
      end ;;
    (* the deferred calls, last first; their results are dropped *)
    Bufio.Flush (writer st) ;;;
    Os.Close file ;;;
    ret result
  end.

(** The loop of [main], for at most [fuel] rounds, each inner loop being
    given [fuel] rounds too.  The result is the world at exit. *)
Fixpoint main_loop `{JSON} `{Arch} (fuel : nat) : IO unit :=
  match fuel with
  | O => out_of_fuel
  | S fuel' =>
    let* (middleCodes, e) := selectMiddleCodes fuel in
    match e with
    | Some err =>
      Print ("Failed to get middle codes: " +:+ Error err +:+ newline) ;;;
      main_loop fuel'
    | None =>
      e <- generatePhoneNumbers middleCodes ;;
      match e with
       | Some err => Print ("Phone number generation failed: " +:+ Error err +:+ newline)
       | None => Println (newline +:+ "✅ Phone numbers have been successfully exported to phonedict.txt")
       end ;;;
      again <- askToContinue fuel ;;
      if negb again then Println "Exiting program..."
      else
        Println "-------------------------- Restart --------------------------" ;;;
        main_loop fuel'
    end
  end.

Definition main `{JSON} `{Arch} (fuel : nat) : IO unit :=
  (* initDefaultSegments() *)
  Print ("Loaded built-in operator prefixes:" +:+ newline) ;;;
  Print ("China Mobile: " +:+ Fmt.d (Z.of_nat (length crawledMobile))
         +:+ " | China Unicom: " +:+ Fmt.d (Z.of_nat (length crawledUnicom))
         +:+ " | China Telecom: " +:+ Fmt.d (Z.of_nat (length crawledTelecom)) +:+ newline) ;;;
  main_loop fuel.

(** ** A reference JSON codec

    The properties below hold for every codec.  To run the embedding on
    concrete files, [RefJSON] gives one: an encoder that lays a [Config]
    out the way [json.MarshalIndent] does, and a recursive-descent decoder
    for JSON texts that fills a [Config] by the rules of the decoder of
    [encoding/json] (the member named [middleCodes], compared without
    regard to ASCII case, must be null or an array whose elements are
    strings or null; other members are skipped; input after the first value
    is not read). *)

Module RefJSON.

#[warnings="-register-all"]
Inductive value : Type :=
| Null
| Bool (b : bool)
| Number (text : string)
| Str (s : string)
| Array (l : list value)
| Object (l : list (string * value)).

Definition dquote : string := String (ascii_of_nat 34) EmptyString.

Definition hex_digit (n : N) : ascii :=
  ascii_of_N (if (n <? 10)%N then 48 + n else 87 + n).

Definition u_escape (r : N) : string :=
  "\u" +:+ String (hex_digit (r / 4096 mod 16)) (String (hex_digit (r / 256 mod 16))
            (String (hex_digit (r / 16 mod 16)) (String (hex_digit (r mod 16)) EmptyString))).

(** The body of a JSON string for [s], with the escapes of the encoder. *)
Fixpoint escape (fuel : nat) (s : string) : string :=
  match fuel, s with
  | S fuel', String a _ =>
    let '(r, size) := Utf8.DecodeRuneInString s in
    let rest := escape fuel' (Strings.drop size s) in
    let b := byte_val a in
    (if (b =? 34)%N then String "\" dquote
     else if (b =? 92)%N then "\\"
     else if (b =? 8)%N then "\b"
     else if (b =? 12)%N then "\f"
     else if (b =? 10)%N then "\n"
     else if (b =? 13)%N then "\r"
     else if (b =? 9)%N then "\t"
     else if (b <? 32)%N || (b =? 60)%N || (b =? 62)%N || (b =? 38)%N then u_escape b
     else if (b <? 128)%N then String a EmptyString
     else if (r =? Utf8.RuneError)%N && Nat.eqb size 1 then "\ufffd"
     else if (r =? 8232)%N || (r =? 8233)%N then u_escape r
     else Strings.take size s) +:+ rest
  | _, _ => EmptyString
  end.

Definition quote (s : string) : string := dquote +:+ escape (len s) s +:+ dquote.

Definition marshal_indent (c : Config) (prefix indent : string) : string :=
  let nl := newline +:+ prefix in
  match MiddleCodes c with
  | [] => "{" +:+ nl +:+ indent +:+ quote "middleCodes" +:+ ": []" +:+ nl +:+ "}"
  | codes =>
    "{" +:+ nl +:+ indent +:+ quote "middleCodes" +:+ ": ["
    +:+ nl +:+ indent +:+ indent
    +:+ String.concat ("," +:+ nl +:+ indent +:+ indent) (map quote codes)
    +:+ nl +:+ indent +:+ "]" +:+ nl +:+ "}"
  end.

Definition is_ws (a : ascii) : bool :=
  let b := byte_val a in (b =? 32)%N || (b =? 9)%N || (b =? 10)%N || (b =? 13)%N.

Fixpoint skip_ws (s : string) : string :=
  match s with
  | String a r => if is_ws a then skip_ws r else s
  | EmptyString => s
  end.

Definition hex_val (a : ascii) : option N :=
  let b := byte_val a in
  if Utf8.in_range 48 57 b then Some (b - 48)%N
  else if Utf8.in_range 97 102 b then Some (b - 87)%N
  else if Utf8.in_range 65 70 b then Some (b - 55)%N
  else None.

(** The UTF-8 encoding of a code point of the basic plane (a surrogate
    is replaced by U+FFFD). *)
Definition encode_rune (r : N) : string :=
  let r := if Utf8.in_range 55296 57343 r then Utf8.RuneError else r in
  if (r <? 128)%N then String (ascii_of_N r) EmptyString
  else if (r <? 2048)%N then
    String (ascii_of_N (192 + r / 64)) (String (ascii_of_N (128 + r mod 64)) EmptyString)
  else
    String (ascii_of_N (224 + r / 4096))
      (String (ascii_of_N (128 + r / 64 mod 64))
         (String (ascii_of_N (128 + r mod 64)) EmptyString)).

(** The rest of a string after its opening quote: the decoded string and
    the input after the closing quote. *)
Fixpoint read_string (s : string) (acc : string) : option (string * string) :=
  match s with
  | EmptyString => None
  | String a r =>
    let b := byte_val a in
    if (b =? 34)%N then Some (Utf8.rev_string acc EmptyString, r)
    else if (b <? 32)%N then None
    else if (b =? 92)%N then
      match r with
      | String e r' =>
        let simple (c : N) := read_string r' (String (ascii_of_N c) acc) in
        match byte_val e with
        | 34%N => simple 34%N
        | 92%N => simple 92%N
        | 47%N => simple 47%N
        | 98%N => simple 8%N
        | 102%N => simple 12%N
        | 110%N => simple 10%N
        | 114%N => simple 13%N
        | 116%N => simple 9%N
        | 117%N =>
          match r' with
          | String h1 (String h2 (String h3 (String h4 r''))) =>
            match hex_val h1, hex_val h2, hex_val h3, hex_val h4 with
            | Some d1, Some d2, Some d3, Some d4 =>
              read_string r''
                (Utf8.rev_string (encode_rune (d1 * 4096 + d2 * 256 + d3 * 16 + d4)) acc)
            | _, _, _, _ => None
            end
          | _ => None
          end
        | _ => None
        end
      | EmptyString => None
      end
    else read_string r (String a acc)
  end.

Definition is_digit (a : ascii) : bool := Utf8.in_range 48 57 (byte_val a).

Fixpoint read_digits (s : string) (acc : string) : string * string :=
  match s with
  | String a r => if is_digit a then read_digits r (String a acc) else (acc, s)
  | EmptyString => (acc, s)
  end.

(** A number: an optional minus sign; zero, or digits that do not start
    with zero; an optional fraction; an optional exponent. *)
Definition read_number (s : string) : option (string * string) :=
  let '(sign, s1) := match s with
                     | String "-" r => ("-"%string, r)
                     | _ => (EmptyString, s)
                     end in
  let '(int, s2) := read_digits s1 EmptyString in
  let int := Utf8.rev_string int EmptyString in
  let int_ok := match int with
                | EmptyString => false
                | String "0" (String _ _) => false
                | _ => true
                end in
  let '(frac, s3, frac_ok) :=
    match s2 with
    | String "." r =>
      let '(f, r') := read_digits r EmptyString in
      ("." +:+ Utf8.rev_string f EmptyString, r', negb (String.eqb f EmptyString))
    | _ => (EmptyString, s2, true)
    end in
  let '(exp, s4, exp_ok) :=
    match s3 with
    | String e r =>
      if Ascii.eqb e "e" || Ascii.eqb e "E" then
        let '(sg, r1) := match r with
                         | String "+" r1 => ("+"%string, r1)
                         | String "-" r1 => ("-"%string, r1)
                         | _ => (EmptyString, r)
                         end in
        let '(x, r2) := read_digits r1 EmptyString in
        (String e sg +:+ Utf8.rev_string x EmptyString, r2, negb (String.eqb x EmptyString))
      else (EmptyString, s3, true)
    | EmptyString => (EmptyString, s3, true)
    end in
  if int_ok && frac_ok && exp_ok then Some (sign +:+ int +:+ frac +:+ exp, s4) else None.

Definition expect (lit : string) (v : value) (s : string) : option (value * string) :=
  if String.prefix lit s then Some (v, Strings.drop (len lit) s) else None.

(** One value, then the elements of an array after its first, and the
    members of an object after its first: each call uses one unit of
    [fuel], and a text of [n] bytes needs no more than [n + 1]. *)
Fixpoint read_value (fuel : nat) (s : string) : option (value * string) :=
  match fuel with
  | O => None
  | S fuel' =>
    match skip_ws s with
    | EmptyString => None
    | String a r =>
      let b := byte_val a in
      if (b =? 34)%N then
        match read_string r EmptyString with
        | Some (str, r') => Some (Str str, r')
        | None => None
        end
      else if (b =? 110)%N then expect "null" Null (String a r)
      else if (b =? 116)%N then expect "true" (Bool true) (String a r)
      else if (b =? 102)%N then expect "false" (Bool false) (String a r)
      else if (b =? 91)%N then
        match skip_ws r with
        | String "]" r' => Some (Array [], r')
        | _ =>
          match read_value fuel' r with
          | Some (v, r') => read_elements fuel' r' [v]
          | None => None
          end
        end
      else if (b =? 123)%N then
        match skip_ws r with
        | String "}" r' => Some (Object [], r')
        | _ =>
          match read_member fuel' r with
          | Some (m, r') => read_members fuel' r' [m]
          | None => None
          end
        end
      else
        match read_number (String a r) with
        | Some (n, r') => Some (Number n, r')
        | None => None
        end
    end
  end
with read_elements (fuel : nat) (s : string) (acc : list value) : option (value * string) :=
  match fuel with
  | O => None
  | S fuel' =>
    match skip_ws s with
    | String "]" r => Some (Array (rev acc), r)
    | String "," r =>
      match read_value fuel' r with
      | Some (v, r') => read_elements fuel' r' (v :: acc)
      | None => None
      end
    | _ => None
    end
  end
with read_member (fuel : nat) (s : string) : option ((string * value) * string) :=
  match fuel with
  | O => None
  | S fuel' =>
    match skip_ws s with
    | String a r =>
      if (byte_val a =? 34)%N then
        match read_string r EmptyString with
        | Some (key, r') =>
          match skip_ws r' with
          | String ":" r'' =>
            match read_value fuel' r'' with
            | Some (v, r3) => Some ((key, v), r3)
            | None => None
            end
          | _ => None
          end
        | None => None
        end
      else None
    | EmptyString => None
    end
  end
with read_members (fuel : nat) (s : string) (acc : list (string * value))
  : option (value * string) :=
  match fuel with
  | O => None
  | S fuel' =>
    match skip_ws s with
    | String "}" r => Some (Object (rev acc), r)
    | String "," r =>
      match read_member fuel' r with
      | Some (m, r') => read_members fuel' r' (m :: acc)
      | None => None
      end
    | _ => None
    end
  end.

Definition lower (a : ascii) : ascii :=
  let b := byte_val a in if Utf8.in_range 65 90 b then ascii_of_N (b + 32) else a.

Fixpoint fold_case (s : string) : string :=
  match s with
  | String a r => String (lower a) (fold_case r)
  | EmptyString => EmptyString
  end.

Definition type_error (what : string) : error :=
  LibraryError ("json: cannot unmarshal " +:+ what
                +:+ " into Go struct field Config.middleCodes of type string").

Definition kind (v : value) : string :=
  match v with
  | Null => "null" | Bool _ => "bool" | Number _ => "number"
  | Str _ => "string" | Array _ => "array" | Object _ => "object"
  end.

Definition first_error (e1 e2 : option error) : option error :=
  match e1 with Some _ => e1 | None => e2 end.

(** Fill a slice of strings from the elements of an array: a string sets
    its element, a null leaves it as it was, anything else is an error that
    is reported once decoding is over. *)
Fixpoint fill (i : nat) (old : list string) (l : list value) : list string * option error :=
  match l with
  | [] => ([], None)
  | v :: l' =>
    let '(rest, e) := fill (S i) old l' in
    match v with
    | Str s => (s :: rest, e)
    | Null => (nth i old EmptyString :: rest, e)
    | _ => (nth i old EmptyString :: rest, first_error (Some (type_error (kind v))) e)
    end
  end.

Fixpoint fill_config (members : list (string * value)) (c : Config) (e : option error)
  : Config * option error :=
  match members with
  | [] => (c, e)
  | (key, v) :: rest =>
    if String.eqb (fold_case key) (fold_case "middleCodes") then
      match v with
      | Null => fill_config rest c e
      | Array l =>
        let '(codes, e') := fill 0 (MiddleCodes c) l in
        fill_config rest {| MiddleCodes := codes |} (first_error e e')
      | _ =>
        fill_config rest c
          (first_error e (Some (LibraryError
             ("json: cannot unmarshal " +:+ kind v
              +:+ " into Go struct field Config.middleCodes of type []string"))))
      end
    else fill_config rest c e
  end.

Definition decode (data : bytes) : Config * option error :=
  let zero := {| MiddleCodes := [] |} in
  let s := string_of_list_byte data in
  match skip_ws s with
  | EmptyString => (zero, Some (LibraryError "EOF"))
  | _ =>
    match read_value (S (len s)) s with
    | None => (zero, Some (LibraryError "invalid character or unexpected end of JSON input"))
    | Some (Object members, _) => fill_config members zero None
    | Some (Null, _) => (zero, None)
    | Some (v, _) =>
      (zero, Some (LibraryError ("json: cannot unmarshal " +:+ kind v
                                 +:+ " into Go value of type main.Config")))
    end
  end.

Definition codec : JSON :=
  {| MarshalIndent := fun c prefix indent => inl (to_bytes (marshal_indent c prefix indent));
     Decode := decode |}.

End RefJSON.

(* ================================================================== *)
(** * Part II: the vocabulary of the properties                        *)
(* ================================================================== *)

(** ** Middle codes *)

(** A string of exactly four ASCII digits: what [^\d{4}$] matches. *)
Definition four_digits (s : string) : bool :=
  match s with
  | String a (String b (String c (String d EmptyString))) =>
    Regexp.perl_d a && Regexp.perl_d b && Regexp.perl_d c && Regexp.perl_d d
  | _ => false
  end.

Definition valid_code (s : string) : Prop := four_digits s = true.

Fixpoint all_digits (s : string) : bool :=
  match s with
  | EmptyString => true
  | String a r => Regexp.perl_d a && all_digits r
  end.

(** [l] without its repetitions: each element stays where it occurs
    first. *)
Fixpoint first_seen (l : list string) : list string :=
  match l with
  | [] => []
  | x :: l' => x :: filter (fun y => y <> x) (first_seen l')
  end.

(** The codes of a line of manual input, already trimmed: split on
    commas, trim each piece, keep the valid ones, drop repetitions. *)
Definition manual_codes (input : string) : list string :=
  first_seen (filter valid_code (map Strings.TrimSpace (Strings.Split input ","))).

(** The errors of the specification's taxonomy, as [main.go] builds
    them. *)
Definition EmptyInputError : error := ErrorString "input cannot be empty".

Definition NoValidCodesError : error :=
  ErrorString "no valid middle codes detected (must enter 4-digit numbers separated by commas)".

Definition ConfigParseError (cause : error) : error :=
  ErrorfV ("failed to parse " +:+ configPath +:+ " format (check commas and quotes): ") cause.

(** What manual entry answers to a line of input. *)
Definition manual_result (line : string) : list string * option error :=
  let input := Strings.TrimSpace line in
  if String.eqb input "" then ([], Some EmptyInputError)
  else match manual_codes input with
       | [] => ([], Some NoValidCodesError)
       | codes => (codes, None)
       end.

(** The codes the driver takes from a configuration: its valid codes, or
    the single default code when there is none. *)
Definition config_codes_or_default (codes : list string) : list string :=
  match codes with [] => ["0537"%string] | _ => codes end.

(** ** Console texts *)

Definition option_prompt : string := "Enter option (1/2): ".

Definition manual_prompt : string :=
  "Enter multiple 4-digit middle codes (separate with commas, e.g., 0537,0100,0210): ".

Definition invalid_code_warning (code : string) : string :=
  "Warning: Invalid middle code " +:+ code +:+ " in " +:+ configPath
  +:+ " (must be 4-digit number), skipped" +:+ newline.

Definition stdout_of_created_config : list string :=
  [configPath +:+ " not found, creating automatically..." +:+ newline;
   "✅ " +:+ configPath +:+ " created successfully, sample middle codes: "
     +:+ Fmt.v_strings (MiddleCodes defaultConfig) +:+ newline;
   "Note: You can edit this file directly to modify the middleCodes list (must be 4-digit numbers)"
     +:+ newline].

(** The world after the texts [msgs] are printed, in order. *)
Definition emits (msgs : list string) (w : World) : World :=
  fold_left (fun w s => emit s w) msgs w.

(** [w'] is [w] with [msgs] printed: same files, same open files, same
    oracle. *)
Record Console (msgs : list string) (w w' : World) : Prop := {
  console_stdout : stdout w' = stdout w ++ msgs;
  console_files : files w' = files w;
  console_open : open_files w' = open_files w;
  console_oracle : oracle w' = oracle w;
}.

(** ** Generated numbers *)

(** The line of the triple ([seg], [middle], [suffix]), as the innermost
    loop builds it. *)
Definition number (seg middle : string) (suffix : Z) : string :=
  seg +:+ middle +:+ Fmt.d04 suffix.

(** All the numbers, in the order of the three nested loops. *)
Definition numbers (segs middles : list string) : list string :=
  flat_map (fun seg =>
    flat_map (fun middle => map (number seg middle) (seqZ 0 10000)) middles) segs.

Definition digit_char (d : Z) : ascii := ascii_of_N (48 + Z.to_N d).

(** [n] in four decimal digits, with leading zeros. *)
Definition pad4 (n : Z) : string :=
  String (digit_char (n / 1000 mod 10)) (String (digit_char (n / 100 mod 10))
    (String (digit_char (n / 10 mod 10)) (String (digit_char (n mod 10)) EmptyString))).

Definition digit_val (a : ascii) : Z := Z.of_N (byte_val a) - 48.

(** The number that four digits denote. *)
Definition unpad4 (s : string) : Z :=
  match s with
  | String a (String b (String c (String d EmptyString))) =>
    1000 * digit_val a + 100 * digit_val b + 10 * digit_val c + digit_val d
  | _ => -1
  end.

(** The same list, written with [pad4]: prefix, then middle code, then
    suffix, the suffix running from 0 to 9999 innermost. *)
Definition padded_numbers (segs middles : list string) : list string :=
  flat_map (fun prefix =>
    flat_map (fun middle =>
      map (fun suffix => prefix +:+ middle +:+ pad4 suffix) (seqZ 0 10000)) middles) segs.

(** One number per line. *)
Definition line (phone : string) : bytes := to_bytes (phone +:+ newline).

Definition unlines (phones : list string) : bytes := concat (map line phones).

(** The lines of a text, each ended by a line feed: [cur] holds the bytes
    of the current line, last first. *)
Fixpoint split_lines (s cur : string) : list string :=
  match s with
  | EmptyString => []
  | String a r =>
    if Ascii.eqb a (ascii_of_nat 10)
    then Utf8.rev_string cur EmptyString :: split_lines r EmptyString
    else split_lines r (String a cur)
  end.

Definition file_lines (data : bytes) : list string :=
  split_lines (string_of_list_byte data) EmptyString.

(** The pattern of an output line, [^\d{11}$]. *)
Definition elevenDigits : Regexp.Regexp :=
  {| Regexp.anchored_body := Regexp.Repeat 11 (Regexp.CharClass Regexp.perl_d) |}.

(** ** Worlds without failures, and one with a full disk *)

(** The system call [s] never fails in [w]. *)
Definition no_fault (w : World) (s : syscall) : Prop := forall t, oracle w t s = None.

(** The output file can be created and written. *)
Definition io_ok (w : World) : Prop :=
  (forall t, oracle w t (SysCreate outputPath) = None)
  /\ (forall t off n, oracle w t (SysWrite outputPath off n) = None).

Definition config_readable (w : World) : Prop :=
  no_fault w (SysStat configPath) /\ no_fault w (SysOpen configPath)
  /\ no_fault w (SysRead configPath).

Definition config_creatable (w : World) : Prop :=
  no_fault w (SysStat configPath) /\ no_fault w (SysCreate configPath)
  /\ (forall off n, no_fault w (SysWrite configPath off n))
  /\ no_fault w (SysClose configPath).

Definition quiet_oracle : nat -> syscall -> option fault := fun _ _ => None.

(** A disk with room for [C] bytes in a file: a write that would go
    beyond stops at [C] bytes and reports [ENOSPC]. *)
Definition disk_quota (C : nat) : nat -> syscall -> option fault :=
  fun _ s =>
    match s with
    | SysWrite _ off n =>
      if (off + n <=? C)%nat then None
      else Some {| fault_errno := ENOSPC; fault_written := C - off |}
    | _ => None
    end.

Definition example_world (lines : list string) (fs : gmap string bytes)
    (o : nat -> syscall -> option fault) : World :=
  {| stdin := lines; token := EmptyString; stdout := []; files := fs;
     open_files := []; clock := 0; oracle := o |}.

Definition quiet_world (lines : list string) (fs : gmap string bytes) : World :=
  example_world lines fs quiet_oracle.

(** No file, no input, and room for all the output of one middle code
    (4800000 bytes) but its last byte. *)
Definition disk_full_world : World :=
  example_world [] ∅ (disk_quota (Z.to_nat 4799999)).

(** A configuration file with two valid and two invalid codes, and one
    that is not JSON. *)
Definition sample_config : bytes :=
  to_bytes (RefJSON.marshal_indent
              {| MiddleCodes := ["0537"; "12a4"; "0100"; "99999"]%string |} "" "  ").


(** The text [json.MarshalIndent] gives for [defaultConfig] with no
    prefix and an indent of two spaces: one member, one code a line, two
    spaces a level, no newline at the end. *)
Definition default_config_text : string :=
  String.concat newline
    ["{";
     "  " +:+ RefJSON.dquote +:+ "middleCodes" +:+ RefJSON.dquote +:+ ": [";
     "    " +:+ RefJSON.dquote +:+ "0537" +:+ RefJSON.dquote +:+ ",";
     "    " +:+ RefJSON.dquote +:+ "0100" +:+ RefJSON.dquote +:+ ",";
     "    " +:+ RefJSON.dquote +:+ "0210" +:+ RefJSON.dquote +:+ ",";
     "    " +:+ RefJSON.dquote +:+ "0755" +:+ RefJSON.dquote;
     "  ]";
     "}"]%string.

(** The JSON value that text denotes. *)
Definition default_config_value : RefJSON.value :=
  RefJSON.Object
    [("middleCodes"%string,
      RefJSON.Array [RefJSON.Str "0537"; RefJSON.Str "0100";
                     RefJSON.Str "0210"; RefJSON.Str "0755"])].

(** The first JSON value of a text, as the decoder reads it, and the
    text after it; [None] when the text does not start with a JSON
    value. *)
Definition first_value (data : bytes) : option (RefJSON.value * string) :=
  let s := string_of_list_byte data in RefJSON.read_value (S (len s)) s.

(** A JSON text: one value, with white space around it at most
    ([json.Valid]). *)
Definition well_formed_json (data : bytes) : bool :=
  match first_value data with
  | Some (_, rest) => String.eqb (RefJSON.skip_ws rest) EmptyString
  | None => false
  end.



(** ** The generator's loops, flattened, and its invariants *)

(** The three loops as one loop over the lines to write. *)
Fixpoint write_numbers `{Arch} (totalNumbers : Z) (phones : list string) (st : GenState)
  : IO (option error * GenState) :=
  match phones with
  | [] => ret (None, st)
  | phone :: rest =>
    let* (e, st') := write_number totalNumbers phone st in
    match e with
    | Some _ => ret (e, st')
    | None => write_numbers totalNumbers rest st'
    end
  end.

Definition out_file : Os.File := {| Os.Name := outputPath |}.

(** No write to the output file that ends before byte [K] fails. *)
Definition quiet_below (K : nat) (o : nat -> syscall -> option fault) : Prop :=
  forall t off n, (off + n < K)%nat -> o t (SysWrite outputPath off n) = None.

(** The writer has not failed; the file followed by the buffer is
    [data], the bytes accepted so far. *)
Record GenInv (o : nat -> syscall -> option fault) (ofs : list string)
    (data : bytes) (b : Bufio.Writer) (w : World) : Prop := {
  inv_oracle : oracle w = o;
  inv_open : open_files w = ofs;
  inv_err : Bufio.err b = None;
  inv_wr : Bufio.wr b = out_file;
  inv_buf : (length (Bufio.buf b) <= Bufio.defaultBufSize)%nat;
  inv_data : contents outputPath w ++ Bufio.buf b = data;
}.

(** The writer has failed: its error is set, and the file holds [C]
    bytes. *)
Record Failed (C : nat) (ofs : list string) (b : Bufio.Writer) (w : World) : Prop := {
  failed_err : Bufio.err b <> None;
  failed_size : length (contents outputPath w) = C;
  failed_oracle : oracle w = disk_quota C;
  failed_open : open_files w = ofs;
}.

(** ** What a run leaves alone *)

(** [w'] is [w] after a run that printed [msgs], read no input, left no
    file open that was not, and changed no file but the one at [path]. *)
Record Run (path : string) (msgs : list string) (w w' : World) : Prop := {
  run_stdin : stdin w' = stdin w;
  run_token : token w' = token w;
  run_oracle : oracle w' = oracle w;
  run_open : open_files w' = open_files w;
  run_stdout : stdout w' = stdout w ++ msgs;
  run_files : forall p, p <> path -> files w' !! p = files w !! p;
}.

(** The bytes that are to reach the output file are [full], of which
    [rest] has not been handed to the writer: the file holds a prefix of
    [full], and while the writer has not failed, the file, the buffer and
    [rest] make up [full]. *)
Record Partial (full rest : bytes) (b : Bufio.Writer) (w : World) : Prop := {
  partial_wr : Bufio.wr b = out_file;
  partial_prefix : contents outputPath w `prefix_of` full;
  partial_data : Bufio.err b = None -> contents outputPath w ++ Bufio.buf b ++ rest = full;
}.

(** The progress report of line 222. *)
Definition progress (count total : Z) : string :=
  "Generated: " +:+ Fmt.d count +:+ " / " +:+ Fmt.d total +:+ newline.

(** The three lines that [generatePhoneNumbers] prints first (lines 205
    to 208). *)
Definition opening_lines `{Arch} (middleCodes : list string) : list string :=
  [newline +:+ "📱 Starting phone number generation:" +:+ newline;
   "Total prefixes: " +:+ Fmt.d (Z.of_nat (length allSegments))
     +:+ " | Total middle codes: " +:+ Fmt.d (Z.of_nat (length middleCodes))
     +:+ " | Suffix range per combination: 0000-9999" +:+ newline;
   "Estimated total numbers to generate: "
     +:+ Fmt.d (wrap (wrap (Z.of_nat (length allSegments) * Z.of_nat (length middleCodes))
                      * 10000))
     +:+ newline].

(** The progress reports printed while the count goes from [from] to
    [from + n]: one for each multiple of 10000 that the count reaches. *)
Definition progress_reports (total from n : Z) : list string :=
  map (fun k => progress k total)
      (filter (fun k => Z.rem k 10000 = 0%Z) (seqZ (from + 1) n)).

(** ** The errors of [loadConfig] *)

Definition ConfigStatError (cause : error) : error :=
  ErrorfV ("failed to check " +:+ configPath +:+ " status: ") cause.

Definition ConfigEncodeError (cause : error) : error :=
  ErrorfV "failed to generate default config: " cause.

Definition ConfigCreateError (cause : error) : error :=
  ErrorfV ("failed to create " +:+ configPath +:+ ": ") cause.

Definition ConfigOpenError (cause : error) : error :=
  ErrorfV ("failed to open " +:+ configPath +:+ ": ") cause.

Definition not_found_notice : string :=
  configPath +:+ " not found, creating automatically..." +:+ newline.

(** [os.Stat] reports that there is no file at [path]: there is none, or
    the call fails with [ENOENT]. *)
Definition reported_missing (path : string) (w : World) : Prop :=
  match oracle w (clock w) (SysStat path) with
  | Some x => fault_errno x = ENOENT
  | None => files w !! path = None
  end.

(** A world in which [config.json] exists and cannot be opened. *)
Definition locked_config_world : World :=
  example_world ["1"%string] {[ configPath := sample_config ]}
    (fun _ s => match s with
                | SysOpen _ => Some {| fault_errno := EACCES; fault_written := 0 |}
                | _ => None
                end).

(** ** Lines typed at the console *)

Definition exit_prompt : string :=
  newline +:+ "Exit program? (y/n, 'n' to reselect middle code input method): ".

Definition invalid_answer : string := "Invalid input, please enter y or n" +:+ newline.

Definition invalid_option : string := "Invalid option, please enter 1 or 2" +:+ newline.

(** What a line answers to [askToContinue], and whether it picks one of
    the two input methods. *)
Definition says_yes (l : string) : Prop :=
  Strings.TrimSpace l = "y"%string \/ Strings.TrimSpace l = "Y"%string.

Definition says_no (l : string) : Prop :=
  Strings.TrimSpace l = "n"%string \/ Strings.TrimSpace l = "N"%string.

Definition no_answer (l : string) : Prop := ~ says_yes l /\ ~ says_no l.

Definition picks_method (l : string) : Prop :=
  Strings.TrimSpace l = "1"%string \/ Strings.TrimSpace l = "2"%string.

(** The three lines that [selectMiddleCodes] prints before its loop. *)
Definition method_menu : list string :=
  [newline +:+ "Please select 4-digit middle code input method:" +:+ newline;
   "1. Read from config.json (file will be auto-created if it doesn't exist)" +:+ newline;
   "2. Manual input via command line (separate multiple codes with commas, e.g., 0537,0100,0210)"
     +:+ newline].

Definition manual_success (codes : list string) : string :=
  "Manual input successful, total " +:+ Fmt.d (Z.of_nat (length codes))
  +:+ " 4-digit middle codes: " +:+ Fmt.v_strings codes +:+ newline.

(** [w'] is [w] after [n] lines were read and [msgs] printed, the files
    being left alone. *)
Record Talk (n : nat) (msgs : list string) (w w' : World) : Prop := {
  talk_stdin : stdin w' = drop n (stdin w);
  talk_stdout : stdout w' = stdout w ++ msgs;
  talk_files : files w' = files w;
  talk_open : open_files w' = open_files w;
  talk_oracle : oracle w' = oracle w;
}.

(** ** The lines of [main] *)

(** What [main] prints after a generation (lines 38 to 42). *)
Definition report (e : option error) : string :=
  match e with
  | Some err => "Phone number generation failed: " +:+ Error err +:+ newline
  | None =>
    newline +:+ "✅ Phone numbers have been successfully exported to phonedict.txt" +:+ newline
  end.

Definition exiting : string := "Exiting program..." +:+ newline.

Definition restart_line : string :=
  "-------------------------- Restart --------------------------" +:+ newline.

Definition banner : list string :=
  ["Loaded built-in operator prefixes:" +:+ newline;
   "China Mobile: 20 | China Unicom: 11 | China Telecom: 9" +:+ newline].

(** A world in which no file can be created. *)
Definition read_only_world (lines : list string) : World :=
  example_world lines ∅
    (fun _ s => match s with
                | SysCreate _ => Some {| fault_errno := EACCES; fault_written := 0 |}
                | _ => None
                end).

(* ================================================================== *)
(** * Part III: proofs                                                 *)
(* ================================================================== *)

(** ** Strings and bytes *)

Lemma append_cons x s t : String x s +:+ t = String x (s +:+ t).
Proof. reflexivity. Qed.

Lemma len_app s1 s2 : len (s1 +:+ s2) = (len s1 + len s2)%nat.
Proof. unfold len. induction s1; simpl; auto. Qed.

Lemma append_inj a : forall a' b b',
  len a = len a' -> a +:+ b = a' +:+ b' -> a = a' /\ b = b'.
Proof.
  induction a as [|x a IH]; intros [|x' a'] b b' L E; try discriminate.
  - auto.
  - injection L as L. injection E as -> E. destruct (IH _ _ _ L E) as [-> ->]. auto.
Qed.

Lemma append_empty s : s +:+ EmptyString = s.
Proof. induction s as [|x s IH]; [reflexivity|]. rewrite append_cons. f_equal. exact IH. Qed.

Lemma all_digits_app s1 s2 : all_digits (s1 +:+ s2) = all_digits s1 && all_digits s2.
Proof. induction s1 as [|a s1 IH]; simpl; [reflexivity|]. rewrite IH, andb_assoc. reflexivity. Qed.

Lemma length_to_bytes s : length (to_bytes s) = len s.
Proof.
  unfold to_bytes, list_byte_of_string, len. rewrite length_map.
  induction s; simpl; auto.
Qed.

Lemma to_bytes_app s1 s2 : to_bytes (s1 +:+ s2) = to_bytes s1 ++ to_bytes s2.
Proof.
  unfold to_bytes, list_byte_of_string.
  induction s1 as [|a s1 IH]; simpl; [reflexivity|]. f_equal. exact IH.
Qed.

Lemma string_of_list_byte_app a b :
  string_of_list_byte (a ++ b) = string_of_list_byte a +:+ string_of_list_byte b.
Proof.
  unfold string_of_list_byte. rewrite map_app.
  induction (map ascii_of_byte a) as [|x l IH]; [reflexivity|].
  cbn [app string_of_list_ascii]. rewrite append_cons. f_equal. exact IH.
Qed.

Lemma rev_string_spec s : forall acc acc',
  Utf8.rev_string (Utf8.rev_string s acc) acc' = Utf8.rev_string acc (s +:+ acc').
Proof.
  induction s as [|x s IH]; intros acc acc'; [reflexivity|].
  cbn [Utf8.rev_string]. rewrite IH. reflexivity.
Qed.

(** ** The patterns *)

Lemma full_match_NoMatch s : Regexp.full_match Regexp.NoMatch s = false.
Proof. induction s; simpl; auto. Qed.

Lemma full_match_Alternate r1 r2 s :
  Regexp.full_match (Regexp.Alternate r1 r2) s
  = Regexp.full_match r1 s || Regexp.full_match r2 s.
Proof. revert r1 r2. induction s as [|a s IH]; intros; simpl; auto. Qed.

Lemma full_match_Concat_NoMatch r s :
  Regexp.full_match (Regexp.Concat Regexp.NoMatch r) s = false.
Proof. induction s; simpl; auto. Qed.

Lemma full_match_Concat_EmptyMatch r s :
  Regexp.full_match (Regexp.Concat Regexp.EmptyMatch r) s = Regexp.full_match r s.
Proof.
  destruct s as [|a s]; simpl; auto.
  rewrite full_match_Alternate, full_match_Concat_NoMatch. reflexivity.
Qed.

Lemma full_match_class p r a s :
  Regexp.full_match (Regexp.Concat (Regexp.CharClass p) r) (String a s)
  = p a && Regexp.full_match r s.
Proof.
  simpl. destruct (p a); simpl.
  - apply full_match_Concat_EmptyMatch.
  - apply full_match_Concat_NoMatch.
Qed.

(** [x{n}] of a class matches the strings of [n] bytes of the class. *)
Lemma full_match_Repeat_digits n : forall s,
  Regexp.full_match (Regexp.Repeat n (Regexp.CharClass Regexp.perl_d)) s
  = Nat.eqb (len s) n && all_digits s.
Proof.
  induction n as [|n IH]; intros [|a s]; cbn [Regexp.Repeat len String.length Nat.eqb all_digits].
  - reflexivity.
  - simpl. apply full_match_NoMatch.
  - reflexivity.
  - rewrite full_match_class, IH. fold (len s).
    destruct (Regexp.perl_d a), (Nat.eqb (len s) n); reflexivity.
Qed.

Lemma MatchString_validRegex s : Regexp.MatchString validRegex s = four_digits s.
Proof.
  unfold Regexp.MatchString, validRegex. cbn [Regexp.anchored_body].
  rewrite full_match_Repeat_digits.
  destruct s as [|a [|b [|c [|d [|e s]]]]]; try reflexivity.
  cbn. rewrite !andb_assoc, andb_true_r. reflexivity.
Qed.

Lemma valid_len_digits s :
  Regexp.MatchString validRegex s = true <-> len s = 4%nat /\ all_digits s = true.
Proof.
  unfold Regexp.MatchString, validRegex. cbn [Regexp.anchored_body].
  rewrite full_match_Repeat_digits, andb_true_iff, Nat.eqb_eq. reflexivity.
Qed.

Lemma valid_code_iff s : Regexp.MatchString validRegex s = true <-> valid_code s.
Proof. unfold valid_code. rewrite MatchString_validRegex. reflexivity. Qed.

Lemma Forall_valid_filter (l : list string) : Forall valid_code (filter valid_code l).
Proof. apply Forall_forall. intros x Hx. apply list_elem_of_filter in Hx. tauto. Qed.

Lemma defaultConfig_valid : Forall valid_code (MiddleCodes defaultConfig).
Proof. repeat constructor. Qed.

(** ** Suffixes *)

Lemma digit_char_facts d :
  (0 <= d <= 9)%Z -> Regexp.perl_d (digit_char d) = true /\ digit_val (digit_char d) = d.
Proof.
  intros H.
  assert (C : (d = 0 \/ d = 1 \/ d = 2 \/ d = 3 \/ d = 4 \/ d = 5 \/ d = 6 \/ d = 7
               \/ d = 8 \/ d = 9)%Z) by lia.
  repeat (destruct C as [->|C]; [split; reflexivity|]). subst. split; reflexivity.
Qed.

Lemma digits_loop_step fuel u acc :
  (10 <= u)%Z ->
  Fmt.digits_loop (S fuel) u acc
  = Fmt.digits_loop fuel (u / 10) (String (Fmt.digit (u mod 10)) acc).
Proof. intros H. cbn [Fmt.digits_loop]. destruct (Z.leb_spec 10 u); [reflexivity|lia]. Qed.

Lemma digits_loop_last fuel u acc :
  (u < 10)%Z -> Fmt.digits_loop (S fuel) u acc = String (Fmt.digit u) acc.
Proof. intros H. cbn [Fmt.digits_loop]. destruct (Z.leb_spec 10 u); [lia|reflexivity]. Qed.

Lemma d04_pad4 k : (0 <= k < 10000)%Z -> Fmt.d04 k = pad4 k.
Proof.
  intros Hk. unfold Fmt.d04, Fmt.sign, pad4.
  destruct (Z.ltb_spec k 0); [lia|]. rewrite Z.abs_eq by lia.
  unfold Fmt.digits. change 20%nat with (S (S (S (S 16)))).
  fold Fmt.digit. change digit_char with Fmt.digit.
  destruct (Z_lt_le_dec k 10) as [H1|H1].
  { rewrite digits_loop_last by lia.
    rewrite (Z.div_small k 1000), (Z.div_small k 100), (Z.div_small k 10) by lia.
    rewrite (Z.mod_small k 10) by lia. reflexivity. }
  rewrite digits_loop_step by lia.
  destruct (Z_lt_le_dec k 100) as [H2|H2].
  { rewrite digits_loop_last by (apply Z.div_lt_upper_bound; lia).
    rewrite (Z.div_small k 1000), (Z.div_small k 100) by lia.
    rewrite (Z.mod_small (k / 10) 10)
      by (split; [apply Z.div_pos; lia|apply Z.div_lt_upper_bound; lia]).
    reflexivity. }
  rewrite digits_loop_step by (apply Z.div_le_lower_bound; lia).
  rewrite Z.div_div by lia. change (10 * 10)%Z with 100%Z.
  destruct (Z_lt_le_dec k 1000) as [H3|H3].
  { rewrite digits_loop_last by (apply Z.div_lt_upper_bound; lia).
    rewrite (Z.div_small k 1000) by lia.
    rewrite (Z.mod_small (k / 100) 10)
      by (split; [apply Z.div_pos; lia|apply Z.div_lt_upper_bound; lia]).
    reflexivity. }
  rewrite digits_loop_step by (apply Z.div_le_lower_bound; lia).
  rewrite Z.div_div by lia. change (100 * 10)%Z with 1000%Z.
  rewrite digits_loop_last by (apply Z.div_lt_upper_bound; lia).
  rewrite (Z.mod_small (k / 1000) 10)
    by (split; [apply Z.div_pos; lia|apply Z.div_lt_upper_bound; lia]).
  reflexivity.
Qed.

Lemma digit_range k m : (0 <= k / m mod 10 <= 9)%Z.
Proof. pose proof (Z.mod_pos_bound (k / m) 10 ltac:(lia)). lia. Qed.

Lemma d04_facts k :
  (0 <= k < 10000)%Z ->
  Fmt.d04 k = pad4 k /\ all_digits (pad4 k) = true /\ unpad4 (pad4 k) = k.
Proof.
  intros Hk. split; [apply d04_pad4; exact Hk|].
  pose proof (digit_char_facts _ (digit_range k 1000)) as [D3 V3].
  pose proof (digit_char_facts _ (digit_range k 100)) as [D2 V2].
  pose proof (digit_char_facts _ (digit_range k 10)) as [D1 V1].
  pose proof (digit_char_facts (k mod 10)) as [D0 V0].
  { pose proof (Z.mod_pos_bound k 10 ltac:(lia)). lia. }
  unfold pad4. cbn [all_digits unpad4]. rewrite D3, D2, D1, D0, V3, V2, V1, V0.
  split; [reflexivity|].
  Z.to_euclidean_division_equations. lia.
Qed.

Lemma digit_not_newline a : Regexp.perl_d a = true -> Ascii.eqb a (ascii_of_nat 10) = false.
Proof.
  intros H. destruct (Ascii.eqb_spec a (ascii_of_nat 10)) as [->|]; [|reflexivity].
  discriminate H.
Qed.

(** ** The list of numbers *)

Lemma allSegments_digits :
  Forall (fun p => len p = 3%nat /\ all_digits p = true) allSegments.
Proof. repeat constructor. Qed.

Lemma length_flat_map_const {A B} (f : A -> list B) n l :
  (forall a, length (f a) = n) -> length (flat_map f l) = (length l * n)%nat.
Proof.
  intros H. induction l as [|a l IH]; [reflexivity|].
  cbn [flat_map length]. rewrite length_app, H, IH. lia.
Qed.

Lemma numbers_length segs middles :
  length (numbers segs middles) = (length segs * length middles * Z.to_nat 10000)%nat.
Proof.
  unfold numbers.
  rewrite (length_flat_map_const _ (length middles * Z.to_nat 10000)); [lia|].
  intros seg. apply length_flat_map_const.
  intros middle. rewrite length_map, length_seqZ. reflexivity.
Qed.

Lemma elem_of_numbers segs middles phone :
  In phone (numbers segs middles) <->
  exists seg middle k, In seg segs /\ In middle middles /\ (0 <= k < 10000)%Z
                       /\ phone = number seg middle k.
Proof.
  unfold numbers. rewrite in_flat_map. split.
  - intros (seg & Hs & H). rewrite in_flat_map in H. destruct H as (m & Hm & H).
    rewrite in_map_iff in H. destruct H as (k & <- & Hk).
    rewrite <- list_elem_of_In, elem_of_seqZ in Hk.
    exists seg, m, k. repeat split; auto; lia.
  - intros (seg & m & k & Hs & Hm & Hk & ->). exists seg. split; [assumption|].
    rewrite in_flat_map. exists m. split; [assumption|].
    apply in_map. rewrite <- list_elem_of_In, elem_of_seqZ. lia.
Qed.

(** The shape of one number: three, four and four digits. *)
Lemma number_shape seg middle k :
  len seg = 3%nat -> all_digits seg = true ->
  Regexp.MatchString validRegex middle = true -> (0 <= k < 10000)%Z ->
  number seg middle k = seg +:+ middle +:+ pad4 k
  /\ len (number seg middle k) = 11%nat /\ all_digits (number seg middle k) = true.
Proof.
  intros L3 D3 Hm Hk. apply valid_len_digits in Hm as [L4 D4].
  destruct (d04_facts k Hk) as (E & D & _). unfold number. rewrite E.
  split; [reflexivity|].
  rewrite !len_app, !all_digits_app, L3, L4, D3, D4, D. split; reflexivity.
Qed.

Lemma number_inj seg middle k seg' middle' k' :
  len seg = 3%nat -> len seg' = 3%nat ->
  Regexp.MatchString validRegex middle = true ->
  Regexp.MatchString validRegex middle' = true ->
  (0 <= k < 10000)%Z -> (0 <= k' < 10000)%Z ->
  number seg middle k = number seg' middle' k' ->
  seg = seg' /\ middle = middle' /\ k = k'.
Proof.
  intros L L' Hm Hm' Hk Hk' E.
  apply valid_len_digits in Hm as [M _]. apply valid_len_digits in Hm' as [M' _].
  unfold number in E.
  destruct (d04_facts k Hk) as (E1 & _ & U). destruct (d04_facts k' Hk') as (E1' & _ & U').
  rewrite E1, E1' in E.
  apply append_inj in E as [-> E]; [|congruence].
  apply append_inj in E as [-> E]; [|congruence].
  rewrite <- U, <- U', E. auto.
Qed.

Lemma numbers_padded segs middles : numbers segs middles = padded_numbers segs middles.
Proof.
  unfold numbers, padded_numbers.
  apply flat_map_ext. intros seg. apply flat_map_ext. intros middle.
  apply map_ext_in. intros k Hk. rewrite <- list_elem_of_In, elem_of_seqZ in Hk.
  unfold number. destruct (d04_facts k) as (-> & _); [lia|reflexivity].
Qed.

Lemma numbers_all_digits middles :
  Forall valid_code middles ->
  Forall (fun p => all_digits p = true) (numbers allSegments middles).
Proof.
  intros Hv. apply Forall_forall. intros p Hp.
  rewrite list_elem_of_In in Hp.
  apply elem_of_numbers in Hp as (seg & m & k & Hs & Hm & Hk & ->).
  pose proof allSegments_digits as HS. rewrite Forall_forall in HS.
  rewrite <- list_elem_of_In in Hs. destruct (HS _ Hs) as [L3 D3].
  rewrite Forall_forall in Hv. rewrite <- list_elem_of_In in Hm.
  apply (number_shape seg m k L3 D3); [apply valid_code_iff; auto|exact Hk].
Qed.

Lemma numbers_len middles :
  Forall valid_code middles -> Forall (fun p => len p = 11%nat) (numbers allSegments middles).
Proof.
  intros Hv. apply Forall_forall. intros p Hp.
  rewrite list_elem_of_In in Hp.
  apply elem_of_numbers in Hp as (seg & m & k & Hs & Hm & Hk & ->).
  pose proof allSegments_digits as HS. rewrite Forall_forall in HS.
  rewrite <- list_elem_of_In in Hs. destruct (HS _ Hs) as [L3 D3].
  rewrite Forall_forall in Hv. rewrite <- list_elem_of_In in Hm.
  apply (number_shape seg m k L3 D3); [apply valid_code_iff; auto|exact Hk].
Qed.

Lemma unlines_app l1 l2 : unlines (l1 ++ l2) = unlines l1 ++ unlines l2.
Proof. unfold unlines. rewrite map_app. apply concat_app. Qed.

Lemma length_line p : length (line p) = S (len p).
Proof.
  unfold line. rewrite length_to_bytes, len_app. change (len newline) with 1%nat. lia.
Qed.

Lemma length_unlines n phones :
  Forall (fun p => len p = n) phones -> length (unlines phones) = (S n * length phones)%nat.
Proof.
  induction 1 as [|p ps Hp _ IH]; [cbn; lia|].
  change (unlines (p :: ps)) with (line p ++ unlines ps).
  rewrite length_app, length_line, Hp, IH. cbn [length]. lia.
Qed.

Lemma string_of_unlines p ps :
  string_of_list_byte (unlines (p :: ps))
  = p +:+ String (ascii_of_nat 10) (string_of_list_byte (unlines ps)).
Proof.
  change (unlines (p :: ps)) with (line p ++ unlines ps).
  rewrite string_of_list_byte_app. unfold line, to_bytes.
  rewrite string_of_list_byte_of_string. unfold newline.
  induction p as [|x p IH]; [reflexivity|].
  rewrite !append_cons. f_equal. exact IH.
Qed.

Lemma split_lines_line p : forall cur rest,
  all_digits p = true ->
  split_lines (p +:+ String (ascii_of_nat 10) rest) cur
  = Utf8.rev_string (Utf8.rev_string p cur) EmptyString :: split_lines rest EmptyString.
Proof.
  induction p as [|x p IH]; intros cur rest D.
  - simpl. reflexivity.
  - cbn [all_digits] in D. apply andb_prop in D as [Dx D].
    rewrite append_cons.
    cbn [split_lines Utf8.rev_string].
    rewrite (digit_not_newline _ Dx). apply IH. exact D.
Qed.

Lemma file_lines_unlines phones :
  Forall (fun p => all_digits p = true) phones -> file_lines (unlines phones) = phones.
Proof.
  unfold file_lines. induction 1 as [|p ps D _ IH]; [reflexivity|].
  rewrite string_of_unlines, split_lines_line by exact D.
  rewrite rev_string_spec. cbn [Utf8.rev_string]. rewrite append_empty, IH. reflexivity.
Qed.

(** ** Steps of the world *)

Ltac wsimpl :=
  cbn [stdin token stdout files open_files clock oracle
       tick emit next_line set_files set_open_files] in *.

Lemma io_bind {A B} (m : IO A) (k : A -> IO B) w a w' :
  m w = Some (a, w') -> bind m k w = k a w'.
Proof. intros E. unfold bind. rewrite E. reflexivity. Qed.

Lemma contents_set_files path x w f :
  contents path (set_files (<[path := x]> f) w) = x.
Proof. unfold contents. simpl. rewrite lookup_insert_eq. reflexivity. Qed.

Lemma release_head path l : Os.release path (path :: l) = l.
Proof. simpl. rewrite String.eqb_refl. reflexivity. Qed.

Lemma Create_ok path w :
  oracle w (clock w) (SysCreate path) = None ->
  Os.Create path w
  = Some (inl {| Os.Name := path |},
          set_open_files (path :: open_files w) (set_files (<[path := []]> (files w)) (tick w))).
Proof. intros E. unfold Os.Create, bind, sys. rewrite E. reflexivity. Qed.

Lemma Stat_existing path w data :
  files w !! path = Some data -> no_fault w (SysStat path) ->
  Os.Stat path w = Some (None, tick w).
Proof.
  intros Hf Hs. unfold Os.Stat, bind, sys. rewrite Hs. cbn [files tick]. rewrite Hf. reflexivity.
Qed.

Lemma Stat_absent path w :
  files w !! path = None -> no_fault w (SysStat path) ->
  Os.Stat path w = Some (Some (PathError "stat" path ENOENT), tick w).
Proof.
  intros Hf Hs. unfold Os.Stat, bind, sys. rewrite Hs. cbn [files tick]. rewrite Hf. reflexivity.
Qed.

Lemma Open_existing path w data :
  files w !! path = Some data -> no_fault w (SysOpen path) ->
  Os.Open path w
  = Some (inl {| Os.Name := path |}, set_open_files (path :: open_files w) (tick w)).
Proof.
  intros Hf Hs. unfold Os.Open, bind, sys. rewrite Hs. cbn [files tick]. rewrite Hf. reflexivity.
Qed.

Lemma ReadAll_ok path w :
  no_fault w (SysRead path) ->
  Os.ReadAll {| Os.Name := path |} w = Some (inl (contents path w), tick w).
Proof. intros Hs. unfold Os.ReadAll, bind, sys. cbn [Os.Name]. rewrite Hs. reflexivity. Qed.

Lemma Close_spec path w :
  Os.Close {| Os.Name := path |} w
  = Some (Os.path_error "close" path <$> oracle w (clock w) (SysClose path),
          set_open_files (Os.release path (open_files w)) (tick w)).
Proof. reflexivity. Qed.

Lemma emits_Console msgs : forall w, Console msgs w (emits msgs w).
Proof.
  induction msgs as [|m msgs IH]; intros w.
  - constructor; try reflexivity. cbn. rewrite app_nil_r. reflexivity.
  - destruct (IH (emit m w)) as [H1 H2 H3 H4].
    constructor; cbn [emits fold_left]; fold (emits msgs (emit m w)).
    + rewrite H1. cbn [stdout emit]. rewrite <- app_assoc. reflexivity.
    + rewrite H2. reflexivity.
    + rewrite H3. reflexivity.
    + rewrite H4. reflexivity.
Qed.

Lemma emits_stdin msgs : forall w,
  stdin (emits msgs w) = stdin w /\ token (emits msgs w) = token w.
Proof.
  induction msgs as [|m msgs IH]; intros w; [auto|].
  cbn [emits fold_left]. fold (emits msgs (emit m w)).
  destruct (IH (emit m w)) as [-> ->]. auto.
Qed.

Lemma quiet_world_io_ok lines fs : io_ok (quiet_world lines fs).
Proof. split; intros; reflexivity. Qed.

Lemma quiet_world_readable lines fs : config_readable (quiet_world lines fs).
Proof. repeat split. Qed.

Lemma quiet_world_creatable lines fs : config_creatable (quiet_world lines fs).
Proof. repeat split. Qed.

(** ** The buffered writer while nothing fails *)

Lemma defaultBufSize_eq : Bufio.defaultBufSize = Z.to_nat 4096.
Proof. reflexivity. Qed.

#[local] Opaque Bufio.defaultBufSize.

Lemma Os_Write_quiet K o ofs data b w p :
  GenInv o ofs data b w -> quiet_below K o ->
  (length (contents outputPath w) + length p < K)%nat ->
  Os.Write out_file p w
  = Some ((length p, None),
          set_files (<[outputPath := contents outputPath w ++ p]> (files w)) (tick w)).
Proof.
  intros I Q L. unfold Os.Write. cbn [Os.Name out_file].
  rewrite (inv_oracle _ _ _ _ _ I). rewrite (Q _ _ _ L). reflexivity.
Qed.

Lemma GenInv_written o ofs b w x :
  oracle w = o -> open_files w = ofs -> Bufio.err b = None -> Bufio.wr b = out_file ->
  Bufio.buf b = [] ->
  GenInv o ofs x b (set_files (<[outputPath := x]> (files w)) (tick w)).
Proof.
  intros. constructor; auto.
  - rewrite H3. cbn [length]. lia.
  - rewrite H3, contents_set_files. apply app_nil_r.
Qed.

Lemma GenInv_Print o ofs data b w s :
  GenInv o ofs data b w ->
  GenInv o ofs data b (emit s w).
Proof. intros [? ? ? ? ? ?]. constructor; auto. Qed.

Lemma Flush_quiet K o ofs data b w :
  GenInv o ofs data b w -> quiet_below K o -> (length data < K)%nat ->
  exists b' w', Bufio.Flush b w = Some ((None, b'), w')
    /\ GenInv o ofs data b' w' /\ Bufio.buf b' = [].
Proof.
  intros I Q L. pose proof I as [Ho Hf He Hw Hb Hd].
  unfold Bufio.Flush. rewrite He. unfold Bufio.Buffered.
  destruct (Bufio.buf b) as [|x l] eqn:Eb.
  - cbn [length Nat.eqb]. exists b, w. split; [reflexivity|]. split; auto.
  - cbn [Nat.eqb length]. unfold bind. rewrite Hw.
    erewrite Os_Write_quiet; eauto.
    2:{ rewrite <- Hd, length_app in L. cbn [length] in *. lia. }
    rewrite Nat.ltb_irrefl. unfold ret.
    eexists _, _; split; [reflexivity|]. split; [|reflexivity].
    rewrite <- Hd. apply GenInv_written; auto.
Qed.

Lemma WriteString_loop_fits fuel b p nn w :
  (length p <= Bufio.Available b)%nat ->
  Bufio.WriteString_loop fuel b p nn w = Some ((b, p, nn), w).
Proof.
  intros H. apply Nat.ltb_ge in H.
  destruct fuel; cbn [Bufio.WriteString_loop]; rewrite H; reflexivity.
Qed.

Lemma WriteString_loop_step fuel b p nn :
  (Bufio.Available b < length p)%nat -> Bufio.err b = None ->
  Bufio.WriteString_loop (S fuel) b p nn =
  if Nat.eqb (Bufio.Buffered b) 0 then
    let* (n, e) := Os.Write (Bufio.wr b) p in
    Bufio.WriteString_loop fuel
      {| Bufio.buf := Bufio.buf b; Bufio.err := e; Bufio.wr := Bufio.wr b |}
      (drop n p) (nn + n)
  else
    let n := Nat.min (length p) (Bufio.Available b) in
    let* (_, b') := Bufio.Flush {| Bufio.buf := Bufio.buf b ++ take n p;
                                   Bufio.err := Bufio.err b; Bufio.wr := Bufio.wr b |} in
    Bufio.WriteString_loop fuel b' (drop n p) (nn + n).
Proof.
  intros H E. apply Nat.ltb_lt in H.
  cbn [Bufio.WriteString_loop]. rewrite H, E.
  rewrite bool_decide_eq_true_2 by reflexivity. reflexivity.
Qed.

Lemma WriteString_loop_quiet K o ofs data b w p nn fuel :
  GenInv o ofs data b w -> quiet_below K o ->
  (length data + length p <= K)%nat ->
  (length p <= Bufio.defaultBufSize \/ length data + length p < K)%nat ->
  (2 <= fuel)%nat ->
  exists b' k nn' w',
    Bufio.WriteString_loop fuel b p nn w = Some ((b', drop k p, nn'), w')
    /\ GenInv o ofs (data ++ take k p) b' w'
    /\ (length (drop k p) <= Bufio.Available b')%nat
    /\ (0 < length p <= Bufio.defaultBufSize -> Bufio.buf b' ++ drop k p <> [])%nat.
Proof.
  intros I Q L1 L2 Hfuel. pose proof I as [Ho Hf He Hw Hb Hd].
  destruct fuel as [|[|fuel]]; try lia. clear Hfuel.
  destruct (Nat.le_gt_cases (length p) (Bufio.Available b)) as [Hge|Hlt].
  { rewrite WriteString_loop_fits by assumption.
    exists b, 0%nat, nn, w. rewrite take_0, app_nil_r, drop_0.
    split; [reflexivity|]. split; [assumption|]. split; [assumption|].
    intros [? _] E. apply app_eq_nil in E as [_ ->]. cbn [length] in *. lia. }
  rewrite WriteString_loop_step by assumption.
  unfold Bufio.Available, Bufio.Buffered in *.
  destruct (Nat.eqb_spec (length (Bufio.buf b)) 0) as [Hz|Hnz].
  - (* the buffer is empty: the string goes to the file *)
    apply nil_length_inv in Hz. rewrite Hz in Hlt, Hd. cbn [length] in Hlt.
    rewrite Nat.sub_0_r in Hlt.
    rewrite app_nil_r in Hd. assert (Hp : (length data + length p < K)%nat).
    { destruct L2; auto. lia. }
    unfold bind at 1. rewrite Hw. erewrite Os_Write_quiet; eauto; [|rewrite Hd; lia].
    cbv beta iota.
    rewrite WriteString_loop_fits by (rewrite drop_all; cbn [length]; lia).
    exists {| Bufio.buf := Bufio.buf b; Bufio.err := None; Bufio.wr := out_file |},
      (length p), (nn + length p)%nat. eexists. split; [reflexivity|].
    rewrite firstn_all, drop_all.
    split; [|split; [cbn [length]; lia|intros [? ?]; lia]].
    rewrite <- Hd. apply GenInv_written; auto.
  - (* fill the buffer, flush, go round again *)
    cbv zeta.
    set (n := Nat.min (length p) (Bufio.defaultBufSize - length (Bufio.buf b))).
    assert (Hn : n = (Bufio.defaultBufSize - length (Bufio.buf b))%nat) by (subst n; lia).
    set (b1 := {| Bufio.buf := Bufio.buf b ++ take n p; Bufio.err := Bufio.err b; Bufio.wr := Bufio.wr b |}).
    assert (I1 : GenInv o ofs (data ++ take n p) b1 w).
    { constructor; auto; subst b1; cbn [Bufio.buf Bufio.err Bufio.wr].
      - rewrite length_app, length_take. lia.
      - rewrite app_assoc, Hd. reflexivity. }
    destruct (Flush_quiet K _ _ _ _ _ I1 Q) as (b2 & w2 & E2 & I2 & B2).
    { rewrite length_app, length_take. lia. }
    unfold bind at 1. rewrite E2. cbv beta iota.
    pose proof I2 as [Ho2 Hf2 He2 Hw2 Hb2 Hd2].
    assert (Hld : length (drop n p) = (length p - n)%nat) by apply length_drop.
    destruct (Nat.le_gt_cases (length (drop n p)) (Bufio.Available b2)) as [Hge2|Hlt2].
    + rewrite WriteString_loop_fits by assumption.
      exists b2, n. eexists _, _. split; [reflexivity|].
      split; [assumption|]. split; [assumption|].
      intros _ E. apply app_eq_nil in E as [_ E]. rewrite E in Hld. cbn [length] in Hld. lia.
    + (* what is left is longer than the buffer: it goes to the file *)
      rewrite WriteString_loop_step by assumption.
      unfold Bufio.Available, Bufio.Buffered in *. rewrite B2 in *. cbn [length Nat.eqb] in *.
      assert (Hp : (length data + length p < K)%nat).
      { destruct L2; auto. lia. }
      unfold bind at 1. rewrite Hw2.
      rewrite app_nil_r in Hd2.
      erewrite Os_Write_quiet; eauto.
      2:{ rewrite Hd2, length_app, length_take. lia. }
      cbv beta iota. rewrite drop_drop.
      rewrite WriteString_loop_fits
        by (rewrite length_drop; unfold Bufio.Available; cbn [Bufio.buf length]; lia).
      exists {| Bufio.buf := []; Bufio.err := None; Bufio.wr := out_file |},
        (n + length (drop n p))%nat. eexists _, _. split; [reflexivity|].
      rewrite Hld. replace (n + (length p - n))%nat with (length p) by lia.
      rewrite firstn_all, drop_all.
      split; [|split; [cbn [length]; lia|lia]].
      replace (data ++ p) with (contents outputPath w2 ++ drop n p).
      * apply GenInv_written; auto.
      * rewrite Hd2, <- app_assoc, take_drop. reflexivity.
Qed.

Lemma WriteString_quiet K o ofs data b w s :
  GenInv o ofs data b w -> quiet_below K o ->
  (length data + len s <= K)%nat ->
  (len s <= Bufio.defaultBufSize \/ length data + len s < K)%nat ->
  exists nn b' w',
    Bufio.WriteString b s w = Some (((nn, None), b'), w')
    /\ GenInv o ofs (data ++ to_bytes s) b' w'
    /\ (0 < length (to_bytes s) <= Bufio.defaultBufSize -> Bufio.buf b' <> [])%nat.
Proof.
  intros I Q L1 L2. rewrite <- length_to_bytes in L1, L2.
  destruct (WriteString_loop_quiet K o ofs data b w (to_bytes s) 0 (len s + 2) I Q L1 L2)
    as (b1 & k & nn1 & w1 & E1 & I1 & Hfit & Hne); [lia|].
  unfold Bufio.WriteString, bind. rewrite E1.
  pose proof I1 as [Ho1 Hf1 He1 Hw1 Hb1 Hd1]. rewrite He1.
  rewrite Nat.min_l by assumption. rewrite firstn_all.
  eexists _, _, _. split; [reflexivity|].
  unfold Bufio.Available in Hfit.
  split.
  - constructor; cbn [Bufio.buf Bufio.err Bufio.wr]; auto.
    + rewrite length_app. lia.
    + rewrite app_assoc, Hd1, <- app_assoc. f_equal. apply take_drop.
  - cbn [Bufio.buf]. exact Hne.
Qed.

(** ** The generator *)

Section Generator.
Context `{arch : Arch}.

Lemma wrap_small z : (- 2 ^ 31 <= z < 2 ^ 31)%Z -> wrap z = z.
Proof.
  intros Hz. unfold wrap, intSize. destruct arch.
  - change (2 ^ (32 - 1))%Z with (2 ^ 31)%Z. change (2 ^ 32)%Z with (2 * 2 ^ 31)%Z.
    rewrite Z.mod_small; lia.
  - change (2 ^ (64 - 1))%Z with (2 ^ 32 * 2 ^ 31)%Z.
    change (2 ^ 64)%Z with (2 * (2 ^ 32 * 2 ^ 31))%Z.
    rewrite Z.mod_small; lia.
Qed.

Lemma write_numbers_app total l1 l2 st w :
  write_numbers total (l1 ++ l2) st w
  = (let* (e, st') := write_numbers total l1 st in
     match e with
     | Some _ => ret (e, st')
     | None => write_numbers total l2 st'
     end) w.
Proof.
  revert st w. induction l1 as [|p l1 IH]; intros st w.
  - reflexivity.
  - cbn [write_numbers app]. unfold bind.
    destruct (write_number total p st w) as [[[e st'] w']|]; [|reflexivity].
    destruct e; [reflexivity|]. rewrite IH. reflexivity.
Qed.

Lemma suffix_loop_flat total seg middle n : forall fuel suffix st w,
  (0 <= suffix)%Z -> (suffix + Z.of_nat n = 10000)%Z -> (n <= fuel)%nat ->
  suffix_loop fuel total seg middle suffix st w
  = write_numbers total (map (number seg middle) (seqZ suffix (Z.of_nat n))) st w.
Proof.
  induction n as [|n IH]; intros fuel suffix st w H0 Hn Hfuel.
  - replace suffix with 10000%Z by lia.
    destruct fuel; reflexivity.
  - destruct fuel as [|fuel]; [lia|].
    rewrite seqZ_cons by lia. cbn [map write_numbers suffix_loop].
    destruct (Z.ltb_spec suffix 10000); [|lia].
    unfold bind, number at 1.
    destruct (write_number _ _ st w) as [[[e st'] w']|]; [|reflexivity].
    destruct e; [reflexivity|].
    rewrite wrap_small by lia.
    rewrite IH by lia. do 3 f_equal; lia.
Qed.

Lemma middle_loop_flat total seg middles : forall st w,
  middle_loop total seg middles st w
  = write_numbers total
      (flat_map (fun middle => map (number seg middle) (seqZ 0 10000)) middles) st w.
Proof.
  induction middles as [|m ms IH]; intros st w.
  - reflexivity.
  - cbn [middle_loop flat_map]. rewrite write_numbers_app. unfold bind.
    rewrite (suffix_loop_flat total seg m (Z.to_nat 10000)) by lia.
    rewrite Z2Nat.id by lia.
    destruct (write_numbers _ _ st w) as [[[e st'] w']|]; [|reflexivity].
    destruct e; [reflexivity|]. apply IH.
Qed.

Lemma segment_loop_flat total segs middles : forall st w,
  segment_loop total segs middles st w = write_numbers total (numbers segs middles) st w.
Proof.
  induction segs as [|s ss IH]; intros st w.
  - reflexivity.
  - cbn [segment_loop]. unfold numbers. cbn [flat_map]. rewrite write_numbers_app.
    unfold bind. rewrite middle_loop_flat.
    destruct (write_numbers _ _ st w) as [[[e st'] w']|]; [|reflexivity].
    destruct e; [reflexivity|]. apply IH.
Qed.

Lemma write_number_quiet K o ofs data total phone st w :
  GenInv o ofs data (writer st) w -> quiet_below K o ->
  (length data + length (line phone) < K)%nat ->
  exists st' w',
    write_number total phone st w = Some ((None, st'), w')
    /\ GenInv o ofs (data ++ line phone) (writer st') w'.
Proof.
  intros I Q L. unfold line in *. rewrite length_to_bytes in L.
  destruct (WriteString_quiet K o ofs data _ w (phone +:+ newline) I Q)
    as (nn & b1 & w1 & E1 & I1 & _); [lia|lia|].
  unfold write_number, bind at 1. rewrite E1. cbn [snd].
  destruct (Z.rem _ _ =? 0)%Z.
  - destruct (Flush_quiet K _ _ _ _ _ I1 Q) as (b2 & w2 & E2 & I2 & _).
    { rewrite length_app, length_to_bytes. lia. }
    unfold bind. rewrite E2. unfold Print, ret.
    eexists _, _. split; [reflexivity|]. apply GenInv_Print. exact I2.
  - eexists _, _. split; [reflexivity|]. exact I1.
Qed.

Lemma write_numbers_quiet K o ofs total phones : forall data st w,
  GenInv o ofs data (writer st) w -> quiet_below K o ->
  (length data + length (unlines phones) < K)%nat ->
  exists st' w',
    write_numbers total phones st w = Some ((None, st'), w')
    /\ GenInv o ofs (data ++ unlines phones) (writer st') w'.
Proof.
  induction phones as [|p ps IH]; intros data st w I Q L.
  - exists st, w. split; [reflexivity|]. unfold unlines. cbn [map concat]. rewrite app_nil_r. exact I.
  - change (unlines (p :: ps)) with (line p ++ unlines ps) in *.
    rewrite length_app in L.
    destruct (write_number_quiet K o ofs data total p st w I Q) as (st1 & w1 & E1 & I1); [lia|].
    cbn [write_numbers]. unfold bind. rewrite E1.
    destruct (IH _ _ _ I1 Q) as (st2 & w2 & E2 & I2).
    { rewrite length_app. lia. }
    exists st2, w2. split; [exact E2|]. rewrite app_assoc. exact I2.
Qed.

Lemma generatePhoneNumbers_ok middleCodes w :
  io_ok w ->
  exists w',
    generatePhoneNumbers middleCodes w = Some (None, w')
    /\ contents outputPath w' = unlines (numbers allSegments middleCodes)
    /\ open_files w' = open_files w.
Proof.
  intros [Hc Hw]. unfold generatePhoneNumbers.
  rewrite (io_bind _ _ _ _ _ (Create_ok _ _ (Hc _))).
  set (total := wrap _).
  unfold Print at 1 2 3. unfold bind at 1 2 3.
  set (w1 := emit _ _).
  fold allSegments.
  set (st0 := {| writer := _; generatedCount := _ |}).
  assert (Q : quiet_below (S (length (unlines (numbers allSegments middleCodes)))) (oracle w)).
  { intros t off n _. apply Hw. }
  assert (I0 : GenInv (oracle w) (outputPath :: open_files w) [] (writer st0) w1).
  { constructor; try reflexivity.
    - subst st0. cbn [writer Bufio.NewWriter Bufio.buf length]. lia.
    - subst w1 st0. cbn [writer Bufio.NewWriter Bufio.buf]. rewrite app_nil_r.
      unfold contents. cbn [files emit set_open_files set_files].
      rewrite lookup_insert_eq. reflexivity. }
  unfold bind at 1. rewrite segment_loop_flat.
  destruct (write_numbers_quiet _ _ _ total (numbers allSegments middleCodes) _ _ _ I0 Q)
    as (st1 & w2 & E1 & I1).
  { cbn [length]. lia. }
  rewrite E1. cbn [app] in I1.
  unfold Print at 1. unfold bind at 1 2. unfold ret at 1.
  set (w3 := emit _ _).
  assert (I3 : GenInv (oracle w) (outputPath :: open_files w)
                 (unlines (numbers allSegments middleCodes)) (writer st1) w3)
    by (apply GenInv_Print; exact I1).
  destruct (Flush_quiet _ _ _ _ _ _ I3 Q) as (b4 & w4 & E4 & I4 & B4); [lia|].
  unfold bind at 1. rewrite E4.
  destruct I4 as [Ho4 Hf4 _ _ _ Hd4]. rewrite B4, app_nil_r in Hd4.
  unfold Os.Close, bind, sys, ret. cbn [Os.Name].
  eexists. split; [reflexivity|]. split.
  - exact Hd4.
  - cbn [open_files set_open_files tick]. rewrite Hf4. apply release_head.
Qed.

(** C1.  For every list of valid middle codes, a run of the generator in
    which the output file can be created and written returns without an
    error and leaves exactly 40 x |middleCodes| x 10000 lines in
    [phonedict.txt]; 40 is the length of the flattened prefix list, made of
    20 Mobile, 11 Unicom and 9 Telecom prefixes. *)
Theorem generator_line_count (middleCodes : list string) (w : World) :
  Forall valid_code middleCodes -> io_ok w ->
  exists w',
    generatePhoneNumbers middleCodes w = Some (None, w')
    /\ Z.of_nat (length (file_lines (contents outputPath w')))
       = (40 * Z.of_nat (length middleCodes) * 10000)%Z
    /\ length allSegments = 40%nat
    /\ length crawledMobile = 20%nat /\ length crawledUnicom = 11%nat
    /\ length crawledTelecom = 9%nat.
Proof.
  intros Hv Hio.
  destruct (generatePhoneNumbers_ok middleCodes w Hio) as (w' & E & Hc & _).
  exists w'. split; [exact E|]. split; [|repeat split].
  rewrite Hc, file_lines_unlines by (apply numbers_all_digits; exact Hv).
  rewrite numbers_length.
  replace (length allSegments) with 40%nat by reflexivity. lia.
Qed.

(** C2.  After such a run every line of [phonedict.txt] matches
    [^\d{11}$] and is prefix, middle code and suffix one after the other,
    for a prefix of the fixed list, a middle code of the list given and a
    suffix between 0 and 9999 written in four digits with leading zeros;
    two triples that give the same line are the same triple. *)
Theorem generator_lines_wellformed (middleCodes : list string) (w : World) :
  Forall valid_code middleCodes -> io_ok w ->
  exists w',
    generatePhoneNumbers middleCodes w = Some (None, w')
    /\ (forall l, l ∈ file_lines (contents outputPath w') ->
          Regexp.MatchString elevenDigits l = true
          /\ exists prefix middle suffix,
               prefix ∈ allSegments /\ middle ∈ middleCodes /\ (0 <= suffix <= 9999)%Z
               /\ l = prefix +:+ middle +:+ Fmt.d04 suffix
               /\ Fmt.d04 suffix = pad4 suffix)
    /\ (forall prefix middle suffix prefix' middle' suffix',
          prefix ∈ allSegments -> prefix' ∈ allSegments ->
          middle ∈ middleCodes -> middle' ∈ middleCodes ->
          (0 <= suffix <= 9999)%Z -> (0 <= suffix' <= 9999)%Z ->
          prefix +:+ middle +:+ Fmt.d04 suffix = prefix' +:+ middle' +:+ Fmt.d04 suffix' ->
          prefix = prefix' /\ middle = middle' /\ suffix = suffix').
Proof.
  intros Hv Hio.
  destruct (generatePhoneNumbers_ok middleCodes w Hio) as (w' & E & Hc & _).
  pose proof allSegments_digits as HS. rewrite Forall_forall in HS.
  pose proof Hv as Hv'. rewrite Forall_forall in Hv'.
  exists w'. split; [exact E|]. split.
  - intros l Hl.
    rewrite Hc, file_lines_unlines in Hl by (apply numbers_all_digits; exact Hv).
    rewrite list_elem_of_In in Hl.
    apply elem_of_numbers in Hl as (seg & m & k & Hs & Hm & Hk & ->).
    rewrite <- list_elem_of_In in Hs, Hm. destruct (HS _ Hs) as [L3 D3].
    pose proof (Hv' _ Hm) as Hvm. apply valid_code_iff in Hvm.
    destruct (number_shape seg m k L3 D3 Hvm Hk) as (_ & L & D).
    split.
    + unfold Regexp.MatchString, elevenDigits. cbn [Regexp.anchored_body].
      rewrite full_match_Repeat_digits, L, D. reflexivity.
    + exists seg, m, k. repeat split; auto; try lia.
      apply (d04_facts k Hk).
  - intros p m s p' m' s' Hp Hp' Hm Hm' Hs Hs' Heq.
    apply (number_inj p m s p' m' s'); try lia.
    + apply (HS _ Hp).
    + apply (HS _ Hp').
    + apply valid_code_iff, Hv', Hm.
    + apply valid_code_iff, Hv', Hm'.
    + exact Heq.
Qed.

(** C3.  The file holds the numbers in the order of the nested loops:
    prefixes outermost, in the order Mobile, Unicom, Telecom of the tables;
    then middle codes in the order given; suffixes innermost, ascending from
    0 to 9999, in four digits with leading zeros.  One number per line. *)
Theorem generator_order (middleCodes : list string) (w : World) :
  io_ok w ->
  exists w',
    generatePhoneNumbers middleCodes w = Some (None, w')
    /\ contents outputPath w'
       = unlines (padded_numbers ((crawledMobile ++ crawledUnicom) ++ crawledTelecom)
                    middleCodes)
    /\ (Forall valid_code middleCodes ->
        file_lines (contents outputPath w')
        = padded_numbers ((crawledMobile ++ crawledUnicom) ++ crawledTelecom) middleCodes)
    /\ (forall i, (0 <= i <= 9999)%Z -> seqZ 0 10000 !! Z.to_nat i = Some i)
    /\ (forall suffix, (0 <= suffix <= 9999)%Z -> Fmt.d04 suffix = pad4 suffix).
Proof.
  intros Hio.
  destruct (generatePhoneNumbers_ok middleCodes w Hio) as (w' & E & Hc & _).
  exists w'. split; [exact E|]. fold allSegments. rewrite <- numbers_padded.
  split; [exact Hc|]. split; [|split].
  - intros Hv. rewrite Hc. apply file_lines_unlines, numbers_all_digits, Hv.
  - intros i Hi. rewrite lookup_seqZ. split; lia.
  - intros k Hk. apply (d04_facts k). lia.
Qed.

End Generator.

Lemma generator_line_count_witness :
  Forall valid_code ["0537"%string] /\ io_ok (quiet_world [] ∅)
  /\ exists w',
       @generatePhoneNumbers Int64 ["0537"%string] (quiet_world [] ∅) = Some (None, w')
       /\ Z.of_nat (length (file_lines (contents outputPath w'))) = 400000%Z.
Proof.
  assert (Hv : Forall valid_code ["0537"%string]) by (repeat constructor).
  split; [exact Hv|]. split; [apply quiet_world_io_ok|].
  destruct (@generator_line_count Int64 ["0537"%string] (quiet_world [] ∅) Hv
              (quiet_world_io_ok [] ∅))
    as (w' & E & L & _).
  exists w'. split; [exact E|exact L].
Defined.

Lemma generator_lines_wellformed_witness :
  Forall valid_code ["0537"; "0100"]%string /\ io_ok (quiet_world [] ∅)
  /\ exists w',
       @generatePhoneNumbers Int32 ["0537"; "0100"]%string (quiet_world [] ∅)
       = Some (None, w')
       /\ forall l, l ∈ file_lines (contents outputPath w') ->
                    Regexp.MatchString elevenDigits l = true.
Proof.
  assert (Hv : Forall valid_code ["0537"; "0100"]%string) by (repeat constructor).
  split; [exact Hv|]. split; [apply quiet_world_io_ok|].
  destruct (@generator_lines_wellformed Int32 ["0537"; "0100"]%string (quiet_world [] ∅) Hv
              (quiet_world_io_ok [] ∅))
    as (w' & E & L & _).
  exists w'. split; [exact E|]. intros l Hl. apply (L l Hl).
Defined.

Lemma generator_order_witness :
  io_ok (quiet_world [] ∅)
  /\ exists w',
    @generatePhoneNumbers Int64 ["0755"%string] (quiet_world [] ∅) = Some (None, w')
    /\ contents outputPath w'
       = unlines (padded_numbers ((crawledMobile ++ crawledUnicom) ++ crawledTelecom)
                    ["0755"%string]).
Proof.
  split; [apply quiet_world_io_ok|].
  destruct (@generator_order Int64 ["0755"%string] (quiet_world [] ∅)
              (quiet_world_io_ok [] ∅))
    as (w' & E & L & _).
  exists w'. split; [exact E|exact L].
Defined.

(** ** A full disk

The last write of a run is that of a [Flush] whose result is dropped. *)

Lemma quiet_disk_quota C : quiet_below (S C) (disk_quota C).
Proof.
  intros t off n H. unfold disk_quota.
  destruct (Nat.leb_spec (off + n) C); [reflexivity|lia].
Qed.

Lemma Flush_full C ofs data b w :
  GenInv (disk_quota C) ofs data b w -> length data = S C -> Bufio.buf b <> [] ->
  exists e b' w', Bufio.Flush b w = Some ((Some e, b'), w') /\ Failed C ofs b' w'.
Proof.
  intros [Ho Hf He Hw Hb Hd] L Hne.
  unfold Bufio.Flush. rewrite He. unfold Bufio.Buffered.
  destruct (Nat.eqb_spec (length (Bufio.buf b)) 0) as [Hz|Hnz].
  { apply nil_length_inv in Hz. contradiction. }
  rewrite <- Hd, length_app in L.
  unfold bind, Os.Write. rewrite Hw. cbn [Os.Name out_file]. rewrite Ho.
  unfold disk_quota at 1.
  destruct (Nat.leb_spec (length (contents outputPath w) + length (Bufio.buf b)) C); [lia|].
  cbn [fault_written]. unfold ret.
  eexists _, _, _. split; [reflexivity|].
  constructor; cbn [Bufio.err]; try discriminate; auto.
  rewrite contents_set_files, length_app, length_take. lia.
Qed.

Lemma Flush_sticky b e w : Bufio.err b = Some e -> Bufio.Flush b w = Some ((Some e, b), w).
Proof. intros E. unfold Bufio.Flush. rewrite E. reflexivity. Qed.

Lemma Failed_emit C ofs b w s : Failed C ofs b w -> Failed C ofs b (emit s w).
Proof. intros [? ? ? ?]. constructor; auto. Qed.

Section DiskFull.
Context `{arch : Arch}.

Lemma write_number_last C ofs data total phone st w :
  GenInv (disk_quota C) ofs data (writer st) w ->
  (length data + length (line phone) = S C)%nat ->
  (length (line phone) <= Bufio.defaultBufSize)%nat ->
  exists st' w',
    write_number total phone st w = Some ((None, st'), w')
    /\ ((GenInv (disk_quota C) ofs (data ++ line phone) (writer st') w'
         /\ Bufio.buf (writer st') <> [])
        \/ Failed C ofs (writer st') w').
Proof.
  intros I L1 L2. unfold line in *.
  destruct (WriteString_quiet (S C) _ ofs data _ w (phone +:+ newline) I (quiet_disk_quota C))
    as (nn & b1 & w1 & E1 & I1 & Hne); rewrite <- ?length_to_bytes; [lia|lia|].
  assert (Hb1 : Bufio.buf b1 <> []).
  { apply Hne. split; [|assumption].
    rewrite !length_to_bytes, len_app. change (len newline) with 1%nat. lia. }
  unfold write_number, bind at 1. rewrite E1. cbn [snd].
  destruct (Z.rem _ _ =? 0)%Z.
  - destruct (Flush_full C ofs _ b1 w1 I1) as (e & b2 & w2 & E2 & F2); auto.
    { rewrite length_app. lia. }
    unfold bind. rewrite E2. unfold Print, ret.
    eexists _, _. split; [reflexivity|]. right. apply Failed_emit. exact F2.
  - eexists _, _. split; [reflexivity|]. left. split; assumption.
Qed.

(** The disk has room for all the numbers but the last byte. *)
Lemma generatePhoneNumbers_disk_full middleCodes w :
  middleCodes <> [] ->
  Forall (fun m => Regexp.MatchString validRegex m = true) middleCodes ->
  oracle w = disk_quota (length (unlines (numbers allSegments middleCodes)) - 1) ->
  exists w',
    generatePhoneNumbers middleCodes w = Some (None, w')
    /\ S (length (contents outputPath w')) = length (unlines (numbers allSegments middleCodes))
    /\ open_files w' = open_files w.
Proof.
  intros Hne Hvalid Ho.
  set (all := numbers allSegments middleCodes) in *.
  destruct (exists_last (l := all)) as (init & last & Hall).
  { intros E. apply (f_equal (@length _)) in E. subst all.
    rewrite numbers_length in E. destruct middleCodes; [congruence|]. discriminate E. }
  assert (Hlast : len last = 11%nat).
  { assert (Hin : In last all) by (rewrite Hall; apply in_or_app; right; left; reflexivity).
    apply elem_of_numbers in Hin as (seg & m & k & Hs & Hm & Hk & ->).
    pose proof allSegments_digits as HS. rewrite Forall_forall in HS.
    rewrite <- list_elem_of_In in Hs. destruct (HS _ Hs) as [L3 D3].
    rewrite Forall_forall in Hvalid. rewrite <- list_elem_of_In in Hm.
    apply (number_shape seg m k L3 D3 (Hvalid _ Hm) Hk). }
  set (C := (length (unlines all) - 1)%nat) in *.
  assert (HC : S C = (length (unlines init) + length (line last))%nat).
  { subst C. rewrite Hall, unlines_app, length_app.
    change (unlines [last]) with (line last ++ []). rewrite app_nil_r, length_line. lia. }
  unfold generatePhoneNumbers.
  rewrite (io_bind _ _ _ _ _ (Create_ok _ _ ltac:(rewrite Ho; reflexivity))).
  set (total := wrap _).
  unfold Print at 1 2 3. unfold bind at 1 2 3.
  set (w1 := emit _ _).
  fold allSegments. fold all.
  set (st0 := {| writer := _; generatedCount := _ |}).
  assert (I0 : GenInv (disk_quota C) (outputPath :: open_files w) [] (writer st0) w1).
  { constructor; try reflexivity.
    - exact Ho.
    - subst st0. cbn [writer Bufio.NewWriter Bufio.buf length]. lia.
    - subst w1 st0. cbn [writer Bufio.NewWriter Bufio.buf]. rewrite app_nil_r.
      unfold contents. cbn [files emit set_open_files set_files].
      rewrite lookup_insert_eq. reflexivity. }
  unfold bind at 1. rewrite segment_loop_flat. fold all. rewrite Hall, write_numbers_app.
  destruct (write_numbers_quiet _ _ _ total init _ _ _ I0 (quiet_disk_quota C))
    as (st1 & w2 & E1 & I1).
  { cbn [length]. rewrite length_line in HC. lia. }
  unfold bind at 1. rewrite E1. cbn [app] in I1.
  cbn [write_numbers]. unfold bind at 1.
  destruct (write_number_last C _ _ total last st1 w2 I1) as (st2 & w3 & E2 & F2).
  { lia. }
  { rewrite length_line, Hlast, defaultBufSize_eq. lia. }
  rewrite E2. unfold ret at 1.
  unfold Print at 1. unfold bind at 1 2. unfold ret at 1.
  assert (exists r b' w', Bufio.Flush (writer st2) (emit
            ("✅ Generation completed! Actual total numbers generated: "
             +:+ Fmt.d (generatedCount st2) +:+ newline) w3) = Some ((r, b'), w')
          /\ length (contents outputPath w') = C /\ open_files w' = outputPath :: open_files w)
    as (r & b' & w' & E3 & L3 & O3).
  { destruct F2 as [[I2 B2]|F2].
    - match goal with |- context [emit ?s w3] =>
        destruct (Flush_full C _ _ _ _ (GenInv_Print _ _ _ _ _ s I2)) as (e & b' & w' & E & F);
          [rewrite length_app; lia|exact B2|]
      end.
      exists (Some e), b', w'. destruct F. auto.
    - destruct (Bufio.err (writer st2)) as [e|] eqn:Ee; [|destruct F2; congruence].
      rewrite (Flush_sticky _ _ _ Ee). eexists _, _, _. split; [reflexivity|].
      destruct F2. auto. }
  unfold bind at 1. rewrite E3.
  unfold Os.Close, bind, sys, ret. cbn [Os.Name].
  eexists. split; [reflexivity|]. split.
  - change (contents outputPath _) with (contents outputPath w'). rewrite L3.
    rewrite unlines_app, length_app.
    change (unlines [last]) with (line last ++ []). rewrite app_nil_r. lia.
  - cbn [open_files set_open_files tick]. rewrite O3. apply release_head.
Qed.

(** C9, at the input where the code departs from it.  The middle codes
    are [0537] and the disk has room for 4799999 of the 4800000 bytes of the
    output.  The write that fails is the one of the last [writer.Flush()],
    whose result the loop drops: [generatePhoneNumbers] returns no error,
    and the file is one byte short. *)
Theorem flush_error_unreported :
  exists w',
    generatePhoneNumbers ["0537"%string] disk_full_world = Some (None, w')
    /\ Z.of_nat (length (contents outputPath w')) = 4799999%Z
    /\ Z.of_nat (length (unlines (numbers allSegments ["0537"%string]))) = 4800000%Z
    /\ open_files w' = [].
Proof.
  assert (Hv : Forall valid_code ["0537"%string]) by (repeat constructor).
  assert (HL : length (unlines (numbers allSegments ["0537"%string]))
               = Z.to_nat 4800000).
  { rewrite (length_unlines 11) by (apply numbers_len; exact Hv).
    rewrite numbers_length. replace (length allSegments) with 40%nat by reflexivity.
    cbn [length]. lia. }
  destruct (generatePhoneNumbers_disk_full ["0537"%string] disk_full_world)
    as (w' & E & Hlen & Hopen).
  - discriminate.
  - apply Forall_forall. intros m Hm. apply valid_code_iff.
    rewrite Forall_forall in Hv. auto.
  - rewrite HL. replace (Z.to_nat 4800000 - 1)%nat with (Z.to_nat 4799999) by lia.
    reflexivity.
  - exists w'. split; [exact E|]. rewrite HL in Hlen |- *.
    split; [lia|]. split; [lia|exact Hopen].
Qed.

End DiskFull.

(** ** Every exit path

These hold for every oracle. *)



(** Once the string fits or the writer has failed, the loop is over. *)
Lemma WriteString_loop_done fuel b p nn w :
  Bufio.err b <> None \/ (length p <= Bufio.Available b)%nat ->
  Bufio.WriteString_loop fuel b p nn w = Some ((b, p, nn), w).
Proof.
  intros H.
  assert (C : (Bufio.Available b <? length p)%nat && bool_decide (Bufio.err b = None) = false).
  { destruct H as [H|H].
    - rewrite bool_decide_eq_false_2 by exact H. apply andb_false_r.
    - apply Nat.ltb_ge in H. rewrite H. reflexivity. }
  destruct fuel; cbn [Bufio.WriteString_loop]; rewrite C; reflexivity.
Qed.



Section ExitPaths.
Context `{arch : Arch}.




End ExitPaths.

(** ** Manual entry *)

Lemma filter_filter_ne (acc : list string) c (l : list string) :
  filter (fun y => y ∉ acc ++ [c]) l = filter (fun y => y ∉ acc) (filter (fun y => y <> c) l).
Proof.
  induction l as [|x l IH]; [reflexivity|].
  rewrite (filter_cons (fun y => y <> c)). rewrite filter_cons.
  destruct (decide (x ∉ acc ++ [c])) as [H|H]; destruct (decide (x <> c)) as [H1|H1].
  - rewrite filter_cons. destruct (decide (x ∉ acc)) as [H2|H2]; [f_equal; exact IH|].
    exfalso. apply H. apply elem_of_app. left. apply dec_stable. exact H2.
  - exfalso. apply H. apply elem_of_app. right. apply dec_stable in H1. subst. constructor.
  - rewrite filter_cons. destruct (decide (x ∉ acc)) as [H2|H2]; [|exact IH].
    exfalso. apply H. intros [?|Hc%list_elem_of_singleton]%elem_of_app; auto.
  - exact IH.
Qed.

Lemma filter_ne_redundant (acc : list string) c (l : list string) :
  c ∈ acc ->
  filter (fun y => y ∉ acc) (filter (fun y => y <> c) l) = filter (fun y => y ∉ acc) l.
Proof.
  intros Hc. induction l as [|x l IH]; [reflexivity|].
  rewrite (filter_cons (fun y => y <> c)).
  destruct (decide (x <> c)) as [H1|H1].
  - rewrite !filter_cons. destruct (decide (x ∉ acc)); [f_equal|]; exact IH.
  - apply dec_stable in H1. subst x. rewrite IH, filter_cons.
    destruct (decide (c ∉ acc)); [contradiction|reflexivity].
Qed.

(** The loop keeps, after [validCodes], the valid trimmed codes it has not
    seen, in the order of their first occurrence. *)
Lemma inputMiddleCodes_loop_spec rawCodes : forall validCodes seen,
  (forall c, default false (seen !! c) = true <-> c ∈ validCodes) ->
  fst (inputMiddleCodes_loop rawCodes validCodes seen)
  = validCodes ++ filter (fun y => y ∉ validCodes)
      (first_seen (filter valid_code (map Strings.TrimSpace rawCodes))).
Proof.
  induction rawCodes as [|raw rest IH]; intros acc seen Hseen.
  - cbn. rewrite app_nil_r. reflexivity.
  - cbn [inputMiddleCodes_loop map]. rewrite filter_cons.
    set (code := Strings.TrimSpace raw).
    destruct (decide (valid_code code)) as [Hv|Hv].
    + apply valid_code_iff in Hv. rewrite Hv. cbn [andb first_seen].
      rewrite filter_cons.
      destruct (default false (seen !! code)) eqn:Es; cbn [negb].
      * apply Hseen in Es. destruct (decide (code ∉ acc)); [contradiction|].
        rewrite IH by exact Hseen. rewrite filter_ne_redundant by exact Es. reflexivity.
      * assert (Hn : code ∉ acc).
        { intros Hin. apply Hseen in Hin. congruence. }
        destruct (decide (code ∉ acc)); [|contradiction].
        rewrite IH.
        -- rewrite <- app_assoc. cbn [app]. rewrite filter_filter_ne. reflexivity.
        -- intros c. destruct (decide (c = code)) as [->|Hne].
           ++ rewrite lookup_insert_eq. cbn. split; [intros _|reflexivity].
              apply elem_of_app. right. constructor.
           ++ rewrite lookup_insert_ne by congruence. rewrite Hseen.
              rewrite elem_of_app, list_elem_of_singleton. tauto.
    + assert (Hf : Regexp.MatchString validRegex code = false).
      { destruct (Regexp.MatchString validRegex code) eqn:E; [|reflexivity].
        apply valid_code_iff in E. contradiction. }
      rewrite Hf. cbn [andb]. apply IH. exact Hseen.
Qed.

Lemma filter_True_id (l : list string) : filter (fun y => y ∉ ([] : list string)) l = l.
Proof.
  induction l as [|x l IH]; [reflexivity|]. rewrite filter_cons.
  destruct (decide (x ∉ [])) as [|H]; [f_equal; exact IH|].
  exfalso. apply H. apply not_elem_of_nil.
Qed.

Lemma inputMiddleCodes_loop_codes input :
  fst (inputMiddleCodes_loop (Strings.Split input ",") [] ∅) = manual_codes input.
Proof.
  rewrite inputMiddleCodes_loop_spec.
  - cbn [app]. apply filter_True_id.
  - intros c. rewrite lookup_empty. cbn. split; [discriminate|].
    intros H. apply not_elem_of_nil in H. contradiction.
Qed.

(** properties of first_seen *)
Lemma elem_of_first_seen x l : x ∈ first_seen l <-> x ∈ l.
Proof.
  induction l as [|y l IH]; [reflexivity|].
  cbn [first_seen]. rewrite !elem_of_cons, list_elem_of_filter, IH.
  destruct (decide (x = y)); tauto.
Qed.

Lemma NoDup_first_seen l : NoDup (first_seen l).
Proof.
  induction l as [|y l IH]; [constructor|].
  cbn [first_seen]. constructor.
  - rewrite list_elem_of_filter. tauto.
  - apply NoDup_filter. exact IH.
Qed.

(** order of first appearance: what comes before a first occurrence stays before it *)
Lemma first_seen_app l1 l2 :
  first_seen (l1 ++ l2) = first_seen l1 ++ filter (fun y => y ∉ l1) (first_seen l2).
Proof.
  induction l1 as [|x l1 IH].
  - cbn. rewrite filter_True_id. reflexivity.
  - cbn [app first_seen]. rewrite IH, filter_app. f_equal. f_equal.
    rewrite list_filter_filter. apply list_filter_iff.
    intros y. rewrite elem_of_cons. tauto.
Qed.

Lemma elem_of_manual_codes input c :
  c ∈ manual_codes input
  <-> valid_code c /\ exists tok, tok ∈ Strings.Split input "," /\ c = Strings.TrimSpace tok.
Proof.
  unfold manual_codes. rewrite elem_of_first_seen, list_elem_of_filter.
  rewrite list_elem_of_In, in_map_iff. split.
  - intros [Hv (tok & <- & Hin)]. split; [exact Hv|]. exists tok.
    rewrite list_elem_of_In. auto.
  - intros [Hv (tok & Hin & ->)]. split; [exact Hv|]. exists tok.
    rewrite <- list_elem_of_In. auto.
Qed.

Lemma Forall_valid_manual_codes input : Forall valid_code (manual_codes input).
Proof.
  apply Forall_forall. intros x Hx. unfold manual_codes in Hx.
  apply elem_of_first_seen, list_elem_of_filter in Hx. tauto.
Qed.

Lemma inputMiddleCodes_spec w :
  inputMiddleCodes w
  = Some (manual_result (hd EmptyString (stdin w)), next_line (emit manual_prompt w)).
Proof.
  unfold inputMiddleCodes, manual_result, bind, Print, Scan, Text, ret. wsimpl.
  fold manual_prompt.
  destruct (String.eqb _ _); [reflexivity|].
  rewrite <- inputMiddleCodes_loop_codes.
  destruct (inputMiddleCodes_loop _ _ _) as [[|c codes] seen]; reflexivity.
Qed.

Lemma manual_result_valid line codes :
  manual_result line = (codes, None) -> codes <> [] /\ Forall valid_code codes.
Proof.
  unfold manual_result. destruct (String.eqb _ _); [discriminate|].
  pose proof (Forall_valid_manual_codes (Strings.TrimSpace line)) as V.
  destruct (manual_codes _) as [|c l]; [discriminate|].
  intros [= <-]. split; [discriminate|exact V].
Qed.

(** C6.  Manual entry splits the trimmed line on commas, trims every
    piece, keeps exactly the pieces that match [^\d{4}$] and drops
    repetitions, each code staying where it is seen first.  0537 is valid;
    537, 05a7, 05377 and the empty string are not.  The line
    [0537,0100,0537, 0210] gives 0537, 0100, 0210. *)
Theorem manual_entry_codes :
  (forall (w : World) (line : string) (rest : list string),
     stdin w = line :: rest ->
     Strings.TrimSpace line <> EmptyString ->
     manual_codes (Strings.TrimSpace line) <> [] ->
     exists w',
       inputMiddleCodes w = Some ((manual_codes (Strings.TrimSpace line), None), w')
       /\ stdin w' = rest)
  /\ (forall input,
        manual_codes input
        = first_seen (filter valid_code (map Strings.TrimSpace (Strings.Split input ","))))
  /\ (forall input c,
        c ∈ manual_codes input
        <-> valid_code c
            /\ exists tok, tok ∈ Strings.Split input "," /\ c = Strings.TrimSpace tok)
  /\ (forall input, NoDup (manual_codes input))
  /\ (forall l1 l2 : list string,
        first_seen (l1 ++ l2) = first_seen l1 ++ filter (fun y => y ∉ l1) (first_seen l2))
  /\ (forall s, valid_code s <-> Regexp.MatchString validRegex s = true)
  /\ (valid_code "0537" /\ ~ valid_code "537" /\ ~ valid_code "05a7"
      /\ ~ valid_code "05377" /\ ~ valid_code "")
  /\ (forall (w : World) (rest : list string),
        stdin w = "0537,0100,0537, 0210"%string :: rest ->
        exists w',
          inputMiddleCodes w = Some ((["0537"; "0100"; "0210"]%string, None), w')).
Proof.
  split; [|split; [|split; [|split; [|split; [|split; [|split]]]]]].
  - intros w line rest Hin Hne Hcodes.
    rewrite inputMiddleCodes_spec, Hin. cbn [hd]. unfold manual_result.
    destruct (String.eqb_spec (Strings.TrimSpace line) "") as [E|_]; [contradiction|].
    destruct (manual_codes (Strings.TrimSpace line)) as [|c l] eqn:E; [contradiction|].
    eexists. split; [reflexivity|]. wsimpl. rewrite Hin. reflexivity.
  - reflexivity.
  - apply elem_of_manual_codes.
  - intros input. apply NoDup_first_seen.
  - apply first_seen_app.
  - intros s. symmetry. apply valid_code_iff.
  - unfold valid_code. repeat split; try reflexivity; discriminate.
  - intros w rest Hin. rewrite inputMiddleCodes_spec, Hin. eexists. reflexivity.
Qed.

Lemma manual_entry_codes_witness :
  exists w',
    inputMiddleCodes (quiet_world ["0537,0100,0537, 0210"%string] ∅)
    = Some ((["0537"; "0100"; "0210"]%string, None), w')
    /\ stdin w' = [].
Proof.
  apply (proj1 manual_entry_codes
           (quiet_world ["0537,0100,0537, 0210"%string] ∅) "0537,0100,0537, 0210" []).
  - reflexivity.
  - discriminate.
  - discriminate.
Defined.

(** ** The configuration file *)

Lemma loadConfig_filter_spec codes : forall validCodes w,
  loadConfig_filter codes validCodes w
  = Some (validCodes ++ filter valid_code codes,
          emits (map invalid_code_warning (filter (fun c => ~ valid_code c) codes)) w).
Proof.
  induction codes as [|code rest IH]; intros acc w.
  - cbn. rewrite app_nil_r. reflexivity.
  - cbn [loadConfig_filter]. rewrite !filter_cons.
    destruct (decide (valid_code code)) as [Hv|Hv].
    + pose proof Hv as Hm. apply valid_code_iff in Hm. rewrite Hm.
      destruct (decide (~ valid_code code)); [contradiction|].
      rewrite IH, <- app_assoc. reflexivity.
    + destruct (Regexp.MatchString validRegex code) eqn:E.
      { apply valid_code_iff in E. contradiction. }
      destruct (decide (~ valid_code code)); [|contradiction].
      unfold bind, Print. rewrite IH. reflexivity.
Qed.

Section Config.
Context `{json : JSON}.

Lemma loadConfig_existing w data :
  files w !! configPath = Some data ->
  no_fault w (SysStat configPath) -> no_fault w (SysOpen configPath) ->
  no_fault w (SysRead configPath) ->
  exists w',
    loadConfig w
    = Some (match Decode data with
            | (cfg, Some cause) => (cfg, Some (ConfigParseError cause))
            | (cfg, None) => ({| MiddleCodes := filter valid_code (MiddleCodes cfg) |}, None)
            end, w')
    /\ Console (match Decode data with
                | (cfg, Some _) => []
                | (cfg, None) =>
                  map invalid_code_warning (filter (fun c => ~ valid_code c) (MiddleCodes cfg))
                end) w w'
    /\ stdin w' = stdin w /\ token w' = token w.
Proof.
  intros Hf Hstat Hopen Hread.
  unfold loadConfig.
  rewrite (io_bind _ _ _ _ _ (Stat_existing _ _ _ Hf Hstat)).
  rewrite (io_bind _ _ _ _ _ (Open_existing _ (tick w) _ Hf Hopen)).
  unfold Decoder_Decode, bind. rewrite ReadAll_ok by exact Hread.
  unfold contents. cbn [files tick set_open_files]. rewrite Hf. cbn [default from_option].
  unfold ret at 1, id.
  destruct (Decode data) as [cfg [cause|]].
  - unfold ret at 1. rewrite Close_spec. unfold ret.
    eexists. split; [reflexivity|]. split; [|split; reflexivity].
    constructor; cbn; rewrite ?app_nil_r, ?String.eqb_refl; reflexivity.
  - rewrite loadConfig_filter_spec. cbn [app].
    unfold ret at 1. rewrite Close_spec. unfold ret.
    eexists. split; [reflexivity|].
    match goal with |- context [emits ?m ?w0] =>
      destruct (emits_Console m w0) as [H1 H2 H3 H4];
      destruct (emits_stdin m w0) as [H5 H6]
    end.
    split; [|split]; [constructor|..]; wsimpl; try congruence.
    rewrite H3. apply release_head.
Qed.

(** Whatever the files and the failures, a configuration that [loadConfig]
    returns without an error holds valid codes only. *)
Lemma loadConfig_valid w cfg w' :
  loadConfig w = Some ((cfg, None), w') -> Forall valid_code (MiddleCodes cfg).
Proof.
  unfold loadConfig, bind, ret. intros H.
  destruct (Os.Stat configPath w) as [[[err|] w1]|]; [| |discriminate].
  - destruct (IsNotExist err); [|discriminate].
    destruct (Print _ w1) as [[_ w2]|]; [|discriminate].
    destruct (MarshalIndent _ _ _) as [jsonData|e]; [|discriminate].
    destruct (Os.WriteFile _ _ w2) as [[[e|] w3]|]; try discriminate.
    unfold Print in H. injection H as <- _. exact defaultConfig_valid.
  - destruct (Os.Open configPath w1) as [[[file|e] w2]|]; try discriminate.
    destruct (Decoder_Decode file _ w2) as [[[config [e|]] w3]|]; try discriminate;
      rewrite ?loadConfig_filter_spec in H;
      destruct (Os.Close file _) as [[? w4]|]; try discriminate.
    injection H as <- _. apply Forall_valid_filter.
Qed.

Lemma loadConfig_absent w data :
  files w !! configPath = None ->
  no_fault w (SysStat configPath) -> no_fault w (SysCreate configPath) ->
  (forall off n, no_fault w (SysWrite configPath off n)) ->
  no_fault w (SysClose configPath) ->
  MarshalIndent defaultConfig "" "  " = inl data ->
  exists w',
    loadConfig w = Some ((defaultConfig, None), w')
    /\ files w' = <[configPath := data]> (files w)
    /\ stdout w' = stdout w ++ stdout_of_created_config
    /\ open_files w' = open_files w /\ oracle w' = oracle w
    /\ stdin w' = stdin w /\ token w' = token w.
Proof.
  intros Hf Hstat Hcreate Hwrite Hclose Hm.
  unfold loadConfig.
  rewrite (io_bind _ _ _ _ _ (Stat_absent _ _ Hf Hstat)).
  cbn [IsNotExist]. unfold Os.WriteFile, Println, Print, bind. rewrite Hm.
  rewrite Create_ok by apply Hcreate.
  unfold Os.Write. cbn [Os.Name]. wsimpl. rewrite Hwrite.
  rewrite Close_spec. wsimpl. rewrite Hclose. cbn [fmap option_fmap option_map].
  unfold ret.
  eexists. split; [reflexivity|]. wsimpl.
  unfold contents. wsimpl. rewrite lookup_insert_eq. cbn [default from_option app]. unfold id.
  rewrite insert_insert_eq, release_head, <- !app_assoc.
  repeat split; reflexivity.
Qed.

Lemma round_choice_1 w :
  Strings.TrimSpace (hd EmptyString (stdin w)) = "1"%string ->
  selectMiddleCodes_round w
  = match loadConfig (next_line (emit option_prompt w)) with
    | Some ((config, Some err), w1) =>
      Some (Again, emit ("Config file processing failed: " +:+ Error err +:+ newline) w1)
    | Some ((config, None), w1) =>
      let codes := config_codes_or_default (MiddleCodes config) in
      Some (Return (codes, None),
            emit ("Successfully read " +:+ Fmt.d (Z.of_nat (length codes))
                  +:+ " 4-digit middle codes from config file: "
                  +:+ Fmt.v_strings codes +:+ newline)
              (match MiddleCodes config with
               | [] => emit ("Warning: middleCodes in config.json is empty, using default middle code [0537]" +:+ newline) w1
               | _ => w1
               end))
    | None => None
    end.
Proof.
  intros Hch.
  unfold selectMiddleCodes_round, bind, Print, Scan, Text, ret.
  fold option_prompt.
  change (token (next_line (emit option_prompt w))) with (hd EmptyString (stdin w)).
  rewrite Hch. cbn [String.eqb Ascii.eqb Bool.eqb].
  destruct (loadConfig _) as [[[config [err|]] w1]|]; try reflexivity.
  destruct (MiddleCodes config); reflexivity.
Qed.

(** C5.  When [config.json] exists and is decoded without an error,
    [loadConfig] keeps the entries that match [^\d{4}$], in their order,
    and prints one warning for each of the others; when no entry is kept
    the driver goes on with the single code 0537, otherwise with the
    entries kept. *)
Theorem config_codes_filtered (w : World) (choice : string) (rest : list string)
    (data : bytes) (cfg : Config) :
  stdin w = choice :: rest -> Strings.TrimSpace choice = "1"%string ->
  files w !! configPath = Some data -> config_readable w ->
  Decode data = (cfg, None) ->
  let kept := filter valid_code (MiddleCodes cfg) in
  let warnings :=
    map invalid_code_warning (filter (fun c => ~ valid_code c) (MiddleCodes cfg)) in
  (exists w1,
     loadConfig (next_line (emit option_prompt w))
     = Some (({| MiddleCodes := kept |}, None), w1)
     /\ stdout w1 = stdout w ++ option_prompt :: warnings)
  /\ (exists w',
        selectMiddleCodes_round w
        = Some (Return (config_codes_or_default kept, None), w')
        /\ stdin w' = rest)
  /\ (kept = [] -> config_codes_or_default kept = ["0537"%string])
  /\ (kept <> [] -> config_codes_or_default kept = kept)
  /\ (forall c, valid_code c <-> Regexp.MatchString validRegex c = true).
Proof.
  intros Hin Hch Hf (Hs & Ho & Hr) Hd kept warnings.
  destruct (loadConfig_existing (next_line (emit option_prompt w)) data Hf Hs Ho Hr)
    as (w1 & E1 & C1 & I1 & _).
  rewrite Hd in E1, C1. fold kept in E1. fold warnings in C1.
  split; [|split; [|split; [|split]]].
  - exists w1. split; [exact E1|]. destruct C1 as [-> _ _ _]. wsimpl.
    rewrite <- app_assoc. reflexivity.
  - rewrite round_choice_1 by (rewrite Hin; exact Hch).
    rewrite E1. cbn [MiddleCodes]. eexists. split; [reflexivity|].
    destruct kept; wsimpl; rewrite I1; wsimpl; rewrite Hin; reflexivity.
  - intros ->. reflexivity.
  - destruct kept; [contradiction|reflexivity].
  - intros c. symmetry. apply valid_code_iff.
Qed.


End Config.

Lemma default_config_encoding :
  @MarshalIndent RefJSON.codec defaultConfig "" "  " = inl (to_bytes default_config_text).
Proof. reflexivity. Qed.

Lemma default_config_decoding :
  @Decode RefJSON.codec (to_bytes default_config_text) = (defaultConfig, None).
Proof. vm_compute. reflexivity. Qed.

(** C4.  When [config.json] does not exist and can be created,
    [loadConfig] returns the default configuration, whose middle codes are
    0537, 0100, 0210 and 0755, and leaves in [config.json] the indented
    JSON text of it: an object with the one member [middleCodes], an array
    of exactly these four strings, one a line.  A second run reads the
    file back and obtains the same four codes, the file staying as it
    is.  The codec is the reference codec. *)
Theorem default_config_created (w : World) :
  files w !! configPath = None ->
  config_creatable w -> config_readable w ->
  exists w1,
    @loadConfig RefJSON.codec w = Some ((defaultConfig, None), w1)
    /\ MiddleCodes defaultConfig = ["0537"; "0100"; "0210"; "0755"]%string
    /\ files w1 = <[configPath := to_bytes default_config_text]> (files w)
    /\ first_value (to_bytes default_config_text) = Some (default_config_value, EmptyString)
    /\ well_formed_json (to_bytes default_config_text) = true
    /\ exists w2,
         @loadConfig RefJSON.codec w1
         = Some (({| MiddleCodes := ["0537"; "0100"; "0210"; "0755"]%string |}, None), w2)
         /\ files w2 = files w1.
Proof.
  intros Hf (Hs & Hc & Hw & Hcl) (_ & Ho & Hr).
  destruct (@loadConfig_absent RefJSON.codec w _ Hf Hs Hc Hw Hcl default_config_encoding)
    as (w1 & E1 & F1 & _ & _ & O1 & _).
  exists w1. split; [exact E1|]. split; [reflexivity|]. split; [exact F1|].
  split; [vm_compute; reflexivity|]. split; [vm_compute; reflexivity|].
  assert (Hf1 : files w1 !! configPath = Some (to_bytes default_config_text)).
  { rewrite F1. apply lookup_insert_eq. }
  destruct (@loadConfig_existing RefJSON.codec w1 _ Hf1) as (w2 & E2 & C2 & _).
  1-3: unfold no_fault; rewrite O1; assumption.
  exists w2. rewrite default_config_decoding in E2, C2.
  split; [exact E2|]. apply C2.
Qed.

Lemma default_config_created_witness :
  exists w1,
    @loadConfig RefJSON.codec (quiet_world [] {[ outputPath := to_bytes "13405370000" ]})
    = Some ((defaultConfig, None), w1)
    /\ files w1 !! configPath = Some (to_bytes default_config_text)
    /\ files w1 !! outputPath = Some (to_bytes "13405370000")
    /\ exists w2,
         @loadConfig RefJSON.codec w1
         = Some (({| MiddleCodes := ["0537"; "0100"; "0210"; "0755"]%string |}, None), w2).
Proof.
  destruct (default_config_created (quiet_world [] {[ outputPath := to_bytes "13405370000" ]}))
    as (w1 & E1 & _ & F1 & _ & _ & w2 & E2 & _).
  - apply lookup_singleton_ne. discriminate.
  - apply quiet_world_creatable.
  - apply quiet_world_readable.
  - exists w1. split; [exact E1|]. rewrite F1.
    split; [apply lookup_insert_eq|].
    split; [rewrite lookup_insert_ne by discriminate; apply lookup_singleton_eq|].
    exists w2. exact E2.
Defined.

Lemma config_codes_filtered_witness :
  exists w1,
    @loadConfig RefJSON.codec
      (next_line (emit option_prompt
                    (quiet_world ["1"%string] {[ configPath := sample_config ]})))
    = Some (({| MiddleCodes := ["0537"; "0100"]%string |}, None), w1)
    /\ stdout w1 = [option_prompt; invalid_code_warning "12a4"; invalid_code_warning "99999"].
Proof.
  destruct (@config_codes_filtered RefJSON.codec
              (quiet_world ["1"%string] {[ configPath := sample_config ]})
              "1" [] sample_config
              {| MiddleCodes := ["0537"; "12a4"; "0100"; "99999"]%string |})
    as ((w1 & E1 & O1) & _).
  - reflexivity.
  - reflexivity.
  - apply lookup_singleton_eq.
  - apply quiet_world_readable.
  - vm_compute. reflexivity.
  - exists w1. split; [exact E1|exact O1].
Defined.





(** ** The driver *)

Section Driver.
Context `{json : JSON}.

Lemma round_choice_2 w :
  Strings.TrimSpace (hd EmptyString (stdin w)) = "2"%string ->
  selectMiddleCodes_round w
  = let w1 := next_line (emit manual_prompt (next_line (emit option_prompt w))) in
    match manual_result (hd EmptyString (tail (stdin w))) with
    | (_, Some err) => Some (Again, emit ("Input error: " +:+ Error err +:+ newline) w1)
    | (codes, None) =>
      Some (Return (codes, None),
            emit ("Manual input successful, total " +:+ Fmt.d (Z.of_nat (length codes))
                  +:+ " 4-digit middle codes: " +:+ Fmt.v_strings codes +:+ newline) w1)
    end.
Proof.
  intros Hch.
  unfold selectMiddleCodes_round, bind, Print, Scan, Text, ret.
  fold option_prompt.
  change (token (next_line (emit option_prompt w))) with (hd EmptyString (stdin w)).
  rewrite Hch. cbn [String.eqb Ascii.eqb Bool.eqb].
  rewrite inputMiddleCodes_spec.
  change (stdin (next_line (emit option_prompt w))) with (tail (stdin w)).
  destruct (manual_result _) as [codes [err|]]; reflexivity.
Qed.

(** A round that returns, returns a non-empty list of valid codes and no
    error. *)
Lemma selectMiddleCodes_round_valid w codes e w' :
  selectMiddleCodes_round w = Some (Return (codes, e), w') ->
  e = None /\ codes <> [] /\ Forall valid_code codes.
Proof.
  unfold selectMiddleCodes_round, bind, Print, Scan, Text, ret. wsimpl.
  destruct (String.eqb _ "1").
  - destruct (loadConfig _) as [[[cfg [err|]] w1]|] eqn:E; try discriminate.
    apply loadConfig_valid in E.
    destruct (MiddleCodes cfg) as [|c l] eqn:Ec; cbn [length Nat.eqb]; unfold Println, Print, bind, ret.
    + intros [= <- <- _]. repeat split; [discriminate|repeat constructor].
    + intros [= <- <- _]. repeat split; [discriminate|exact E].
  - destruct (String.eqb _ "2").
    + rewrite inputMiddleCodes_spec.
      destruct (manual_result _) as [l [err|]] eqn:E; [discriminate|].
      intros [= <- <- _]. split; [reflexivity|]. eapply manual_result_valid. exact E.
    + unfold Println, Print, bind, ret. discriminate.
Qed.

Lemma selectMiddleCodes_loop_valid fuel : forall w codes e w',
  selectMiddleCodes_loop fuel w = Some ((codes, e), w') ->
  e = None /\ codes <> [] /\ Forall valid_code codes.
Proof.
  induction fuel as [|fuel IH]; intros w codes e w'; [discriminate|].
  cbn [selectMiddleCodes_loop]. unfold bind.
  destruct (selectMiddleCodes_round w) as [[[[l err]|] w1]|] eqn:E; [| |discriminate].
  - intros [= <- <- <-]. eapply selectMiddleCodes_round_valid. exact E.
  - apply IH.
Qed.

(** C7.  Manual entry returns [EmptyInputError] when the line is empty
    or blank, and [NoValidCodesError] when no piece of it is a valid code.
    In both cases the driver prints the error and goes round its loop
    again: it asks for the input method once more. *)
Theorem manual_entry_errors :
  (forall w : World,
     Strings.TrimSpace (hd EmptyString (stdin w)) = EmptyString ->
     exists w', inputMiddleCodes w = Some (([], Some EmptyInputError), w'))
  /\ (forall w : World,
        Strings.TrimSpace (hd EmptyString (stdin w)) <> EmptyString ->
        manual_codes (Strings.TrimSpace (hd EmptyString (stdin w))) = [] ->
        exists w', inputMiddleCodes w = Some (([], Some NoValidCodesError), w'))
  /\ (forall (w : World) (fuel : nat) (choice line : string) (rest : list string),
        stdin w = choice :: line :: rest ->
        Strings.TrimSpace choice = "2"%string ->
        Strings.TrimSpace line = EmptyString \/ manual_codes (Strings.TrimSpace line) = [] ->
        exists err w',
          (err = EmptyInputError \/ err = NoValidCodesError)
          /\ selectMiddleCodes_round w = Some (Again, w')
          /\ stdout w' = stdout w ++
               [option_prompt; manual_prompt; "Input error: " +:+ Error err +:+ newline]
          /\ stdin w' = rest /\ files w' = files w /\ open_files w' = open_files w
          /\ selectMiddleCodes_loop (S fuel) w = selectMiddleCodes_loop fuel w').
Proof.
  split; [|split].
  - intros w Hline. rewrite inputMiddleCodes_spec. unfold manual_result. rewrite Hline.
    eexists. reflexivity.
  - intros w Hline Hcodes. rewrite inputMiddleCodes_spec. unfold manual_result.
    destruct (String.eqb_spec (Strings.TrimSpace (hd EmptyString (stdin w))) "") as [E|_];
      [contradiction|].
    rewrite Hcodes. eexists. reflexivity.
  - intros w fuel choice line rest Hin Hch Hbad.
    assert (exists err, (err = EmptyInputError \/ err = NoValidCodesError)
                        /\ manual_result line = ([], Some err)) as (err & Herr & Hres).
    { unfold manual_result.
      destruct (String.eqb_spec (Strings.TrimSpace line) "") as [E|E].
      - exists EmptyInputError. auto.
      - destruct Hbad as [|Hc]; [contradiction|]. rewrite Hc.
        exists NoValidCodesError. auto. }
    pose proof (round_choice_2 w) as R. rewrite Hin in R. cbn [hd tail] in R.
    rewrite Hres in R. specialize (R Hch). cbv zeta in R.
    exists err. eexists. split; [exact Herr|]. split; [exact R|].
    wsimpl. rewrite Hin. cbn [tail]. rewrite <- !app_assoc.
    split; [reflexivity|]. split; [reflexivity|]. split; [reflexivity|].
    split; [reflexivity|].
    cbn [selectMiddleCodes_loop]. unfold bind. rewrite R. reflexivity.
Qed.

(** C10.  Whatever the input, the files and the failures, when
    [selectMiddleCodes] returns, it returns no error and a list that is
    not empty and whose elements all match [^\d{4}$]. *)
Theorem select_middle_codes_valid (fuel : nat) (w : World) (codes : list string)
    (e : option error) (w' : World) :
  selectMiddleCodes fuel w = Some ((codes, e), w') ->
  e = None /\ codes <> []
  /\ Forall (fun c => Regexp.MatchString validRegex c = true) codes
  /\ Forall valid_code codes.
Proof.
  unfold selectMiddleCodes, bind, Println, Print. intros H.
  apply selectMiddleCodes_loop_valid in H as (He & Hne & Hv).
  split; [exact He|]. split; [exact Hne|]. split; [|exact Hv].
  eapply Forall_impl; [exact Hv|]. intros c. apply valid_code_iff.
Qed.

End Driver.

Lemma manual_entry_errors_witness :
  exists err w',
    (err = EmptyInputError \/ err = NoValidCodesError)
    /\ @selectMiddleCodes_round RefJSON.codec (quiet_world ["2"; "537,05a7"]%string ∅)
       = Some (Again, w')
    /\ stdout w' = [option_prompt; manual_prompt; "Input error: " +:+ Error err +:+ newline].
Proof.
  destruct (proj2 (proj2 (@manual_entry_errors RefJSON.codec))
              (quiet_world ["2"; "537,05a7"]%string ∅) 0%nat "2" "537,05a7" [])
    as (err & w' & Herr & R & O & _).
  - reflexivity.
  - reflexivity.
  - right. reflexivity.
  - exists err, w'. split; [exact Herr|]. split; [exact R|exact O].
Defined.

Lemma select_middle_codes_valid_witness :
  exists w',
    @selectMiddleCodes RefJSON.codec 2 (quiet_world ["x"; "2"; "0537, 0100 ,abc"]%string ∅)
    = Some ((["0537"; "0100"]%string, None), w')
    /\ (@None error = None /\ ["0537"; "0100"]%string <> []
        /\ Forall (fun c => Regexp.MatchString validRegex c = true) ["0537"; "0100"]%string
        /\ Forall valid_code ["0537"; "0100"]%string).
Proof.
  eexists. split.
  - vm_compute. reflexivity.
  - eapply (@select_middle_codes_valid RefJSON.codec 2
              (quiet_world ["x"; "2"; "0537, 0100 ,abc"]%string ∅)).
    vm_compute. reflexivity.
Defined.

(** ** Runs *)

Lemma Run_refl path w : Run path [] w w.
Proof. constructor; try reflexivity. rewrite app_nil_r. reflexivity. Qed.

Lemma Run_trans path m1 m2 w w1 w2 :
  Run path m1 w w1 -> Run path m2 w1 w2 -> Run path (m1 ++ m2) w w2.
Proof.
  intros [A1 A2 A3 A4 A5 A6] [B1 B2 B3 B4 B5 B6].
  constructor; try congruence.
  - rewrite B5, A5, app_assoc. reflexivity.
  - intros p Hp. rewrite B6, A6 by exact Hp. reflexivity.
Qed.

Lemma Run_emit path s w : Run path [s] w (emit s w).
Proof. constructor; reflexivity. Qed.

Lemma Run_silent path w w1 w2 msgs :
  Run path [] w w1 -> Run path msgs w1 w2 -> Run path msgs w w2.
Proof. intros A B. apply (Run_trans path [] msgs w w1 w2 A B). Qed.

Lemma Run_then_silent path w w1 w2 msgs :
  Run path msgs w w1 -> Run path [] w1 w2 -> Run path msgs w w2.
Proof.
  intros A B. rewrite <- (app_nil_r msgs). apply (Run_trans path msgs [] w w1 w2 A B).
Qed.

(** ** The buffered writer, whatever fails *)

Lemma Os_Write_any p w :
  exists n e w',
    Os.Write out_file p w = Some ((n, e), w')
    /\ Run outputPath [] w w'
    /\ contents outputPath w' = contents outputPath w ++ take n p
    /\ (e = None -> n = length p).
Proof.
  unfold Os.Write. cbn [Os.Name out_file].
  destruct (oracle w (clock w) _) as [x|].
  - eexists _, _, _. split; [reflexivity|]. split; [|split; [|discriminate]].
    + constructor; try reflexivity.
      * cbn. rewrite app_nil_r. reflexivity.
      * intros q Hq. cbn. rewrite lookup_insert_ne by congruence. reflexivity.
    + apply contents_set_files.
  - eexists _, _, _. split; [reflexivity|]. split; [|split; [|reflexivity]].
    + constructor; try reflexivity.
      * cbn. rewrite app_nil_r. reflexivity.
      * intros q Hq. cbn. rewrite lookup_insert_ne by congruence. reflexivity.
    + rewrite contents_set_files, firstn_all. reflexivity.
Qed.

Lemma Partial_failed full rest rest' b w :
  Partial full rest b w -> Bufio.err b <> None -> Partial full rest' b w.
Proof. intros [H1 H2 H3] He. constructor; auto. intros E. contradiction. Qed.

Lemma Flush_any full rest b w :
  Partial full rest b w ->
  exists e b' w',
    Bufio.Flush b w = Some ((e, b'), w')
    /\ Partial full rest b' w'
    /\ Run outputPath [] w w'
    /\ (Bufio.err b' = None -> Bufio.buf b' = [])
    /\ (Bufio.err b <> None -> Bufio.err b' <> None).
Proof.
  intros P. pose proof P as [Hw Hp Hd].
  unfold Bufio.Flush. destruct (Bufio.err b) as [e|] eqn:Ee.
  - exists (Some e), b, w. split; [reflexivity|]. split; [exact P|].
    split; [apply Run_refl|]. split; congruence.
  - specialize (Hd eq_refl). unfold Bufio.Buffered.
    destruct (Nat.eqb_spec (length (Bufio.buf b)) 0) as [Hz|Hnz].
    + exists None, b, w. split; [reflexivity|]. split; [exact P|].
      split; [apply Run_refl|]. split; [|congruence].
      intros _. apply nil_length_inv. exact Hz.
    + unfold bind. rewrite Hw.
      destruct (Os_Write_any (Bufio.buf b) w) as (n & e & w' & -> & R & Hc & Hn).
      destruct e as [e|].
      * unfold ret. eexists _, _, _. split; [reflexivity|].
        split; [|split; [exact R|split; [discriminate|congruence]]].
        constructor; cbn [Bufio.wr Bufio.err Bufio.buf]; [reflexivity| |discriminate].
        rewrite Hc. exists (drop n (Bufio.buf b) ++ rest).
        rewrite <- Hd, <- app_assoc, (app_assoc (take n _)), take_drop. reflexivity.
      * rewrite (Hn eq_refl), Nat.ltb_irrefl. unfold ret.
        eexists _, _, _. split; [reflexivity|].
        split; [|split; [exact R|split; [reflexivity|congruence]]].
        rewrite (Hn eq_refl), firstn_all in Hc.
        constructor; cbn [Bufio.wr Bufio.err Bufio.buf]; [reflexivity| |].
        -- rewrite Hc. exists rest. rewrite <- Hd, <- app_assoc. reflexivity.
        -- intros _. rewrite Hc, <- Hd, <- app_assoc. reflexivity.
Qed.

Lemma WriteString_loop_any full rest fuel b p nn w :
  (2 <= fuel)%nat ->
  Partial full (p ++ rest) b w ->
  exists b' p' nn' w',
    Bufio.WriteString_loop fuel b p nn w = Some ((b', p', nn'), w')
    /\ Partial full (p' ++ rest) b' w'
    /\ Run outputPath [] w w'
    /\ (Bufio.err b' = None -> (length p' <= Bufio.Available b')%nat)
    /\ (Bufio.err b <> None -> Bufio.err b' <> None).
Proof.
  intros Hfuel P.
  destruct (Bufio.err b) as [e0|] eqn:Ee.
  { rewrite WriteString_loop_done by (left; congruence).
    eexists _, _, _, _. split; [reflexivity|]. split; [exact P|].
    split; [apply Run_refl|]. split; congruence. }
  destruct (Nat.le_gt_cases (length p) (Bufio.Available b)) as [Hfit|Hlong].
  { rewrite WriteString_loop_done by (right; exact Hfit).
    eexists _, _, _, _. split; [reflexivity|]. split; [exact P|].
    split; [apply Run_refl|]. split; [auto|congruence]. }
  assert (Direct : forall fuel' b1 p1 nn1 w1,
            Partial full (p1 ++ rest) b1 w1 -> Bufio.err b1 = None -> Bufio.buf b1 = [] ->
            exists b' p' nn' w',
              (let* (n, e) := Os.Write (Bufio.wr b1) p1 in
               Bufio.WriteString_loop fuel'
                 {| Bufio.buf := Bufio.buf b1; Bufio.err := e; Bufio.wr := Bufio.wr b1 |}
                 (drop n p1) (nn1 + n)) w1 = Some ((b', p', nn'), w')
              /\ Partial full (p' ++ rest) b' w'
              /\ Run outputPath [] w1 w'
              /\ (Bufio.err b' = None -> (length p' <= Bufio.Available b')%nat)).
  { intros fuel' b1 p1 nn1 w1 [Hw1 Hp1 Hd1] He1 Hb1. specialize (Hd1 He1).
    rewrite Hb1 in Hd1. cbn [app] in Hd1.
    unfold bind. rewrite Hw1.
    destruct (Os_Write_any p1 w1) as (n & e & w' & -> & R & Hc & Hn).
    rewrite WriteString_loop_done.
    2:{ cbn [Bufio.err]. destruct e as [e|]; [left; discriminate|right].
        rewrite (Hn eq_refl), drop_all. cbn [length]. lia. }
    eexists _, _, _, _. split; [reflexivity|]. split; [|split; [exact R|]].
    - constructor; cbn [Bufio.wr Bufio.err Bufio.buf]; [reflexivity| |].
      + rewrite Hc. exists (drop n p1 ++ rest).
        rewrite <- Hd1, <- app_assoc, (app_assoc (take n _)), take_drop. reflexivity.
      + intros _. rewrite Hc, Hb1. cbn [app].
        rewrite <- Hd1, <- app_assoc, (app_assoc (take n _)), take_drop. reflexivity.
    - cbn [Bufio.err]. intros ->. rewrite (Hn eq_refl), drop_all. cbn [length]. lia. }
  destruct fuel as [|[|fuel]]; try lia.
  rewrite WriteString_loop_step by assumption.
  destruct (Nat.eqb_spec (Bufio.Buffered b) 0) as [Hz|Hnz].
  - destruct (Direct (S fuel) b p nn w P Ee) as (b' & p' & nn' & w' & E & P' & R & Hfit').
    { apply nil_length_inv. exact Hz. }
    eexists _, _, _, _. split; [exact E|]. split; [exact P'|]. split; [exact R|].
    split; [exact Hfit'|congruence].
  - cbv zeta. unfold bind.
    set (n := Nat.min (length p) (Bufio.Available b)).
    set (b1 := {| Bufio.buf := Bufio.buf b ++ take n p; Bufio.err := Bufio.err b;
                  Bufio.wr := Bufio.wr b |}).
    assert (P1 : Partial full (drop n p ++ rest) b1 w).
    { destruct P as [Hw Hp Hd]. constructor; [exact Hw|exact Hp|].
      intros _. specialize (Hd Ee). subst b1. cbn [Bufio.buf].
      rewrite <- Hd, <- !app_assoc. f_equal. f_equal.
      rewrite (app_assoc (take n p)), take_drop. reflexivity. }
    destruct (Flush_any full _ b1 w P1) as (e & b2 & w2 & -> & P2 & R2 & Hb2 & _).
    destruct (Bufio.err b2) as [e2|] eqn:Ee2.
    { rewrite WriteString_loop_done by (left; congruence).
      eexists _, _, _, _. split; [reflexivity|]. split; [exact P2|].
      split; [exact R2|]. split; congruence. }
    destruct (Nat.le_gt_cases (length (drop n p)) (Bufio.Available b2)) as [Hfit2|Hlong2].
    { rewrite WriteString_loop_done by (right; exact Hfit2).
      eexists _, _, _, _. split; [reflexivity|]. split; [exact P2|].
      split; [exact R2|]. split; [auto|congruence]. }
    rewrite WriteString_loop_step by assumption.
    replace (Nat.eqb (Bufio.Buffered b2) 0) with true
      by (unfold Bufio.Buffered; rewrite (Hb2 eq_refl); reflexivity).
    destruct (Direct fuel b2 (drop n p) (nn + n)%nat w2 P2 Ee2 (Hb2 eq_refl))
      as (b' & p' & nn' & w' & E & P' & R & Hfit').
    eexists _, _, _, _. split; [exact E|]. split; [exact P'|].
    split; [exact (Run_silent _ _ _ _ _ R2 R)|]. split; [exact Hfit'|congruence].
Qed.

Lemma WriteString_any full rest b s w :
  Partial full (to_bytes s ++ rest) b w ->
  exists r b' w',
    Bufio.WriteString b s w = Some ((r, b'), w')
    /\ Partial full rest b' w'
    /\ Run outputPath [] w w'
    /\ (snd r <> None -> Bufio.err b' <> None).
Proof.
  intros P. unfold Bufio.WriteString, bind.
  destruct (WriteString_loop_any full rest (len s + 2) b (to_bytes s) 0 w)
    as (b1 & p1 & nn & w1 & -> & P1 & R1 & Hfit & _); [lia|exact P|].
  destruct (Bufio.err b1) as [e|] eqn:Ee; unfold ret.
  - eexists _, _, _. split; [reflexivity|].
    split; [|split; [exact R1|]].
    + apply (Partial_failed full (p1 ++ rest)); [exact P1|congruence].
    + intros _. congruence.
  - eexists _, _, _. split; [reflexivity|].
    split; [|split; [exact R1|]].
    + destruct P1 as [Hw Hp Hd]. constructor; cbn [Bufio.wr Bufio.err Bufio.buf]; auto.
      intros _. specialize (Hd Ee). specialize (Hfit eq_refl).
      rewrite Nat.min_l by exact Hfit. rewrite firstn_all.
      rewrite <- Hd, <- !app_assoc. reflexivity.
    + cbn [snd]. congruence.
Qed.

(** ** The generator, whatever fails *)

Section AnyRun.
Context `{arch : Arch}.

Lemma write_number_any full rest total phone st w :
  Partial full (line phone ++ rest) (writer st) w ->
  exists e st' w',
    write_number total phone st w = Some ((e, st'), w')
    /\ Partial full rest (writer st') w'
    /\ match e with
       | Some _ =>
         Bufio.err (writer st') <> None /\ generatedCount st' = generatedCount st
         /\ Run outputPath [] w w'
       | None =>
         generatedCount st' = wrap (generatedCount st + 1)
         /\ Run outputPath
              (if (Z.rem (generatedCount st') 10000 =? 0)%Z
               then [progress (generatedCount st') total] else []) w w'
       end.
Proof.
  intros P. unfold write_number, bind at 1.
  destruct (WriteString_any full rest (writer st) (phone +:+ newline) w P)
    as ([n e] & b1 & w1 & -> & P1 & R1 & He).
  cbn [snd] in *. destruct e as [cause|].
  - unfold ret. eexists _, _, _. split; [reflexivity|]. split; [exact P1|].
    cbn [writer generatedCount]. split; [apply He; discriminate|]. split; [reflexivity|exact R1].
  - destruct (Z.rem _ _ =? 0)%Z eqn:Ez.
    + unfold bind. destruct (Flush_any full rest b1 w1 P1) as (e & b2 & w2 & -> & P2 & R2 & _).
      unfold Print, ret. eexists _, _, _. split; [reflexivity|].
      cbn [writer generatedCount]. rewrite Ez.
      split; [|split; [reflexivity|]].
      * destruct P2 as [H1 H2 H3]. constructor; auto.
      * apply (Run_silent _ _ _ _ _ (Run_silent _ _ _ _ _ R1 R2)). apply Run_emit.
    + unfold ret. eexists _, _, _. split; [reflexivity|].
      cbn [writer generatedCount]. rewrite Ez. split; [exact P1|]. split; [reflexivity|exact R1].
Qed.

Lemma write_numbers_any full total phones : forall rest st w,
  Partial full (unlines phones ++ rest) (writer st) w ->
  exists e st' w' msgs,
    write_numbers total phones st w = Some ((e, st'), w')
    /\ Partial full rest (writer st') w'
    /\ Run outputPath msgs w w'.
Proof.
  induction phones as [|p ps IH]; intros rest st w P.
  - exists None, st, w, []. split; [reflexivity|]. split; [exact P|apply Run_refl].
  - change (unlines (p :: ps)) with (line p ++ unlines ps) in P.
    rewrite <- app_assoc in P.
    cbn [write_numbers]. unfold bind.
    destruct (write_number_any full _ total p st w P) as (e & st1 & w1 & -> & P1 & H1).
    destruct e as [err|].
    + destruct H1 as (He & _ & R1). unfold ret.
      eexists _, _, _, _. split; [reflexivity|]. split; [|exact R1].
      apply (Partial_failed _ _ _ _ _ P1 He).
    + destruct H1 as (_ & R1).
      destruct (IH rest st1 w1 P1) as (e2 & st2 & w2 & msgs & E2 & P2 & R2).
      rewrite E2. eexists _, _, _, _. split; [reflexivity|]. split; [exact P2|].
      exact (Run_trans _ _ _ _ _ _ R1 R2).
Qed.

Lemma generatePhoneNumbers_any (middleCodes : list string) (w : World) :
  exists e w' msgs,
    generatePhoneNumbers middleCodes w = Some (e, w')
    /\ Run outputPath msgs w w'
    /\ match oracle w (clock w) (SysCreate outputPath) with
       | Some _ => e <> None /\ msgs = [] /\ files w' = files w
       | None =>
         contents outputPath w' `prefix_of` unlines (numbers allSegments middleCodes)
         /\ exists rest, msgs = opening_lines middleCodes ++ rest
       end.
Proof.
  unfold generatePhoneNumbers, bind at 1, Os.Create, bind at 1, sys.
  destruct (oracle w (clock w) (SysCreate outputPath)) as [x|].
  - unfold ret. eexists _, _, []. split; [reflexivity|]. split.
    + constructor; try reflexivity. cbn. rewrite app_nil_r. reflexivity.
    + split; [discriminate|]. split; reflexivity.
  - unfold Print at 1 2 3, bind at 1 2 3 4.
    rewrite segment_loop_flat. fold allSegments.
    set (full := unlines (numbers allSegments middleCodes)).
    match goal with |- context [write_numbers ?t ?l ?st ?w0] =>
      set (w0' := w0); set (st0 := st);
      assert (P0 : Partial full (unlines l ++ []) (writer st0) w0')
    end.
    { constructor.
      - reflexivity.
      - subst w0'. unfold contents. wsimpl. rewrite lookup_insert_eq. apply prefix_nil.
      - intros _. subst w0' st0. unfold contents. wsimpl. rewrite lookup_insert_eq.
        cbn [default from_option writer Bufio.NewWriter Bufio.buf app]. unfold id.
        rewrite app_nil_r. reflexivity. }
    match goal with |- context [write_numbers ?t _ st0 w0'] =>
      destruct (write_numbers_any full t _ [] st0 w0' P0) as (e & st1 & w1 & msgs & -> & P1 & R1)
    end.
    assert (exists w2 m2, (match e with
                        | Some _ => ret e
                        | None =>
                          Print ("✅ Generation completed! Actual total numbers generated: "
                                 +:+ Fmt.d (generatedCount st1) +:+ newline) ;;; ret None
                        end) w1 = Some (e, w2) /\ Run outputPath m2 w1 w2
                       /\ contents outputPath w2 = contents outputPath w1)
      as (w2 & m2 & E2 & R2 & C2).
    { destruct e; unfold Print, bind, ret.
      - eexists _, []. split; [reflexivity|]. split; [apply Run_refl|reflexivity].
      - eexists _, _. split; [reflexivity|]. split; [apply Run_emit|reflexivity]. }
    unfold bind at 1. rewrite E2.
    assert (P2 : Partial full [] (writer st1) w2).
    { destruct P1 as [H1 H2 H3]. constructor; rewrite ?C2; auto. }
    unfold bind at 1.
    destruct (Flush_any full [] _ _ P2) as (e3 & b3 & w3 & -> & P3 & R3 & _).
    unfold bind. rewrite Close_spec. unfold ret.
    exists e. eexists. exists (opening_lines middleCodes ++ msgs ++ m2).
    split; [reflexivity|].
    pose proof (Run_then_silent _ _ _ _ _ (Run_trans _ _ _ _ _ _ R1 R2) R3) as [A1 A2 A3 A4 A5 A6].
    subst w0'. wsimpl. split.
    + constructor; wsimpl; try assumption.
      * rewrite A4. apply release_head.
      * rewrite A5, <- !app_assoc. reflexivity.
      * intros p Hp. rewrite A6 by exact Hp. apply lookup_insert_ne. congruence.
    + split; [|eauto]. destruct P3 as [_ H _]. exact H.
Qed.

(** X2.  Whatever the files and the failures, a run of
    [generatePhoneNumbers] reads no input, leaves no file open, and changes
    no file but [phonedict.txt].  When the file cannot be created the run
    returns an error, prints nothing and changes no file at all.  When it
    can, what the file holds at the end is a prefix of the numbers, in
    their order: a failure cuts the output short, it never puts anything
    else in the file. *)
Theorem generator_writes_a_prefix (middleCodes : list string) (w : World) :
  exists e w' msgs,
    generatePhoneNumbers middleCodes w = Some (e, w')
    /\ Run outputPath msgs w w'
    /\ match oracle w (clock w) (SysCreate outputPath) with
       | Some _ => e <> None /\ msgs = [] /\ files w' = files w
       | None =>
         contents outputPath w' `prefix_of` unlines (padded_numbers allSegments middleCodes)
       end.
Proof.
  destruct (generatePhoneNumbers_any middleCodes w) as (e & w' & msgs & E & R & H).
  exists e, w', msgs. split; [exact E|]. split; [exact R|].
  destruct (oracle w (clock w) (SysCreate outputPath)); [exact H|].
  rewrite <- (numbers_padded allSegments middleCodes). apply H.
Qed.

End AnyRun.

(** ** Numbers that occur twice *)

Lemma allSegments_NoDup : NoDup allSegments.
Proof. apply (bool_decide_unpack _). vm_compute. reflexivity. Qed.

Lemma seqZ_first n : (0 < n)%Z -> In 0%Z (seqZ 0 n).
Proof. intros H. rewrite <- list_elem_of_In, elem_of_seqZ. lia. Qed.

(** The numbers of one prefix. *)
Lemma NoDup_block seg middles :
  len seg = 3%nat -> Forall valid_code middles -> NoDup middles ->
  NoDup (numbers [seg] middles).
Proof.
  intros L3 Hv Hnd. unfold numbers. cbn [flat_map]. rewrite app_nil_r.
  induction Hnd as [|m ms Hm Hnd IH]; [constructor|].
  apply Forall_cons in Hv as [Hvm Hv]. apply valid_code_iff in Hvm.
  cbn [flat_map]. apply NoDup_app. split; [|split; [|exact (IH Hv)]].
  - apply NoDup_fmap_2_strong; [|apply NoDup_seqZ].
    intros k k' Hk Hk' E. apply elem_of_seqZ in Hk, Hk'.
    apply (number_inj seg m k seg m k') in E; auto; lia.
  - intros x Hx Hx'. rewrite list_elem_of_In in Hx, Hx'.
    apply in_map_iff in Hx as (k & <- & Hk).
    apply in_flat_map in Hx' as (m' & Hm' & Hx').
    apply in_map_iff in Hx' as (k' & E & Hk').
    rewrite <- list_elem_of_In, elem_of_seqZ in Hk, Hk'.
    rewrite Forall_forall in Hv. rewrite <- list_elem_of_In in Hm'.
    pose proof (Hv _ Hm') as Hvm'. apply valid_code_iff in Hvm'.
    apply (number_inj seg m' k' seg m k) in E; auto; try lia.
    destruct E as (_ & -> & _). contradiction.
Qed.

Lemma numbers_cons seg segs middles :
  numbers (seg :: segs) middles = numbers [seg] middles ++ numbers segs middles.
Proof. unfold numbers. cbn [flat_map]. rewrite app_nil_r. reflexivity. Qed.

Lemma NoDup_numbers segs middles :
  Forall (fun seg => len seg = 3%nat) segs -> NoDup segs ->
  Forall valid_code middles -> NoDup middles ->
  NoDup (numbers segs middles).
Proof.
  intros HL Hs Hv Hm. induction Hs as [|seg segs Hseg Hs IH]; [constructor|].
  apply Forall_cons in HL as [L3 HL]. rewrite numbers_cons.
  apply NoDup_app. split; [|split; [|exact (IH HL)]].
  - apply NoDup_block; assumption.
  - intros x Hx Hx'. rewrite list_elem_of_In in Hx, Hx'.
    apply elem_of_numbers in Hx as (s1 & m1 & k1 & Hs1 & Hm1 & Hk1 & ->).
    apply elem_of_numbers in Hx' as (s2 & m2 & k2 & Hs2 & Hm2 & Hk2 & E).
    destruct Hs1 as [<-|[]].
    rewrite Forall_forall in HL, Hv. rewrite <- list_elem_of_In in Hs2, Hm1, Hm2.
    apply (number_inj seg m1 k1 s2 m2 k2) in E; auto; try (apply valid_code_iff; auto).
    destruct E as (-> & _). contradiction.
Qed.

(** A middle code given twice gives its numbers twice. *)
Lemma NoDup_numbers_inv seg segs middles :
  NoDup (numbers (seg :: segs) middles) -> NoDup middles.
Proof.
  rewrite numbers_cons. intros H. apply NoDup_app in H as (H & _).
  unfold numbers in H. cbn [flat_map] in H. rewrite app_nil_r in H.
  induction middles as [|m ms IH]; [constructor|].
  cbn [flat_map] in H. apply NoDup_app in H as (_ & Hd & H).
  constructor; [|exact (IH H)].
  intros Hm. apply (Hd (number seg m 0)).
  - rewrite list_elem_of_In. apply in_map, seqZ_first. lia.
  - rewrite list_elem_of_In. apply in_flat_map. exists m.
    rewrite <- list_elem_of_In. split; [exact Hm|].
    apply in_map, seqZ_first. lia.
Qed.

Section Duplicates.
Context `{arch : Arch}.

(** X3.  After a run in which nothing fails, no number occurs twice in
    [phonedict.txt] exactly when no middle code occurs twice in the list
    given: the prefixes of the three tables are all different, and a middle
    code that is given twice has its numbers written twice. *)
Theorem generator_duplicates (middleCodes : list string) (w : World) :
  Forall valid_code middleCodes -> io_ok w ->
  exists w',
    generatePhoneNumbers middleCodes w = Some (None, w')
    /\ NoDup allSegments
    /\ (NoDup (file_lines (contents outputPath w')) <-> NoDup middleCodes).
Proof.
  intros Hv Hio.
  destruct (generatePhoneNumbers_ok middleCodes w Hio) as (w' & E & Hc & _).
  exists w'. split; [exact E|]. split; [exact allSegments_NoDup|].
  rewrite Hc, file_lines_unlines by (apply numbers_all_digits; exact Hv).
  split.
  - apply NoDup_numbers_inv.
  - intros Hnd. apply NoDup_numbers; auto.
    + eapply Forall_impl; [exact allSegments_digits|]. intros s [H _]. exact H.
    + exact allSegments_NoDup.
Qed.

End Duplicates.

Lemma generator_duplicates_witness :
  exists w',
    @generatePhoneNumbers Int64 ["0537"; "0100"]%string (quiet_world [] ∅) = Some (None, w')
    /\ NoDup (file_lines (contents outputPath w')).
Proof.
  destruct (@generator_duplicates Int64 ["0537"; "0100"]%string (quiet_world [] ∅))
    as (w' & E & _ & H).
  - repeat constructor.
  - apply quiet_world_io_ok.
  - exists w'. split; [exact E|]. apply H.
    apply (bool_decide_unpack _). vm_compute. reflexivity.
Defined.

(** ** What the generator prints *)

Lemma filter_none {A} (P : A -> Prop) `{forall x, Decision (P x)} (l : list A) :
  Forall (fun x => ~ P x) l -> filter P l = [].
Proof.
  induction 1 as [|x l Hx Hl IH]; [reflexivity|].
  rewrite filter_cons. destruct (decide (P x)); [contradiction|exact IH].
Qed.

Lemma seqZ_one x : seqZ x 1 = [x].
Proof. unfold seqZ. cbn. f_equal. Qed.

(** The multiples of 10000 among 1 .. 10000 b. *)
Lemma multiples_of_10000 (b : nat) :
  filter (fun k => Z.rem k 10000 = 0%Z) (seqZ 1 (10000 * Z.of_nat b))
  = map (Z.mul 10000) (seqZ 1 (Z.of_nat b)).
Proof.
  induction b as [|b IH]; [reflexivity|].
  replace (10000 * Z.of_nat (S b))%Z with (10000 * Z.of_nat b + (9999 + 1))%Z by lia.
  replace (Z.of_nat (S b)) with (Z.of_nat b + 1)%Z by lia.
  rewrite !seqZ_app by lia. rewrite !filter_app, map_app, IH, !seqZ_one.
  f_equal. rewrite filter_none.
  - cbn [app]. rewrite filter_cons.
    destruct (decide (Z.rem (1 + 10000 * Z.of_nat b + 9999) 10000 = 0%Z)) as [_|Hn].
    + cbn [map filter]. f_equal. lia.
    + exfalso. apply Hn.
      replace (1 + 10000 * Z.of_nat b + 9999)%Z with ((Z.of_nat b + 1) * 10000)%Z by lia.
      apply Z.rem_mul. lia.
  - apply Forall_forall. intros k Hk. apply elem_of_seqZ in Hk.
    rewrite Z.rem_mod_nonneg by lia. intros E.
    apply Z.mod_divide in E; [|lia]. destruct E as [q E]. nia.
Qed.

Lemma progress_reports_nil total from : progress_reports total from 0 = [].
Proof. reflexivity. Qed.

Lemma progress_reports_succ total from (n : nat) :
  (0 <= from)%Z ->
  progress_reports total from (Z.of_nat (S n))
  = (if (Z.rem (from + 1) 10000 =? 0)%Z then [progress (from + 1) total] else [])
    ++ progress_reports total (from + 1) (Z.of_nat n).
Proof.
  intros Hf. unfold progress_reports.
  rewrite (seqZ_cons (from + 1)) by lia.
  replace (Z.pred (Z.of_nat (S n))) with (Z.of_nat n) by lia.
  replace (Z.succ (from + 1)) with (from + 1 + 1)%Z by lia.
  rewrite filter_cons.
  destruct (decide (Z.rem (from + 1) 10000 = 0%Z)) as [E|E].
  - rewrite E. reflexivity.
  - apply Z.eqb_neq in E. rewrite E. reflexivity.
Qed.

Section Reports.
Context `{arch : Arch}.

(** While the count stays below 2^31 it does not wrap around. *)
Lemma write_numbers_count full total phones : forall rest st w,
  Partial full (unlines phones ++ rest) (writer st) w ->
  (0 <= generatedCount st)%Z ->
  (generatedCount st + Z.of_nat (length phones) < 2 ^ 31)%Z ->
  exists e st' w',
    write_numbers total phones st w = Some ((e, st'), w')
    /\ Partial full rest (writer st') w'
    /\ (e = None ->
        generatedCount st' = (generatedCount st + Z.of_nat (length phones))%Z
        /\ Run outputPath
             (progress_reports total (generatedCount st) (Z.of_nat (length phones))) w w').
Proof.
  induction phones as [|p ps IH]; intros rest st w P H0 Hlt.
  - exists None, st, w. split; [reflexivity|]. split; [exact P|]. intros _.
    cbn [length]. split; [lia|]. rewrite progress_reports_nil. apply Run_refl.
  - change (unlines (p :: ps)) with (line p ++ unlines ps) in P.
    rewrite <- app_assoc in P.
    cbn [write_numbers]. unfold bind.
    destruct (write_number_any full _ total p st w P) as (e & st1 & w1 & -> & P1 & H1).
    destruct e as [err|].
    + destruct H1 as (He & _ & R1). unfold ret.
      eexists _, _, _. split; [reflexivity|]. split; [|discriminate].
      apply (Partial_failed _ _ _ _ _ P1 He).
    + destruct H1 as (Hc & R1).
      cbn [length] in Hlt. rewrite wrap_small in Hc by lia. rewrite Hc in R1.
      destruct (IH rest st1 w1 P1) as (e2 & st2 & w2 & E2 & P2 & H2); [lia|lia|].
      rewrite E2. eexists _, _, _. split; [reflexivity|]. split; [exact P2|].
      intros ->. destruct (H2 eq_refl) as (Hc2 & R2).
      split; [cbn [length]; lia|].
      cbn [length]. rewrite progress_reports_succ by exact H0. rewrite Hc in R2.
      exact (Run_trans _ _ _ _ _ _ R1 R2).
Qed.

(** X4.  What a run in which nothing fails prints, for fewer than 5369
    middle codes (so that the count of numbers stays below 2^31): the
    three opening lines, with 40 prefixes, the number of middle codes and
    the estimate 400000 x |middleCodes|; then one progress report for every
    10000 numbers, that is one for each pair of a prefix and a middle code,
    counting 10000, 20000, ... up to the estimate; then the closing line,
    whose count is the estimate. *)
Theorem generator_console (middleCodes : list string) (w : World) :
  io_ok w ->
  (400000 * Z.of_nat (length middleCodes) < 2 ^ 31)%Z ->
  let total := (400000 * Z.of_nat (length middleCodes))%Z in
  exists w',
    generatePhoneNumbers middleCodes w = Some (None, w')
    /\ stdout w' = stdout w ++
         [newline +:+ "📱 Starting phone number generation:" +:+ newline;
          "Total prefixes: 40 | Total middle codes: "
            +:+ Fmt.d (Z.of_nat (length middleCodes))
            +:+ " | Suffix range per combination: 0000-9999" +:+ newline;
          "Estimated total numbers to generate: " +:+ Fmt.d total +:+ newline]
         ++ map (fun k => progress (10000 * k) total)
                (seqZ 1 (40 * Z.of_nat (length middleCodes)))
         ++ ["✅ Generation completed! Actual total numbers generated: "
             +:+ Fmt.d total +:+ newline].
Proof.
  intros Hio Hlt total.
  destruct (generatePhoneNumbers_ok middleCodes w Hio) as (w' & E & _).
  exists w'. split; [exact E|].
  destruct Hio as [Hc _].
  unfold generatePhoneNumbers in E.
  rewrite (io_bind _ _ _ _ _ (Create_ok _ _ (Hc _))) in E.
  change (length allSegments) with 40%nat in E.
  assert (Ht : wrap (wrap (Z.of_nat 40 * Z.of_nat (length middleCodes)) * 10000) = total).
  { subst total. change (Z.of_nat 40) with 40%Z.
    rewrite (wrap_small (40 * _)) by lia. rewrite wrap_small by lia. lia. }
  rewrite Ht in E.
  unfold Print at 1 2 3 in E. unfold bind at 1 2 3 4 in E.
  rewrite segment_loop_flat in E. fold allSegments in E.
  set (full := unlines (numbers allSegments middleCodes)) in *.
  match type of E with context [write_numbers _ _ ?st ?w0] =>
    set (w0' := w0) in *; set (st0 := st) in *;
    assert (P0 : Partial full (unlines (numbers allSegments middleCodes) ++ [])
                   (writer st0) w0')
  end.
  { constructor.
    - reflexivity.
    - subst w0'. unfold contents. wsimpl. rewrite lookup_insert_eq. apply prefix_nil.
    - intros _. subst w0' st0. unfold contents. wsimpl. rewrite lookup_insert_eq.
      cbn [default from_option writer Bufio.NewWriter Bufio.buf app]. unfold id.
      rewrite app_nil_r. reflexivity. }
  assert (HL : Z.of_nat (length (numbers allSegments middleCodes)) = total).
  { rewrite numbers_length. replace (length allSegments) with 40%nat by reflexivity.
    subst total. lia. }
  destruct (write_numbers_count full total _ [] st0 w0' P0)
    as (e & st1 & w1 & E1 & P1 & H1).
  { subst st0. cbn [generatedCount]. lia. }
  { subst st0. cbn [generatedCount]. lia. }
  rewrite E1 in E.
  destruct e as [err|].
  { exfalso. unfold ret at 1 in E. unfold bind at 1 2 in E.
    destruct (Flush_any full [] _ _ P1) as (e3 & b3 & w3 & E3 & _).
    rewrite E3 in E. unfold bind in E. rewrite Close_spec in E. discriminate E. }
  destruct (H1 eq_refl) as (Hcount & R1). clear H1.
  subst st0. cbn [generatedCount] in Hcount, R1. rewrite HL in Hcount, R1.
  rewrite Z.add_0_l in Hcount. rewrite Hcount in E.
  unfold Print at 1 in E. unfold bind at 1 2 3 in E. unfold ret at 1 in E.
  match type of E with context [Bufio.Flush ?b ?w2] =>
    assert (P2 : Partial full [] b w2)
      by (destruct P1 as [H1 H2 H3]; constructor; auto);
    destruct (Flush_any full [] b w2 P2) as (e3 & b3 & w3 & E3 & _ & R3 & _)
  end.
  rewrite E3 in E. unfold bind in E. rewrite Close_spec in E. unfold ret in E.
  injection E as <-. cbn [stdout set_open_files tick].
  rewrite (run_stdout _ _ _ _ R3), app_nil_r. cbn [stdout emit].
  rewrite (run_stdout _ _ _ _ R1). subst w0'. cbn [stdout emit set_open_files set_files tick].
  unfold progress_reports. subst total.
  replace (400000 * Z.of_nat (length middleCodes))%Z
    with (10000 * Z.of_nat (40 * length middleCodes))%Z at 2 by lia.
  rewrite Z.add_0_l, multiples_of_10000, map_map.
  replace (Z.of_nat (40 * length middleCodes)) with (40 * Z.of_nat (length middleCodes))%Z by lia.
  rewrite <- !app_assoc. reflexivity.
Qed.

End Reports.

Lemma generator_console_witness :
  exists w',
    @generatePhoneNumbers Int32 ["0537"%string] (quiet_world [] ∅) = Some (None, w')
    /\ length (stdout w') = 44%nat
    /\ last (stdout w')
       = Some ("✅ Generation completed! Actual total numbers generated: 400000" +:+ newline).
Proof.
  destruct (@generator_console Int32 ["0537"%string] (quiet_world [] ∅))
    as (w' & E & O).
  - apply quiet_world_io_ok.
  - cbn [length]. lia.
  - exists w'. split; [exact E|]. rewrite O. split.
    + cbn [stdout quiet_world example_world app length]. rewrite length_app, length_map.
      rewrite length_seqZ. reflexivity.
    + rewrite !app_assoc. rewrite last_snoc. reflexivity.
Defined.

(** X5.  The program is built for targets whose [int] has 32 bits, and
    there the estimate wraps around: for 5369 to 10737 middle codes, a run
    whose output file can be created prints the estimate
    400000 x |middleCodes| - 2^32, which is negative.  On a target whose
    [int] has 64 bits the same list gives 400000 x |middleCodes|. *)
Theorem estimate_wraps_on_32_bits (middleCodes : list string) (w : World) :
  oracle w (clock w) (SysCreate outputPath) = None ->
  (5369 <= Z.of_nat (length middleCodes) <= 10737)%Z ->
  let n := Z.of_nat (length middleCodes) in
  let opening (estimate : Z) :=
    [newline +:+ "📱 Starting phone number generation:" +:+ newline;
     "Total prefixes: 40 | Total middle codes: " +:+ Fmt.d n
       +:+ " | Suffix range per combination: 0000-9999" +:+ newline;
     "Estimated total numbers to generate: " +:+ Fmt.d estimate +:+ newline] in
  (exists e w' rest,
     @generatePhoneNumbers Int32 middleCodes w = Some (e, w')
     /\ stdout w' = stdout w ++ opening (400000 * n - 2 ^ 32)%Z ++ rest)
  /\ (400000 * n - 2 ^ 32 < 0)%Z
  /\ (exists e w' rest,
        @generatePhoneNumbers Int64 middleCodes w = Some (e, w')
        /\ stdout w' = stdout w ++ opening (400000 * n)%Z ++ rest).
Proof.
  intros Hc Hn n opening. subst n.
  split; [|split; [lia|]].
  - destruct (@generatePhoneNumbers_any Int32 middleCodes w) as (e & w' & msgs & E & R & H).
    rewrite Hc in H. destruct H as (_ & rest & ->).
    exists e, w', rest. split; [exact E|].
    rewrite (run_stdout _ _ _ _ R). f_equal. f_equal.
    unfold opening_lines, opening. change (length allSegments) with 40%nat.
    change (Z.of_nat 40) with 40%Z.
    replace (@wrap Int32 (@wrap Int32 (40 * Z.of_nat (length middleCodes)) * 10000))
      with (400000 * Z.of_nat (length middleCodes) - 2 ^ 32)%Z; [reflexivity|].
    rewrite (@wrap_small Int32 (40 * _)) by lia.
    unfold wrap, intSize.
    change (2 ^ (32 - 1))%Z with 2147483648%Z. change (2 ^ 32)%Z with 4294967296%Z.
    rewrite <- (Z.mod_add _ (-1) 4294967296) by lia.
    rewrite Z.mod_small; lia.
  - destruct (@generatePhoneNumbers_any Int64 middleCodes w) as (e & w' & msgs & E & R & H).
    rewrite Hc in H. destruct H as (_ & rest & ->).
    exists e, w', rest. split; [exact E|].
    rewrite (run_stdout _ _ _ _ R). f_equal. f_equal.
    unfold opening_lines, opening. change (length allSegments) with 40%nat.
    change (Z.of_nat 40) with 40%Z.
    replace (@wrap Int64 (@wrap Int64 (40 * Z.of_nat (length middleCodes)) * 10000))
      with (400000 * Z.of_nat (length middleCodes))%Z; [reflexivity|].
    rewrite (@wrap_small Int64 (40 * _)) by lia.
    unfold wrap, intSize.
    change (2 ^ (64 - 1))%Z with 9223372036854775808%Z.
    change (2 ^ 64)%Z with 18446744073709551616%Z.
    rewrite Z.mod_small; lia.
Qed.

Lemma estimate_wraps_on_32_bits_witness :
  exists e w' rest,
    @generatePhoneNumbers Int32 (replicate (Z.to_nat 5369) "0537"%string) (quiet_world [] ∅)
    = Some (e, w')
    /\ stdout w'
       = [newline +:+ "📱 Starting phone number generation:" +:+ newline;
          "Total prefixes: 40 | Total middle codes: 5369"
            +:+ " | Suffix range per combination: 0000-9999" +:+ newline;
          "Estimated total numbers to generate: -2147367296" +:+ newline] ++ rest.
Proof.
  destruct (estimate_wraps_on_32_bits (replicate (Z.to_nat 5369) "0537"%string)
              (quiet_world [] ∅))
    as ((e & w' & rest & E & O) & _).
  - reflexivity.
  - rewrite length_replicate, Z2Nat.id; lia.
  - exists e, w', rest. split; [exact E|].
    rewrite O, length_replicate, Z2Nat.id by lia. reflexivity.
Defined.

(** ** The configuration file, whatever fails *)

Lemma Run_tick path w : Run path [] w (tick w).
Proof. constructor; try reflexivity. cbn. rewrite app_nil_r. reflexivity. Qed.

Lemma emits_Run path msgs : forall w, Run path msgs w (emits msgs w).
Proof.
  induction msgs as [|m msgs IH]; intros w; [apply Run_refl|].
  cbn [emits fold_left]. fold (emits msgs (emit m w)).
  apply (Run_trans path [m] msgs w (emit m w)); [apply Run_emit|apply IH].
Qed.

Lemma Stat_any path w :
  exists r, Os.Stat path w = Some (r, tick w)
            /\ (r = None -> files w !! path <> None)
            /\ (forall err, r = Some err ->
                  exists n, err = PathError "stat" path n
                            /\ (n = ENOENT <-> reported_missing path w)).
Proof.
  unfold Os.Stat, bind, sys, reported_missing.
  destruct (oracle w (clock w) (SysStat path)) as [x|].
  - eexists. split; [reflexivity|]. split; [discriminate|].
    intros err [= <-]. exists (fault_errno x). split; [reflexivity|tauto].
  - cbn [files tick]. destruct (files w !! path) as [data|] eqn:Ef.
    + eexists. split; [reflexivity|]. split; [discriminate|discriminate].
    + eexists. split; [reflexivity|]. split; [discriminate|].
      intros err [= <-]. exists ENOENT. split; [reflexivity|tauto].
Qed.

(** [os.WriteFile]: whatever fails the file is closed again; when the
    file could be created it holds a prefix of [data], all of it when no
    error is returned. *)
Lemma WriteFile_any path data w :
  exists r w',
    Os.WriteFile path data w = Some (r, w')
    /\ Run path [] w w'
    /\ match oracle w (clock w) (SysCreate path) with
       | Some x => r = Some (PathError "open" path (fault_errno x)) /\ files w' = files w
       | None =>
         exists k, files w' = <[path := take k data]> (files w)
                   /\ (oracle w (S (clock w)) (SysWrite path 0 (length data)) = None ->
                       k = length data)
                   /\ (forall x, oracle w (S (clock w)) (SysWrite path 0 (length data)) = Some x ->
                       k = Nat.min (fault_written x) (length data)
                       /\ r = Some (PathError "write" path (fault_errno x)))
       end.
Proof.
  unfold Os.WriteFile, bind at 1, Os.Create, bind at 1, sys.
  destruct (oracle w (clock w) (SysCreate path)) as [x|].
  - unfold ret. eexists _, _. split; [reflexivity|]. split; [apply Run_tick|].
    split; reflexivity.
  - unfold bind at 1, Os.Write. cbn [Os.Name]. unfold contents. wsimpl.
    rewrite lookup_insert_eq. cbn [default from_option length app]. unfold id. cbn [length app].
    destruct (oracle w (S (clock w)) (SysWrite path 0 (length data))) as [x|].
    + unfold bind. rewrite Close_spec. unfold ret.
      eexists _, _. split; [reflexivity|]. split.
      * constructor; wsimpl; try reflexivity.
        -- apply release_head.
        -- rewrite app_nil_r. reflexivity.
        -- intros p Hp. rewrite !lookup_insert_ne by congruence. reflexivity.
      * exists (Nat.min (fault_written x) (length data)). wsimpl.
        rewrite insert_insert_eq. cbn [app]. split; [reflexivity|].
        split; [discriminate|]. intros y [= <-]. split; reflexivity.
    + unfold bind. rewrite Close_spec. unfold ret.
      eexists _, _. split; [reflexivity|]. split.
      * constructor; wsimpl; try reflexivity.
        -- apply release_head.
        -- rewrite app_nil_r. reflexivity.
        -- intros p Hp. rewrite !lookup_insert_ne by congruence. reflexivity.
      * exists (length data). wsimpl. rewrite insert_insert_eq, firstn_all. cbn [app].
        split; [reflexivity|]. split; [reflexivity|discriminate].
Qed.

Lemma Stat_missing path w :
  reported_missing path w ->
  Os.Stat path w = Some (Some (PathError "stat" path ENOENT), tick w).
Proof.
  unfold reported_missing, Os.Stat, bind, sys, Os.path_error.
  destruct (oracle w (clock w) (SysStat path)) as [x|].
  - intros ->. reflexivity.
  - cbn [files tick]. intros ->. reflexivity.
Qed.

Lemma Stat_found path w data :
  files w !! path = Some data -> oracle w (clock w) (SysStat path) = None ->
  Os.Stat path w = Some (None, tick w).
Proof.
  intros Hf Hs. unfold Os.Stat, bind, sys. rewrite Hs. cbn [files tick]. rewrite Hf.
  reflexivity.
Qed.

Section AnyConfig.
Context `{json : JSON}.

Lemma loadConfig_any w :
  exists cfg e w' msgs,
    loadConfig w = Some ((cfg, e), w')
    /\ Run configPath msgs w w'
    /\ (~ reported_missing configPath w -> files w' = files w)
    /\ (forall err, e = Some err ->
          exists cause,
            err = ConfigStatError cause \/ err = ConfigEncodeError cause
            \/ err = ConfigCreateError cause \/ err = ConfigOpenError cause
            \/ err = ConfigParseError cause).
Proof.
  unfold loadConfig, bind at 1.
  destruct (Stat_any configPath w) as (r & -> & Hex & Herr).
  destruct r as [err|].
  - destruct (Herr err eq_refl) as (n & -> & Hn). cbn [IsNotExist].
    assert (Other : n <> ENOENT ->
              exists cfg e w' msgs,
                ret ({| MiddleCodes := [] |},
                     Some (ErrorfV ("failed to check " +:+ configPath +:+ " status: ")
                             (PathError "stat" configPath n))) (tick w)
                = Some ((cfg, e), w')
                /\ Run configPath msgs w w'
                /\ (~ reported_missing configPath w -> files w' = files w)
                /\ (forall err, e = Some err ->
                      exists cause,
                        err = ConfigStatError cause \/ err = ConfigEncodeError cause
                        \/ err = ConfigCreateError cause \/ err = ConfigOpenError cause
                        \/ err = ConfigParseError cause)).
    { intros _. unfold ret. eexists _, _, _, _. split; [reflexivity|].
      split; [apply Run_tick|]. split; [reflexivity|].
      intros err [= <-]. eexists. left. reflexivity. }
    destruct n; try (apply Other; discriminate). clear Other.
    assert (Hmiss : reported_missing configPath w) by (apply Hn; reflexivity).
    unfold Print at 1, bind at 1.
    destruct (MarshalIndent defaultConfig "" "  ") as [jsonData|cause].
    + unfold bind at 1.
      destruct (WriteFile_any configPath jsonData (emit not_found_notice (tick w)))
        as (r & w1 & E1 & R1 & _).
      fold not_found_notice. rewrite E1.
      pose proof (Run_trans _ _ _ _ _ _
                    (Run_silent _ _ _ _ _ (Run_tick configPath w) (Run_emit _ not_found_notice _))
                    R1) as R.
      destruct r as [cause|].
      * unfold ret. eexists _, _, _, _. split; [reflexivity|]. split; [exact R|].
        split; [contradiction|]. intros err [= <-]. eexists. right. right. left. reflexivity.
      * unfold Println, Print, bind, ret. eexists _, _, _, _. split; [reflexivity|].
        split; [|split; [contradiction|discriminate]].
        eapply Run_trans; [exact R|]. eapply Run_trans; apply Run_emit.
    + unfold ret. eexists _, _, _, _. split; [reflexivity|].
      split; [|split; [contradiction|]].
      * fold not_found_notice.
        apply (Run_silent _ _ _ _ _ (Run_tick configPath w) (Run_emit _ not_found_notice _)).
      * intros err [= <-]. eexists. right. left. reflexivity.
  - specialize (Hex eq_refl).
    unfold bind at 1, Os.Open, bind at 1, sys. cbn [oracle clock tick].
    destruct (oracle w (S (clock w)) (SysOpen configPath)) as [x|].
    { unfold ret. eexists _, _, _, _. split; [reflexivity|].
      split; [apply (Run_silent _ _ _ _ _ (Run_tick _ w) (Run_tick _ _))|].
      split; [reflexivity|]. intros err [= <-]. eexists. do 3 right. left. reflexivity. }
    cbn [files tick]. destruct (files w !! configPath) as [data|] eqn:Ef; [|contradiction].
    unfold bind at 1. unfold bind at 1, Decoder_Decode, bind at 1, Os.ReadAll, bind at 1, sys.
    cbn [Os.Name oracle clock tick set_open_files].
    assert (Close : forall (res : Config * option error) msgs w1,
              stdin w1 = stdin w -> token w1 = token w -> oracle w1 = oracle w ->
              open_files w1 = configPath :: open_files w ->
              stdout w1 = stdout w ++ msgs -> files w1 = files w ->
              (forall err, snd res = Some err -> exists cause, err = ConfigParseError cause) ->
              exists cfg e w' msgs,
                (Os.Close {| Os.Name := configPath |} ;;; ret res) w1 = Some ((cfg, e), w')
                /\ Run configPath msgs w w'
                /\ (~ reported_missing configPath w -> files w' = files w)
                /\ (forall err, e = Some err ->
                      exists cause,
                        err = ConfigStatError cause \/ err = ConfigEncodeError cause
                        \/ err = ConfigCreateError cause \/ err = ConfigOpenError cause
                        \/ err = ConfigParseError cause)).
    { intros [cfg e] msgs w1 A1 A2 A3 A4 A5 A6 He.
      unfold bind. rewrite Close_spec. unfold ret.
      exists cfg, e. eexists. exists msgs. split; [reflexivity|]. split; [|split].
      - constructor; wsimpl; try assumption.
        + rewrite A4. apply release_head.
        + intros p _. rewrite A6. reflexivity.
      - intros _. exact A6.
      - intros err ->. destruct (He err eq_refl) as (cause & ->).
        eexists. do 4 right. reflexivity. }
    destruct (oracle w (S (S (clock w))) (SysRead configPath)) as [x|].
    + unfold ret at 1 2.
      apply (Close _ []); try reflexivity.
      * cbn. rewrite app_nil_r. reflexivity.
      * intros err [= <-]. eexists. reflexivity.
    + unfold ret at 1. unfold contents. wsimpl. rewrite Ef.
      cbn [default from_option]. unfold id.
      destruct (Decode data) as [cfg [cause|]].
      * unfold ret at 1.
        apply (Close _ []); try reflexivity.
        -- cbn. rewrite app_nil_r. reflexivity.
        -- intros err [= <-]. eexists. reflexivity.
      * unfold bind at 1. rewrite loadConfig_filter_spec. unfold ret at 1.
        match goal with |- context [emits ?m ?w0] =>
          destruct (emits_Console m w0) as [B1 B2 B3 B4];
          destruct (emits_stdin m w0) as [B5 B6];
          apply (Close _ m)
        end; wsimpl; try assumption.
        discriminate.
Qed.

(** X6.  Whatever the codec, the files and the failures, [loadConfig]
    returns, reads no input, leaves no file open and changes no file but
    [config.json]; unless [os.Stat] reports that [config.json] does not
    exist, it changes no file at all.  A configuration it returns without
    an error holds valid codes only, and an error it returns is one of its
    five [fmt.Errorf] texts around a cause. *)
Theorem config_loading_is_contained (w : World) :
  exists cfg e w' msgs,
    loadConfig w = Some ((cfg, e), w')
    /\ Run configPath msgs w w'
    /\ (~ reported_missing configPath w -> files w' = files w)
    /\ (e = None -> Forall valid_code (MiddleCodes cfg))
    /\ (forall err, e = Some err ->
          exists cause,
            err = ConfigStatError cause \/ err = ConfigEncodeError cause
            \/ err = ConfigCreateError cause \/ err = ConfigOpenError cause
            \/ err = ConfigParseError cause).
Proof.
  destruct (loadConfig_any w) as (cfg & e & w' & msgs & E & R & Hf & He).
  exists cfg, e, w', msgs. split; [exact E|]. split; [exact R|]. split; [exact Hf|].
  split; [|exact He]. intros ->. apply (loadConfig_valid _ _ _ E).
Qed.

(** X7.  The failures of [loadConfig] other than a parse error, each with
    the error it returns: [os.Stat] failing for another reason than a
    missing file; the default configuration not being encodable; the new
    file not being creatable; the file not being openable; the file not
    being readable, which comes back as a parse error.  None of them
    changes a file.  In the driver each is printed after
    [Config file processing failed: ] and the option is asked again. *)
Theorem config_failures (w : World) :
  (forall x, oracle w (clock w) (SysStat configPath) = Some x ->
     fault_errno x <> ENOENT ->
     exists w',
       loadConfig w
       = Some (({| MiddleCodes := [] |}, Some (ConfigStatError (PathError "stat" configPath (fault_errno x)))), w')
       /\ files w' = files w /\ stdout w' = stdout w)
  /\ (forall cause, reported_missing configPath w ->
        MarshalIndent defaultConfig "" "  " = inr cause ->
        exists w',
          loadConfig w = Some (({| MiddleCodes := [] |}, Some (ConfigEncodeError cause)), w')
          /\ files w' = files w /\ stdout w' = stdout w ++ [not_found_notice])
  /\ (forall data x, reported_missing configPath w ->
        MarshalIndent defaultConfig "" "  " = inl data ->
        oracle w (S (clock w)) (SysCreate configPath) = Some x ->
        exists w',
          loadConfig w
          = Some (({| MiddleCodes := [] |}, Some (ConfigCreateError (PathError "open" configPath (fault_errno x)))),
                  w')
          /\ files w' = files w /\ stdout w' = stdout w ++ [not_found_notice])
  /\ (forall data x, files w !! configPath = Some data ->
        oracle w (clock w) (SysStat configPath) = None ->
        oracle w (S (clock w)) (SysOpen configPath) = Some x ->
        exists w',
          loadConfig w
          = Some (({| MiddleCodes := [] |}, Some (ConfigOpenError (PathError "open" configPath (fault_errno x)))),
                  w')
          /\ files w' = files w /\ stdout w' = stdout w)
  /\ (forall data x, files w !! configPath = Some data ->
        oracle w (clock w) (SysStat configPath) = None ->
        oracle w (S (clock w)) (SysOpen configPath) = None ->
        oracle w (S (S (clock w))) (SysRead configPath) = Some x ->
        exists w',
          loadConfig w
          = Some (({| MiddleCodes := [] |}, Some (ConfigParseError (PathError "read" configPath (fault_errno x)))),
                  w')
          /\ files w' = files w /\ stdout w' = stdout w /\ open_files w' = open_files w)
  /\ (forall w0 choice rest cfg err w1,
        stdin w0 = choice :: rest -> Strings.TrimSpace choice = "1"%string ->
        loadConfig (next_line (emit option_prompt w0)) = Some ((cfg, Some err), w1) ->
        selectMiddleCodes_round w0
        = Some (Again, emit ("Config file processing failed: " +:+ Error err +:+ newline) w1))
  /\ Error (ConfigOpenError (PathError "open" configPath EACCES))
     = "failed to open config.json: open config.json: permission denied"%string.
Proof.
  repeat apply conj.
  - intros x Hs Hx. unfold loadConfig, bind at 1, Os.Stat, bind at 1, sys. rewrite Hs.
    unfold Os.path_error. cbn [IsNotExist].
    destruct (fault_errno x); try contradiction; unfold ret; eexists; repeat split.
  - intros cause Hm He.
    unfold loadConfig. rewrite (io_bind _ _ _ _ _ (Stat_missing _ _ Hm)).
    cbn [IsNotExist]. unfold Print, bind, ret. rewrite He.
    eexists. repeat split.
  - intros data x Hm He Hc.
    unfold loadConfig. rewrite (io_bind _ _ _ _ _ (Stat_missing _ _ Hm)).
    cbn [IsNotExist]. unfold Print, bind at 1. rewrite He.
    unfold bind at 1, Os.WriteFile, bind at 1, Os.Create, bind at 1, sys.
    cbn [oracle clock emit tick]. rewrite Hc. unfold ret.
    eexists. repeat split.
  - intros data x Hf Hs Ho.
    unfold loadConfig. rewrite (io_bind _ _ _ _ _ (Stat_found _ _ _ Hf Hs)).
    unfold bind at 1, Os.Open, bind at 1, sys. cbn [oracle clock tick]. rewrite Ho.
    unfold ret. eexists. repeat split.
  - intros data x Hf Hs Ho Hr.
    unfold loadConfig. rewrite (io_bind _ _ _ _ _ (Stat_found _ _ _ Hf Hs)).
    unfold bind at 1, Os.Open, bind at 1, sys. cbn [oracle clock tick]. rewrite Ho.
    cbn [files tick]. rewrite Hf.
    unfold bind at 1. unfold bind at 1, Decoder_Decode, bind at 1, Os.ReadAll, bind at 1, sys.
    cbn [Os.Name oracle clock tick set_open_files]. rewrite Hr.
    unfold ret at 1 2. unfold bind. rewrite Close_spec. unfold ret.
    eexists. split; [reflexivity|]. wsimpl. repeat split; apply release_head.
  - intros w0 choice rest cfg err w1 Hin Hch E.
    rewrite round_choice_1 by (rewrite Hin; exact Hch). rewrite E. reflexivity.
  - reflexivity.
Qed.

(** X8.  When the write of the new [config.json] fails, [loadConfig]
    returns the error of line 123, and the file stays behind with the part
    of the encoding that was written.  The next call finds that file: it
    does not create the default configuration again, it decodes what is
    there. *)
Theorem failed_creation_leaves_partial_config (w : World) (data : bytes) (x : fault) :
  reported_missing configPath w ->
  MarshalIndent defaultConfig "" "  " = inl data ->
  oracle w (S (clock w)) (SysCreate configPath) = None ->
  oracle w (S (S (clock w))) (SysWrite configPath 0 (length data)) = Some x ->
  let written := take (Nat.min (fault_written x) (length data)) data in
  exists w1,
    loadConfig w
    = Some (({| MiddleCodes := [] |},
             Some (ConfigCreateError (PathError "write" configPath (fault_errno x)))), w1)
    /\ files w1 = <[configPath := written]> (files w)
    /\ open_files w1 = open_files w
    /\ (config_readable w ->
        exists w2,
          loadConfig w1
          = Some (match Decode written with
                  | (cfg, Some cause) => (cfg, Some (ConfigParseError cause))
                  | (cfg, None) =>
                    ({| MiddleCodes := filter valid_code (MiddleCodes cfg) |}, None)
                  end, w2)
          /\ files w2 = files w1).
Proof.
  intros Hm He Hc Hw written.
  unfold loadConfig at 1. rewrite (io_bind _ _ _ _ _ (Stat_missing _ _ Hm)).
  cbn [IsNotExist]. unfold Print, bind at 1. rewrite He.
  unfold bind at 1, Os.WriteFile, bind at 1, Os.Create, bind at 1, sys.
  cbn [oracle clock emit tick]. rewrite Hc.
  unfold bind at 1, Os.Write. cbn [Os.Name]. unfold contents. wsimpl.
  rewrite lookup_insert_eq. cbn [default from_option length app]. unfold id. cbn [length app].
  rewrite Hw. unfold bind. rewrite Close_spec. unfold ret.
  eexists. split; [reflexivity|]. wsimpl. rewrite insert_insert_eq.
  split; [reflexivity|]. split; [apply release_head|].
  intros (Hs & Ho & Hr).
  match goal with |- context [loadConfig ?w1] =>
    destruct (loadConfig_existing w1 written) as (w2 & E2 & C2 & _)
  end; try assumption.
  { wsimpl. apply lookup_insert_eq. }
  exists w2. split; [exact E2|].
  destruct C2 as [_ C _ _]. exact C.
Qed.

End AnyConfig.

Lemma config_failures_witness :
  exists w',
    @loadConfig RefJSON.codec locked_config_world
    = Some (({| MiddleCodes := [] |},
             Some (ConfigOpenError (PathError "open" configPath EACCES))), w')
    /\ files w' = files locked_config_world.
Proof.
  destruct (@config_failures RefJSON.codec locked_config_world) as (_ & _ & _ & H & _).
  destruct (H sample_config {| fault_errno := EACCES; fault_written := 0 |})
    as (w' & E & F & _).
  - apply lookup_singleton_eq.
  - reflexivity.
  - reflexivity.
  - exists w'. split; [exact E|exact F].
Defined.

Lemma failed_creation_leaves_partial_config_witness :
  exists w1 w2 cfg cause,
    @loadConfig RefJSON.codec (example_world [] ∅ (disk_quota 10))
    = Some (({| MiddleCodes := [] |},
             Some (ConfigCreateError (PathError "write" configPath ENOSPC))), w1)
    /\ length (contents configPath w1) = 10%nat
    /\ @loadConfig RefJSON.codec w1 = Some ((cfg, Some (ConfigParseError cause)), w2).
Proof.
  destruct (@failed_creation_leaves_partial_config RefJSON.codec
              (example_world [] ∅ (disk_quota 10))
              (to_bytes (RefJSON.marshal_indent defaultConfig "" "  "))
              {| fault_errno := ENOSPC; fault_written := 10 |})
    as (w1 & E1 & F1 & _ & H).
  - reflexivity.
  - reflexivity.
  - reflexivity.
  - reflexivity.
  - destruct H as (w2 & E2 & _); [repeat split|].
    exists w1, w2. eexists _, _. split; [exact E1|]. split.
    + unfold contents. rewrite F1, lookup_insert_eq. reflexivity.
    + rewrite E2. vm_compute. reflexivity.
Defined.

(** ** Questions and answers *)

Lemma Talk_refl w : Talk 0 [] w w.
Proof. constructor; try reflexivity. rewrite app_nil_r. reflexivity. Qed.

Lemma Talk_trans n1 n2 m1 m2 w w1 w2 :
  Talk n1 m1 w w1 -> Talk n2 m2 w1 w2 -> Talk (n1 + n2) (m1 ++ m2) w w2.
Proof.
  intros [A1 A2 A3 A4 A5] [B1 B2 B3 B4 B5]. constructor; try congruence.
  - rewrite B1, A1, drop_drop. reflexivity.
  - rewrite B2, A2, app_assoc. reflexivity.
Qed.

Lemma askToContinue_round_eq w :
  askToContinue_round w
  = let l := hd EmptyString (stdin w) in
    let w1 := next_line (emit exit_prompt w) in
    let q := Strings.TrimSpace l in
    if String.eqb q "y" || String.eqb q "Y" then Some (Return false, w1)
    else if String.eqb q "n" || String.eqb q "N" then Some (Return true, w1)
    else Some (Again, emit invalid_answer w1).
Proof.
  unfold askToContinue_round, bind, Print, Println, Scan, Text, ret. fold exit_prompt.
  change (token (next_line (emit exit_prompt w))) with (hd EmptyString (stdin w)).
  cbv zeta. destruct (_ || _); [reflexivity|]. destruct (_ || _); reflexivity.
Qed.

Lemma says_yes_eqb l :
  says_yes l <-> String.eqb (Strings.TrimSpace l) "y" || String.eqb (Strings.TrimSpace l) "Y" = true.
Proof. unfold says_yes. rewrite orb_true_iff, !String.eqb_eq. reflexivity. Qed.

Lemma says_no_eqb l :
  says_no l <-> String.eqb (Strings.TrimSpace l) "n" || String.eqb (Strings.TrimSpace l) "N" = true.
Proof. unfold says_no. rewrite orb_true_iff, !String.eqb_eq. reflexivity. Qed.

Lemma yes_is_not_no l : says_yes l -> ~ says_no l.
Proof. intros [H|H] [H'|H']; rewrite H in H'; discriminate. Qed.

Lemma askToContinue_round_yes w :
  says_yes (hd EmptyString (stdin w)) ->
  askToContinue_round w = Some (Return false, next_line (emit exit_prompt w)).
Proof.
  intros H. rewrite askToContinue_round_eq. cbv zeta.
  apply says_yes_eqb in H. rewrite H. reflexivity.
Qed.

Lemma askToContinue_round_no w :
  says_no (hd EmptyString (stdin w)) ->
  askToContinue_round w = Some (Return true, next_line (emit exit_prompt w)).
Proof.
  intros H. rewrite askToContinue_round_eq. cbv zeta.
  assert (Hy : String.eqb (Strings.TrimSpace (hd EmptyString (stdin w))) "y"
               || String.eqb (Strings.TrimSpace (hd EmptyString (stdin w))) "Y" = false).
  { apply not_true_is_false. intros Hy. apply says_yes_eqb in Hy.
    exact (yes_is_not_no _ Hy H). }
  rewrite Hy. apply says_no_eqb in H. rewrite H. reflexivity.
Qed.

Lemma askToContinue_round_other w :
  no_answer (hd EmptyString (stdin w)) ->
  askToContinue_round w = Some (Again, emit invalid_answer (next_line (emit exit_prompt w))).
Proof.
  intros [Hy Hn]. rewrite askToContinue_round_eq. cbv zeta.
  rewrite says_yes_eqb in Hy. rewrite says_no_eqb in Hn.
  apply not_true_is_false in Hy, Hn. rewrite Hy, Hn. reflexivity.
Qed.

(** The lines before the answer are asked about again, one by one. *)
Lemma askToContinue_skips junk : forall w rest,
  stdin w = junk ++ rest -> Forall no_answer junk ->
  exists w1,
    Talk (length junk) (flat_map (fun _ => [exit_prompt; invalid_answer]) junk) w w1
    /\ forall fuel, askToContinue (length junk + fuel) w = askToContinue fuel w1.
Proof.
  induction junk as [|l junk IH]; intros w rest Hin Hj.
  - exists w. split; [apply Talk_refl|]. reflexivity.
  - apply Forall_cons in Hj as [Hl Hj].
    pose proof (askToContinue_round_other w) as R. rewrite Hin in R. specialize (R Hl).
    set (w0 := emit invalid_answer (next_line (emit exit_prompt w))) in *.
    assert (T0 : Talk 1 [exit_prompt; invalid_answer] w w0).
    { subst w0. constructor; cbn; rewrite ?Hin, <- ?app_assoc; reflexivity. }
    destruct (IH w0 rest) as (w1 & T1 & H1); [|exact Hj|].
    { rewrite (talk_stdin _ _ _ _ T0), Hin. reflexivity. }
    exists w1. split.
    + exact (Talk_trans _ _ _ _ _ _ _ T0 T1).
    + intros fuel. cbn [length Nat.add askToContinue]. unfold bind. rewrite R. apply H1.
Qed.

Lemma no_answer_empty : no_answer EmptyString.
Proof. split; intros [H|H]; discriminate H. Qed.

Lemma Forall_hd_tail {A} (P : A -> Prop) d (l : list A) :
  P d -> Forall P l -> P (hd d l) /\ Forall P (tail l).
Proof. intros Hd [|x l' Hx Hl]; cbn; auto. Qed.

Lemma askToContinue_starves fuel : forall w,
  Forall no_answer (stdin w) -> askToContinue fuel w = None.
Proof.
  induction fuel as [|fuel IH]; intros w H; [reflexivity|].
  destruct (Forall_hd_tail _ EmptyString _ no_answer_empty H) as [Hh Ht].
  cbn [askToContinue]. unfold bind. rewrite (askToContinue_round_other w Hh).
  apply IH. exact Ht.
Qed.

(** X9.  [askToContinue] asks until a line is y, Y, n or N once the
    white space around it is dropped.  The lines before that one are each
    answered with [Invalid input, please enter y or n]; on y or Y the
    result is false (do not go on), on n or N it is true.  It reads these
    lines and no more, and touches no file. *)
Theorem askToContinue_answers (w : World) (junk : list string) (a : string)
    (rest : list string) (fuel : nat) :
  stdin w = junk ++ a :: rest -> Forall no_answer junk -> (length junk < fuel)%nat ->
  says_yes a \/ says_no a ->
  exists b w',
    askToContinue fuel w = Some (b, w')
    /\ (says_yes a -> b = false) /\ (says_no a -> b = true)
    /\ stdin w' = rest
    /\ Talk (S (length junk))
         (flat_map (fun _ => [exit_prompt; invalid_answer]) junk ++ [exit_prompt]) w w'.
Proof.
  intros Hin Hj Hfuel Ha.
  destruct (askToContinue_skips junk w (a :: rest) Hin Hj) as (w1 & T1 & H1).
  replace fuel with (length junk + S (fuel - S (length junk)))%nat by lia.
  rewrite H1. cbn [askToContinue]. unfold bind.
  assert (Hin1 : stdin w1 = a :: rest).
  { rewrite (talk_stdin _ _ _ _ T1), Hin, drop_app_length. reflexivity. }
  assert (T2 : Talk 1 [exit_prompt] w1 (next_line (emit exit_prompt w1))).
  { constructor; cbn; rewrite ?Hin1; reflexivity. }
  pose proof (Talk_trans _ _ _ _ _ _ _ T1 T2) as T.
  rewrite Nat.add_1_r in T.
  destruct Ha as [Hy|Hn].
  - rewrite askToContinue_round_yes by (rewrite Hin1; exact Hy).
    unfold ret. eexists _, _. split; [reflexivity|]. split; [reflexivity|].
    split; [intros Hn; destruct (yes_is_not_no _ Hy Hn)|].
    split; [cbn; rewrite Hin1; reflexivity|exact T].
  - rewrite askToContinue_round_no by (rewrite Hin1; exact Hn).
    unfold ret. eexists _, _. split; [reflexivity|].
    split; [intros Hy; destruct (yes_is_not_no _ Hy Hn)|]. split; [reflexivity|].
    split; [cbn; rewrite Hin1; reflexivity|exact T].
Qed.

Lemma askToContinue_answers_witness :
  exists b w',
    askToContinue 3 (quiet_world ["maybe"; ""; " N "; "left"]%string ∅) = Some (b, w')
    /\ b = true /\ stdin w' = ["left"%string]
    /\ stdout w' = [exit_prompt; invalid_answer; exit_prompt; invalid_answer; exit_prompt].
Proof.
  destruct (askToContinue_answers (quiet_world ["maybe"; ""; " N "; "left"]%string ∅)
              ["maybe"; ""]%string " N " ["left"%string] 3)
    as (b & w' & E & _ & Hb & Hin & T).
  - reflexivity.
  - repeat constructor; intros [H|H]; discriminate H.
  - cbn [length]. lia.
  - right. right. reflexivity.
  - exists b, w'. split; [exact E|]. split; [apply Hb; right; reflexivity|].
    split; [exact Hin|]. rewrite (talk_stdout _ _ _ _ T). reflexivity.
Defined.

Section Menu.
Context `{json : JSON}.

Lemma selectMiddleCodes_round_other w :
  ~ picks_method (hd EmptyString (stdin w)) ->
  selectMiddleCodes_round w
  = Some (Again, emit invalid_option (next_line (emit option_prompt w))).
Proof.
  intros H. unfold selectMiddleCodes_round, bind, Print, Println, Scan, Text, ret.
  fold option_prompt.
  change (token (next_line (emit option_prompt w))) with (hd EmptyString (stdin w)).
  destruct (String.eqb_spec (Strings.TrimSpace (hd EmptyString (stdin w))) "1") as [E|_].
  { destruct H. left. exact E. }
  destruct (String.eqb_spec (Strings.TrimSpace (hd EmptyString (stdin w))) "2") as [E|_].
  { destruct H. right. exact E. }
  reflexivity.
Qed.

Lemma picks_nothing_empty : ~ picks_method EmptyString.
Proof. intros [H|H]; discriminate H. Qed.

Lemma selectMiddleCodes_loop_starves fuel : forall w,
  Forall (fun l => ~ picks_method l) (stdin w) -> selectMiddleCodes_loop fuel w = None.
Proof.
  induction fuel as [|fuel IH]; intros w H; [reflexivity|].
  destruct (Forall_hd_tail _ EmptyString _ picks_nothing_empty H) as [Hh Ht].
  cbn [selectMiddleCodes_loop]. unfold bind. rewrite (selectMiddleCodes_round_other w Hh).
  apply IH. exact Ht.
Qed.

(** The lines before the choice of a method are each answered with
    [Invalid option, please enter 1 or 2]. *)
Lemma selectMiddleCodes_skips junk : forall w rest,
  stdin w = junk ++ rest -> Forall (fun l => ~ picks_method l) junk ->
  exists w1,
    Talk (length junk) (flat_map (fun _ => [option_prompt; invalid_option]) junk) w w1
    /\ forall fuel, selectMiddleCodes_loop (length junk + fuel) w = selectMiddleCodes_loop fuel w1.
Proof.
  induction junk as [|l junk IH]; intros w rest Hin Hj.
  - exists w. split; [apply Talk_refl|]. reflexivity.
  - apply Forall_cons in Hj as [Hl Hj].
    pose proof (selectMiddleCodes_round_other w) as R. rewrite Hin in R. specialize (R Hl).
    set (w0 := emit invalid_option (next_line (emit option_prompt w))) in *.
    assert (T0 : Talk 1 [option_prompt; invalid_option] w w0).
    { subst w0. constructor; cbn; rewrite ?Hin, <- ?app_assoc; reflexivity. }
    destruct (IH w0 rest) as (w1 & T1 & H1); [|exact Hj|].
    { rewrite (talk_stdin _ _ _ _ T0), Hin. reflexivity. }
    exists w1. split.
    + exact (Talk_trans _ _ _ _ _ _ _ T0 T1).
    + intros fuel. cbn [length Nat.add selectMiddleCodes_loop]. unfold bind. rewrite R. apply H1.
Qed.

Lemma selectMiddleCodes_menu fuel w :
  selectMiddleCodes fuel w = selectMiddleCodes_loop fuel (emits method_menu w).
Proof. reflexivity. Qed.

(** X10.  At the end of the input the two questions are asked for ever:
    when no line left is an answer, [askToContinue] does not return, and
    when no line left picks a method, [selectMiddleCodes] does not return,
    however many rounds they are given.  With no line left at all, a round
    of [askToContinue] reads the empty text, prints the question and
    [Invalid input, please enter y or n], and is where it was. *)
Theorem questions_wait_for_an_answer :
  (forall (w : World) (fuel : nat),
     Forall no_answer (stdin w) -> askToContinue fuel w = None)
  /\ (forall (w : World) (fuel : nat),
        Forall (fun l => ~ picks_method l) (stdin w) -> selectMiddleCodes fuel w = None)
  /\ (forall w : World,
        stdin w = [] ->
        exists w',
          askToContinue_round w = Some (Again, w')
          /\ stdin w' = [] /\ stdout w' = stdout w ++ [exit_prompt; invalid_answer]
          /\ files w' = files w).
Proof.
  split; [|split].
  - intros w fuel H. apply askToContinue_starves. exact H.
  - intros w fuel H. rewrite selectMiddleCodes_menu.
    apply selectMiddleCodes_loop_starves.
    destruct (emits_stdin method_menu w) as [-> _]. exact H.
  - intros w Hin.
    rewrite askToContinue_round_other by (rewrite Hin; exact no_answer_empty).
    eexists. split; [reflexivity|]. cbn. rewrite Hin, <- app_assoc. repeat split.
Qed.

(** X11.  Manual entry through the menu: [selectMiddleCodes] prints its
    three lines, answers every line that is neither 1 nor 2 with
    [Invalid option, please enter 1 or 2], and on 2 reads one more line;
    when that line holds a valid code the function returns the codes of
    the line, reports how many they are, and has touched no file. *)
Theorem manual_entry_through_the_menu (w : World) (junk : list string)
    (choice line : string) (rest codes : list string) (fuel : nat) :
  stdin w = junk ++ choice :: line :: rest ->
  Forall (fun l => ~ picks_method l) junk -> (length junk < fuel)%nat ->
  Strings.TrimSpace choice = "2"%string ->
  manual_result line = (codes, None) ->
  exists w',
    selectMiddleCodes fuel w = Some ((codes, None), w')
    /\ stdin w' = rest
    /\ Talk (S (S (length junk)))
         (method_menu ++ flat_map (fun _ => [option_prompt; invalid_option]) junk
          ++ [option_prompt; manual_prompt; manual_success codes]) w w'.
Proof.
  intros Hin Hj Hfuel Hch Hres.
  rewrite selectMiddleCodes_menu.
  set (w0 := emits method_menu w).
  assert (T0 : Talk 0 method_menu w w0).
  { destruct (emits_Console method_menu w) as [A1 A2 A3 A4].
    destruct (emits_stdin method_menu w) as [A5 _]. constructor; assumption. }
  destruct (selectMiddleCodes_skips junk w0 (choice :: line :: rest)) as (w1 & T1 & H1).
  { rewrite (talk_stdin _ _ _ _ T0). exact Hin. }
  { exact Hj. }
  replace fuel with (length junk + S (fuel - S (length junk)))%nat by lia.
  rewrite H1. cbn [selectMiddleCodes_loop]. unfold bind.
  assert (Hin1 : stdin w1 = choice :: line :: rest).
  { rewrite (talk_stdin _ _ _ _ T1), (talk_stdin _ _ _ _ T0), drop_0.
    rewrite Hin, drop_app_length. reflexivity. }
  pose proof (round_choice_2 w1) as R. rewrite Hin1 in R. cbn [hd tail] in R.
  rewrite Hres in R. specialize (R Hch). cbv zeta in R. rewrite R. unfold ret.
  eexists. split; [reflexivity|]. split; [cbn; rewrite Hin1; reflexivity|].
  fold (manual_success codes).
  assert (T2 : Talk 2 [option_prompt; manual_prompt; manual_success codes] w1
                 (emit (manual_success codes)
                    (next_line (emit manual_prompt (next_line (emit option_prompt w1)))))).
  { constructor; cbn; rewrite ?Hin1, <- ?app_assoc; reflexivity. }
  pose proof (Talk_trans _ _ _ _ _ _ _ T0 (Talk_trans _ _ _ _ _ _ _ T1 T2)) as T.
  replace (0 + (length junk + 2))%nat with (S (S (length junk))) in T by lia.
  exact T.
Qed.

End Menu.

Lemma manual_entry_through_the_menu_witness :
  exists w',
    @selectMiddleCodes RefJSON.codec 2
      (quiet_world ["x"; " 2 "; "0537, 0100 ,abc"; "y"]%string ∅)
    = Some ((["0537"; "0100"]%string, None), w')
    /\ stdin w' = ["y"%string]
    /\ last (stdout w')
       = Some ("Manual input successful, total 2 4-digit middle codes: [0537 0100]" +:+ newline).
Proof.
  destruct (@manual_entry_through_the_menu RefJSON.codec
              (quiet_world ["x"; " 2 "; "0537, 0100 ,abc"; "y"]%string ∅)
              ["x"%string] " 2 " "0537, 0100 ,abc" ["y"%string] ["0537"; "0100"]%string 2)
    as (w' & E & Hin & T).
  - reflexivity.
  - repeat constructor. intros [H|H]; discriminate H.
  - cbn [length]. lia.
  - reflexivity.
  - reflexivity.
  - exists w'. split; [exact E|]. split; [exact Hin|].
    rewrite (talk_stdout _ _ _ _ T). reflexivity.
Defined.

Lemma questions_wait_for_an_answer_witness :
  askToContinue 1000 (quiet_world ["maybe"; "yes"; "no"]%string ∅) = None.
Proof.
  apply (proj1 (@questions_wait_for_an_answer RefJSON.codec)).
  repeat constructor; intros [H|H]; discriminate H.
Defined.

(** ** The program *)

Lemma says_yes_not_empty : ~ says_yes EmptyString.
Proof. intros [H|H]; discriminate H. Qed.

Lemma hd_elem_of (P : string -> Prop) (l : list string) :
  ~ P EmptyString -> P (hd EmptyString l) -> exists x, x ∈ l /\ P x.
Proof.
  intros Hn H. destruct l as [|x l]; [contradiction|]. exists x. split; [constructor|exact H].
Qed.

Lemma suffix_tail {A} (l : list A) : tail l `suffix_of` l.
Proof. destruct l as [|x l]; [reflexivity|]. exists [x]. reflexivity. Qed.

(** [askToContinue] only reads, and an answer false was a line that says
    yes. *)
Lemma askToContinue_reads fuel : forall w b w',
  askToContinue fuel w = Some (b, w') ->
  stdin w' `suffix_of` stdin w
  /\ (b = false -> exists l, l ∈ stdin w /\ says_yes l).
Proof.
  induction fuel as [|fuel IH]; intros w b w'; [discriminate|].
  cbn [askToContinue]. unfold bind. rewrite askToContinue_round_eq. cbv zeta.
  destruct (_ || _) eqn:Ey.
  - unfold ret. cbv beta. intros [= <- <-]. split; [apply suffix_tail|]. intros _.
    apply hd_elem_of; [exact says_yes_not_empty|]. apply says_yes_eqb. exact Ey.
  - destruct (String.eqb _ "n" || _); cbv beta iota.
    + unfold ret. cbv beta. intros [= <- <-]. split; [apply suffix_tail|discriminate].
    + intros H. apply IH in H as [Hs Hb]. cbn [stdin emit next_line] in Hs, Hb.
      split; [etrans; [exact Hs|apply suffix_tail]|].
      intros ->. destruct (Hb eq_refl) as (l & Hl & Hy). exists l. split; [|exact Hy].
      destruct (stdin w) as [|x r]; [exact Hl|]. apply elem_of_cons. right. exact Hl.
Qed.

Section Program.
Context `{json : JSON} `{arch : Arch}.

Lemma selectMiddleCodes_round_reads w r w' :
  selectMiddleCodes_round w = Some (r, w') -> stdin w' `suffix_of` stdin w.
Proof.
  unfold selectMiddleCodes_round, bind, Print, Scan, Text, ret.
  destruct (String.eqb _ "1").
  - destruct (loadConfig_any (next_line (emit "Enter option (1/2): " w)))
      as (cfg & e & w1 & msgs & -> & R & _).
    pose proof (run_stdin _ _ _ _ R) as Hs. cbn [stdin emit next_line] in Hs.
    destruct e as [err|].
    + intros [= _ <-]. cbn [stdin emit]. rewrite Hs. apply suffix_tail.
    + destruct (Nat.eqb _ 0); unfold Println, Print, bind, ret;
        intros [= _ <-]; cbn [stdin emit]; rewrite Hs; apply suffix_tail.
  - destruct (String.eqb _ "2").
    + rewrite inputMiddleCodes_spec.
      destruct (manual_result _) as [codes [err|]]; intros [= _ <-];
        cbn [stdin emit next_line];
        (etrans; [apply suffix_tail|apply suffix_tail]).
    + unfold Println, Print, bind, ret. intros [= _ <-]. cbn [stdin emit next_line].
      apply suffix_tail.
Qed.

Lemma selectMiddleCodes_reads fuel : forall w r w',
  selectMiddleCodes_loop fuel w = Some (r, w') -> stdin w' `suffix_of` stdin w.
Proof.
  induction fuel as [|fuel IH]; intros w r w'; [discriminate|].
  cbn [selectMiddleCodes_loop]. unfold bind.
  destruct (selectMiddleCodes_round w) as [[[a|] w1]|] eqn:E; [| |discriminate].
  - unfold ret. intros [= <- <-]. apply (selectMiddleCodes_round_reads _ _ _ E).
  - intros H. etrans; [exact (IH _ _ _ H)|]. apply (selectMiddleCodes_round_reads _ _ _ E).
Qed.

Lemma main_loop_exit fuel : forall w w',
  main_loop fuel w = Some (tt, w') ->
  (exists l, l ∈ stdin w /\ says_yes l)
  /\ last (stdout w') = Some exiting.
Proof.
  induction fuel as [|fuel IH]; intros w w'; [discriminate|].
  cbn [main_loop]. unfold bind at 1. rewrite selectMiddleCodes_menu.
  destruct (selectMiddleCodes_loop (S fuel) (emits method_menu w)) as [[[codes e] w1]|] eqn:E1;
    [|discriminate].
  apply selectMiddleCodes_reads in E1. destruct (emits_stdin method_menu w) as [Hm _].
  rewrite Hm in E1.
  assert (Up : forall w2, stdin w2 `suffix_of` stdin w ->
                 (exists l, l ∈ stdin w2 /\ says_yes l) -> exists l, l ∈ stdin w /\ says_yes l).
  { intros w2 [k Hk] (l & Hl & Hy). exists l. split; [|exact Hy].
    rewrite Hk. apply elem_of_app. right. exact Hl. }
  destruct e as [err|].
  - unfold Print, bind. intros H. apply IH in H as [H1 H2]. split; [|exact H2].
    apply (Up _ E1). exact H1.
  - unfold bind at 1.
    destruct (generatePhoneNumbers_any codes w1) as (e & w2 & msgs & -> & R & _).
    pose proof (run_stdin _ _ _ _ R) as Hs.
    unfold bind at 1.
    assert (exists w3, (match e with
                        | Some err => Print ("Phone number generation failed: " +:+ Error err +:+ newline)
                        | None => Println (newline +:+ "✅ Phone numbers have been successfully exported to phonedict.txt")
                        end) w2 = Some (tt, w3) /\ stdin w3 = stdin w2) as (w3 & -> & Hs3).
    { destruct e; unfold Println, Print; eexists; split; reflexivity. }
    unfold bind at 1.
    destruct (askToContinue (S fuel) w3) as [[again w4]|] eqn:E4; [|discriminate].
    apply askToContinue_reads in E4 as [Hs4 Hb].
    assert (S3 : stdin w3 `suffix_of` stdin w) by (rewrite Hs3, Hs; exact E1).
    destruct again; cbn [negb].
    + unfold Println, Print, bind. intros H. apply IH in H as [H1 H2]. split; [|exact H2].
      apply (Up w4); [etrans; [exact Hs4|exact S3]|exact H1].
    + unfold Println, Print. intros [= <-]. split.
      * apply (Up w3 S3). apply Hb. reflexivity.
      * cbn [stdout emit]. apply last_snoc.
Qed.

(** X12.  [main] returns only after it has been told to: when it returns,
    one of the lines it was given says y or Y, and the last thing it
    printed is [Exiting program...].  This holds whatever the files, the
    codec and the failures. *)
Theorem main_exits_only_on_yes (fuel : nat) (w w' : World) :
  main fuel w = Some (tt, w') ->
  (exists l, l ∈ stdin w /\ says_yes l)
  /\ last (stdout w') = Some ("Exiting program..." +:+ newline).
Proof.
  unfold main, bind, Print. intros H. apply main_loop_exit in H. exact H.
Qed.

End Program.

Lemma main_exits_only_on_yes_witness :
  exists w',
    @main RefJSON.codec Int64 1 (read_only_world ["2"; "0537"; " Y "]%string) = Some (tt, w')
    /\ (exists l, l ∈ [("2" : string); "0537"; " Y "]%string /\ says_yes l)
    /\ last (stdout w') = Some ("Exiting program..." +:+ newline).
Proof.
  eexists. split; [vm_compute; reflexivity|].
  eapply (@main_exits_only_on_yes RefJSON.codec Int64 1
            (read_only_world ["2"; "0537"; " Y "]%string)).
  vm_compute. reflexivity.
Defined.

Section Sessions.
Context `{json : JSON} `{arch : Arch}.

(** One round of the loop of [main] with manual entry, up to the call of
    [generatePhoneNumbers] and from its return on. *)
Lemma main_loop_once fuel w choice line a rest codes :
  stdin w = choice :: line :: a :: rest ->
  Strings.TrimSpace choice = "2"%string ->
  manual_result line = (codes, None) ->
  exists w0,
    Talk 2 (method_menu ++ [option_prompt; manual_prompt; manual_success codes]) w w0
    /\ forall e w1,
         generatePhoneNumbers codes w0 = Some (e, w1) -> stdin w1 = stdin w0 ->
         let w2 := next_line (emit exit_prompt (emit (report e) w1)) in
         stdin w2 = rest
         /\ (says_yes a -> main_loop (S fuel) w = Some (tt, emit exiting w2))
         /\ (says_no a -> main_loop (S fuel) w = main_loop fuel (emit restart_line w2)).
Proof.
  intros Hin Hch Hres.
  set (wm := emits method_menu w).
  assert (Tm : Talk 0 method_menu w wm).
  { destruct (emits_Console method_menu w) as [A1 A2 A3 A4].
    destruct (emits_stdin method_menu w) as [A5 _]. constructor; assumption. }
  assert (Hinm : stdin wm = choice :: line :: a :: rest).
  { rewrite (talk_stdin _ _ _ _ Tm). exact Hin. }
  pose proof (round_choice_2 wm) as R. rewrite Hinm in R. cbn [hd tail] in R.
  rewrite Hres in R. specialize (R Hch). cbv zeta in R. fold (manual_success codes) in R.
  set (w0 := emit (manual_success codes) _) in R.
  assert (T0 : Talk 2 [option_prompt; manual_prompt; manual_success codes] wm w0).
  { subst w0. constructor.
    - cbn [stdin emit next_line]. rewrite Hinm. reflexivity.
    - cbn. rewrite <- ?app_assoc. reflexivity.
    - reflexivity.
    - reflexivity.
    - reflexivity. }
  exists w0. split; [exact (Talk_trans _ _ _ _ _ _ _ Tm T0)|].
  assert (Hin0 : stdin w0 = a :: rest).
  { rewrite (talk_stdin _ _ _ _ T0), Hinm. reflexivity. }
  intros e w1 E Hs w2. rewrite Hin0 in Hs.
  assert (Start : main_loop (S fuel) w
                  = (again <- askToContinue (S fuel) ;;
                     if negb again then Println "Exiting program..."
                     else
                       Println "-------------------------- Restart --------------------------" ;;;
                       main_loop fuel) (emit (report e) w1)).
  { cbn [main_loop]. unfold bind at 1. rewrite selectMiddleCodes_menu. fold wm.
    cbn [selectMiddleCodes_loop]. unfold bind at 1. rewrite R. unfold ret at 1.
    unfold bind at 1. rewrite E. unfold bind at 1.
    destruct e; reflexivity. }
  split; [subst w2; cbn; rewrite Hs; reflexivity|]. split.
  - intros Hy. rewrite Start. unfold bind. cbn [askToContinue]. unfold bind.
    rewrite askToContinue_round_yes by (cbn; rewrite Hs; exact Hy). reflexivity.
  - intros Hn. rewrite Start. unfold bind. cbn [askToContinue]. unfold bind.
    rewrite askToContinue_round_no by (cbn; rewrite Hs; exact Hn). reflexivity.
Qed.

Lemma generatePhoneNumbers_ok_run codes w :
  io_ok w ->
  exists w' msgs,
    generatePhoneNumbers codes w = Some (None, w')
    /\ contents outputPath w' = unlines (numbers allSegments codes)
    /\ Run outputPath msgs w w'.
Proof.
  intros Hio. destruct (generatePhoneNumbers_ok codes w Hio) as (w' & E & Hc & _).
  destruct (generatePhoneNumbers_any codes w) as (e & w2 & msgs & E2 & R & _).
  rewrite E in E2. injection E2 as <- <-. exists w', msgs. auto.
Qed.

Lemma io_ok_oracle w w' : oracle w' = oracle w -> io_ok w -> io_ok w'.
Proof. unfold io_ok. intros ->. auto. Qed.

Lemma main_loop_sessions earlier : forall fuel w final codes rest,
  stdin w = flat_map (fun l => ["2"; l; "n"]%string) earlier
            ++ "2"%string :: final :: "y"%string :: rest ->
  Forall (fun l => snd (manual_result l) = None) earlier ->
  manual_result final = (codes, None) ->
  io_ok w -> (length earlier < fuel)%nat ->
  exists w',
    main_loop fuel w = Some (tt, w')
    /\ contents outputPath w' = unlines (numbers allSegments codes)
    /\ stdin w' = rest /\ open_files w' = open_files w
    /\ (forall p, p <> outputPath -> files w' !! p = files w !! p)
    /\ last (stdout w') = Some exiting.
Proof.
  induction earlier as [|l earlier IH]; intros fuel w final codes rest Hin He Hres Hio Hfuel.
  - destruct fuel as [|fuel]; [cbn in Hfuel; lia|]. cbn [flat_map app] in Hin.
    destruct (main_loop_once fuel w "2" final "y" rest codes Hin eq_refl Hres)
      as (w0 & T0 & H0).
    destruct (generatePhoneNumbers_ok_run codes w0) as (w1 & msgs & E1 & C1 & R1).
    { apply (io_ok_oracle w); [apply (talk_oracle _ _ _ _ T0)|exact Hio]. }
    destruct (H0 None w1 E1 (run_stdin _ _ _ _ R1)) as (Hs2 & Hy & _).
    eexists. split; [apply Hy; left; reflexivity|].
    split; [exact C1|]. split; [exact Hs2|].
    split; [cbn; rewrite (run_open _ _ _ _ R1); apply (talk_open _ _ _ _ T0)|].
    split; [|apply last_snoc].
    intros p Hp. cbn. rewrite (run_files _ _ _ _ R1 p Hp), (talk_files _ _ _ _ T0). reflexivity.
  - destruct fuel as [|fuel]; [cbn in Hfuel; lia|]. cbn [flat_map app] in Hin.
    apply Forall_cons in He as [Hl He].
    destruct (manual_result l) as [codes1 e1] eqn:El. cbn [snd] in Hl. subst e1.
    destruct (main_loop_once fuel w "2" l "n" _ codes1 Hin eq_refl El) as (w0 & T0 & H0).
    destruct (generatePhoneNumbers_ok_run codes1 w0) as (w1 & msgs & E1 & C1 & R1).
    { apply (io_ok_oracle w); [apply (talk_oracle _ _ _ _ T0)|exact Hio]. }
    destruct (H0 None w1 E1 (run_stdin _ _ _ _ R1)) as (Hs2 & _ & Hn).
    rewrite Hn by (left; reflexivity).
    match goal with |- context [main_loop fuel ?w3] =>
      destruct (IH fuel w3 final codes rest) as (w' & E & C & Hs & Ho & Hf & Hlast)
    end; try assumption.
    { cbn [length] in Hfuel. apply (io_ok_oracle w); [|exact Hio].
      cbn. rewrite (run_oracle _ _ _ _ R1). apply (talk_oracle _ _ _ _ T0). }
    { cbn [length] in Hfuel. lia. }
    exists w'. split; [exact E|]. split; [exact C|]. split; [exact Hs|].
    split; [|split; [|exact Hlast]].
    + rewrite Ho. cbn. rewrite (run_open _ _ _ _ R1). apply (talk_open _ _ _ _ T0).
    + intros p Hp. rewrite (Hf p Hp). cbn.
      rewrite (run_files _ _ _ _ R1 p Hp), (talk_files _ _ _ _ T0). reflexivity.
Qed.

Lemma main_banner fuel w : main fuel w = main_loop fuel (emits banner w).
Proof. reflexivity. Qed.

Lemma NoDup_manual_file line codes :
  manual_result line = (codes, None) ->
  NoDup (file_lines (unlines (numbers allSegments codes))).
Proof.
  intros Hres. destruct (manual_result_valid _ _ Hres) as [_ Hv].
  assert (Hnd : NoDup codes).
  { revert Hres. unfold manual_result. destruct (String.eqb _ _); [discriminate|].
    pose proof (NoDup_first_seen
                  (filter valid_code
                     (map Strings.TrimSpace
                        (Strings.Split (Strings.TrimSpace line) ",")))) as N.
    fold (manual_codes (Strings.TrimSpace line)) in N.
    destruct (manual_codes _) as [|c l]; [discriminate|]. intros [= <-]. exact N. }
  rewrite file_lines_unlines by (apply numbers_all_digits; exact Hv).
  apply NoDup_numbers; auto.
  - eapply Forall_impl; [exact allSegments_digits|]. intros x [H _]. exact H.
  - exact allSegments_NoDup.
Qed.

Lemma generatePhoneNumbers_create_fails codes w x :
  oracle w (clock w) (SysCreate outputPath) = Some x ->
  generatePhoneNumbers codes w
  = Some (Some (ErrorfV "failed to create file: " (Os.path_error "open" outputPath x)), tick w).
Proof.
  intros Ho. unfold generatePhoneNumbers, bind at 1, Os.Create, bind at 1, sys.
  rewrite Ho. reflexivity.
Qed.

(** X13.  A whole run of the program with manual entry, when nothing
    fails: every session is the line 2, a line of codes and an answer; the
    sessions that end with n are followed by another; the one that ends
    with y is the last.  Then [main] returns, having read these lines and
    no more; every session has written the file anew, so that at the end
    [phonedict.txt] holds the numbers of the last list of codes and nothing
    of the earlier ones, and no number twice, since manual entry drops the
    repeated codes; no file is left open, no other file is changed,
    and the last line printed is [Exiting program...]. *)
Theorem restarted_sessions (earlier : list string) (final : string)
    (codes rest : list string) (w : World) (fuel : nat) :
  stdin w = flat_map (fun l => ["2"; l; "n"]%string) earlier
            ++ "2"%string :: final :: "y"%string :: rest ->
  Forall (fun l => snd (manual_result l) = None) earlier ->
  manual_result final = (codes, None) ->
  io_ok w -> (length earlier < fuel)%nat ->
  exists w',
    main fuel w = Some (tt, w')
    /\ contents outputPath w' = unlines (padded_numbers allSegments codes)
    /\ NoDup (file_lines (contents outputPath w'))
    /\ stdin w' = rest /\ open_files w' = open_files w
    /\ (forall p, p <> outputPath -> files w' !! p = files w !! p)
    /\ last (stdout w') = Some ("Exiting program..." +:+ newline).
Proof.
  intros Hin He Hres Hio Hfuel. rewrite main_banner.
  destruct (emits_Console banner w) as [A1 A2 A3 A4].
  destruct (emits_stdin banner w) as [A5 _].
  destruct (main_loop_sessions earlier fuel (emits banner w) final codes rest)
    as (w' & E & C & Hs & Ho & Hf & Hlast);
    [rewrite A5; exact Hin|exact He|exact Hres
    |apply (io_ok_oracle w); assumption|exact Hfuel|].
  exists w'. split; [exact E|].
  rewrite <- (numbers_padded allSegments codes).
  split; [exact C|]. split; [rewrite C; exact (NoDup_manual_file _ _ Hres)|].
  split; [exact Hs|]. split; [congruence|].
  split; [|exact Hlast]. intros p Hp. rewrite (Hf p Hp), A2. reflexivity.
Qed.

(** X14.  When [phonedict.txt] cannot be created, the program says so and
    goes on to its question: with the lines 2, a line of codes and y, the
    whole output of [main] is the banner, the menu, the two prompts, the
    codes taken, the line [Phone number generation failed: failed to create
    file: open phonedict.txt: ...] with the cause, the question and
    [Exiting program...]; no progress line is printed, no file is changed
    and none is left open. *)
Theorem failed_generation_is_reported (w : World) (choice line a : string)
    (rest codes : list string) (x : fault) (fuel : nat) :
  stdin w = choice :: line :: a :: rest ->
  Strings.TrimSpace choice = "2"%string ->
  manual_result line = (codes, None) ->
  says_yes a ->
  (forall t, oracle w t (SysCreate outputPath) = Some x) ->
  exists w',
    main (S fuel) w = Some (tt, w')
    /\ stdout w'
       = stdout w ++ banner ++ method_menu
         ++ [option_prompt; manual_prompt; manual_success codes;
             "Phone number generation failed: failed to create file: "
             +:+ Error (Os.path_error "open" outputPath x) +:+ newline;
             exit_prompt; "Exiting program..." +:+ newline]
    /\ files w' = files w /\ open_files w' = open_files w /\ stdin w' = rest.
Proof.
  intros Hin Hch Hres Hy Ho. rewrite main_banner.
  destruct (emits_Console banner w) as [A1 A2 A3 A4].
  destruct (emits_stdin banner w) as [A5 _].
  destruct (main_loop_once fuel (emits banner w) choice line a rest codes)
    as (w0 & T0 & H0); [rewrite A5; exact Hin|exact Hch|exact Hres|].
  assert (E : generatePhoneNumbers codes w0
              = Some (Some (ErrorfV "failed to create file: "
                              (Os.path_error "open" outputPath x)), tick w0)).
  { apply generatePhoneNumbers_create_fails.
    rewrite (talk_oracle _ _ _ _ T0), A4. apply Ho. }
  destruct (H0 _ _ E eq_refl) as (Hs & Hyes & _).
  eexists. split; [apply Hyes; exact Hy|].
  split; [|split; [|split; [|exact Hs]]].
  - cbn [stdout emit next_line tick]. rewrite (talk_stdout _ _ _ _ T0), A1.
    rewrite <- !app_assoc. reflexivity.
  - cbn [files emit next_line tick]. rewrite (talk_files _ _ _ _ T0). exact A2.
  - cbn [open_files emit next_line tick]. rewrite (talk_open _ _ _ _ T0). exact A3.
Qed.

End Sessions.

Lemma failed_generation_is_reported_witness :
  exists w',
    @main RefJSON.codec Int64 1 (read_only_world ["2"; "0537"; "y"; "left"]%string)
    = Some (tt, w')
    /\ nth 8 (stdout w') EmptyString
       = ("Phone number generation failed: failed to create file: "
          +:+ "open phonedict.txt: permission denied" +:+ newline)%string
    /\ files w' = ∅ /\ stdin w' = ["left"%string].
Proof.
  destruct (@failed_generation_is_reported RefJSON.codec Int64
              (read_only_world ["2"; "0537"; "y"; "left"]%string)
              "2" "0537" "y" ["left"%string] ["0537"%string]
              {| fault_errno := EACCES; fault_written := 0 |} 0)
    as (w' & E & Hout & Hf & _ & Hs).
  - reflexivity.
  - reflexivity.
  - reflexivity.
  - left. reflexivity.
  - intros t. reflexivity.
  - exists w'. split; [exact E|]. split; [rewrite Hout; reflexivity|].
    split; [exact Hf|exact Hs].
Defined.

Lemma restarted_sessions_witness :
  exists w',
    @main RefJSON.codec Int32 2
      (quiet_world ["2"; "0100,0210"; "n"; "2"; "0537"; "y"; "more"]%string ∅)
    = Some (tt, w')
    /\ contents outputPath w' = unlines (padded_numbers allSegments ["0537"%string])
    /\ NoDup (file_lines (contents outputPath w'))
    /\ stdin w' = ["more"%string].
Proof.
  destruct (@restarted_sessions RefJSON.codec Int32 ["0100,0210"%string] "0537"
              ["0537"%string] ["more"%string]
              (quiet_world ["2"; "0100,0210"; "n"; "2"; "0537"; "y"; "more"]%string ∅) 2)
    as (w' & E & C & Hn & Hs & _).
  - reflexivity.
  - repeat constructor.
  - reflexivity.
  - apply quiet_world_io_ok.
  - cbn [length]. lia.
  - exists w'. split; [exact E|]. split; [exact C|]. split; [exact Hn|exact Hs].
Defined.
